(** * IMDb-Filmstatistik: the record parser and the record query engine

    A shallow embedding of [src/App.tsx] (parseCSV, filterAndProcessMovies,
    createChartData, the upload handler, handleSearchChange) and of the
    MovieList component (genreTranslations, the year bounds and the
    filteredMovies memo), of the bar click of the App, of the sortedMovies
    memo of MovieDetailsModal and of the check boxes of the MovieList,
    followed by the properties of the specification and by further
    properties of the code.

    Modelling conventions.
    - A JavaScript string is a [string]: a sequence of code units, here the
      code units 0..255 (Latin-1).  White space and letter case are those
      ECMAScript gives these code units.
    - An [IMDbEntry] (an object used as a string-keyed dictionary) is a
      [gmap string string], its own properties.  The sources read it under
      fixed names only, none of which a plain object inherits.  A genre
      that is the name of an inherited property (constructor, toString and
      the like) reads the inherited value from the translation table; that
      value is no string and differs from name to name, so in the sets of
      the list the name stands for it.  A [Set<string>] is a
      [gset string].
    - A JavaScript number is a [number]: NaN, the two infinities, or an
      integer-valued double, written as the integer it is; [roundDouble]
      gives the Number value of an integer, the nearest double with ties
      to even.  No other doubles arise in the sources, and the two zeros
      are not told apart (nothing in the sources does).
    - An [IMDbEntry] gets its keys by assignment to a plain object, so the
      name __proto__, the accessor of Object.prototype, never becomes a
      key ([assign]).
    - [Array.prototype.sort] is a stable insertion sort driven by the sign of
      the comparator, NaN read as 0, as SortCompare prescribes. *)

From Stdlib Require Import ZArith NArith Ascii String List Bool Lia DecimalString DecimalPos.
From stdpp Require Import gmap strings list sorting.

Local Open Scope string_scope.
Local Open Scope bool_scope.

(** ** JavaScript primitives used by the sources *)
Module JS.

(** The code unit U+0022, written by its decimal code. *)
Definition dquote : ascii := "034"%char.
Definition LF : ascii := "010"%char.
Definition CR : ascii := "013"%char.

(** The letters outside ASCII that the literals of the sources contain. *)
Definition A_uml : string := String "196"%char EmptyString.
Definition a_uml : string := String "228"%char EmptyString.
Definition a_ring : string := String "229"%char EmptyString.
Definition o_uml : string := String "246"%char EmptyString.

(** WhiteSpace and LineTerminator code units below 256:
    TAB, LF, VT, FF, CR, SP and NBSP. *)
Definition isWhiteSpace (c : ascii) : bool :=
  let n := N_of_ascii c in
  ((n =? 9) || (n =? 10) || (n =? 11) || (n =? 12) || (n =? 13)
   || (n =? 32) || (n =? 160))%N.

Fixpoint trimStart (s : string) : string :=
  match s with
  | EmptyString => EmptyString
  | String c rest => if isWhiteSpace c then trimStart rest else s
  end.

Fixpoint trimEnd (s : string) : string :=
  match s with
  | EmptyString => EmptyString
  | String c rest =>
      match trimEnd rest with
      | EmptyString => if isWhiteSpace c then EmptyString else String c EmptyString
      | t => String c t
      end
  end.

(** [String.prototype.trim] *)
Definition trim (s : string) : string := trimEnd (trimStart s).

(** Lower case of one code unit: A..Z and the Latin-1 capitals
    U+00C0..U+00DE (U+00D7, the multiplication sign, apart). *)
Definition toLowerChar (c : ascii) : ascii :=
  let n := N_of_ascii c in
  if (((65 <=? n) && (n <=? 90))
      || ((192 <=? n) && (n <=? 222) && negb (n =? 215)))%N
  then ascii_of_N (n + 32) else c.

(** [String.prototype.toLowerCase] *)
Fixpoint toLowerCase (s : string) : string :=
  match s with
  | EmptyString => EmptyString
  | String c rest => String (toLowerChar c) (toLowerCase rest)
  end.

Definition isEmpty (s : string) : bool :=
  match s with EmptyString => true | _ => false end.

(** Truthiness of a string value that may be [undefined]. *)
Definition truthy (v : option string) : bool :=
  match v with Some s => negb (isEmpty s) | None => false end.

Fixpoint startsWith (p s : string) : bool :=
  match p, s with
  | EmptyString, _ => true
  | String a p', String b s' => Ascii.eqb a b && startsWith p' s'
  | String _ _, EmptyString => false
  end.

(** [String.prototype.endsWith] *)
Fixpoint endsWith (s suffix : string) : bool :=
  String.eqb s suffix ||
  match s with
  | EmptyString => false
  | String _ rest => endsWith rest suffix
  end.

(** [String.prototype.includes] *)
Fixpoint includes (s needle : string) : bool :=
  startsWith needle s ||
  match s with
  | EmptyString => false
  | String _ rest => includes rest needle
  end.

(** The pieces of a split are built front to back: a code unit that is no
    separator goes to the front of the piece that is being read. *)
Definition pushFront (c : ascii) (pieces : list string) : list string :=
  match pieces with
  | [] => [String c EmptyString]
  | p :: ps => String c p :: ps
  end.

(** [s.split(d)] for a separator [d] of one code unit. *)
Fixpoint split (d : ascii) (s : string) : list string :=
  match s with
  | EmptyString => [EmptyString]
  | String c rest =>
      if Ascii.eqb c d then EmptyString :: split d rest
      else pushFront c (split d rest)
  end.

(** [s.split(', ')] *)
Fixpoint splitCommaSpace (s : string) : list string :=
  match s with
  | EmptyString => [EmptyString]
  | String c rest =>
      match rest with
      | String c' rest' =>
          if Ascii.eqb c ","%char && Ascii.eqb c' " "%char
          then EmptyString :: splitCommaSpace rest'
          else pushFront c (splitCommaSpace rest)
      | EmptyString => pushFront c (splitCommaSpace rest)
      end
  end.

(** [s.split(/\r?\n/)]: at a CR that an LF follows both are the separator,
    at an LF the LF alone; a CR that no LF follows is an ordinary code unit. *)
Fixpoint splitLines (s : string) : list string :=
  match s with
  | EmptyString => [EmptyString]
  | String c rest =>
      if Ascii.eqb c LF then EmptyString :: splitLines rest
      else
        match rest with
        | String c' rest' =>
            if Ascii.eqb c CR && Ascii.eqb c' LF
            then EmptyString :: splitLines rest'
            else pushFront c (splitLines rest)
        | EmptyString => pushFront c (splitLines rest)
        end
  end.

(** The lookahead of the field separator, (?=(?:(?:[^Q]*Q){2})*[^Q]*$) with
    Q standing for the double quote, read as the automaton it denotes:
    double quotes are consumed in pairs up to the end of the input, so the
    state is the parity of the quotes that remain. *)
Fixpoint lookahead (s : string) : bool :=
  match s with
  | EmptyString => true
  | String c rest =>
      if Ascii.eqb c dquote then negb (lookahead rest) else lookahead rest
  end.

(** [s.split(regex)] for the field separator: the separator is the code
    unit [d] wherever the lookahead succeeds on the rest of the input. *)
Fixpoint splitRegex (d : ascii) (s : string) : list string :=
  match s with
  | EmptyString => [EmptyString]
  | String c rest =>
      if Ascii.eqb c d && lookahead rest then EmptyString :: splitRegex d rest
      else pushFront c (splitRegex d rest)
  end.

(** [s.replace(/^Q|Q$/g, '')], Q the double quote: every match is removed,
    and a match is a double quote that stands first (^Q) or last (Q$) in
    the input. *)
Fixpoint replaceEdgeQuotes (atStart : bool) (s : string) : string :=
  match s with
  | EmptyString => EmptyString
  | String c rest =>
      if Ascii.eqb c dquote && (atStart || isEmpty rest)
      then replaceEdgeQuotes false rest
      else String c (replaceEdgeQuotes false rest)
  end.

(** [Array.prototype.join] *)
Fixpoint join (sep : string) (l : list string) : string :=
  match l with
  | [] => EmptyString
  | [x] => x
  | x :: rest => x ++ sep ++ join sep rest
  end.

(** Numbers, as far as the sources use them. *)
Inductive number : Type :=
  | NaN
  | NegInf
  | Fin (z : Z)
  | PosInf.

Definition isNaN (x : number) : bool :=
  match x with NaN => true | _ => false end.

(** [x < y] *)
Definition lt (x y : number) : bool :=
  match x, y with
  | NaN, _ | _, NaN => false
  | NegInf, NegInf => false
  | NegInf, _ => true
  | _, NegInf => false
  | PosInf, _ => false
  | Fin _, PosInf => true
  | Fin a, Fin b => (a <? b)%Z
  end.

(** [x > y] *)
Definition gt (x y : number) : bool := lt y x.

(** The Number value of an integer: the nearest double, ties to even.  Up
    to 2^53 every integer is a double; above, with [e] such that the
    magnitude is [q * 2^e + r] and [q] has 53 bits, the doubles around it
    are [q * 2^e] and [(q + 1) * 2^e]; a magnitude that rounds to 2^1024
    or more is infinite. *)
Definition roundDouble (z : Z) : number :=
  let a := Z.abs z in
  if (a <? 2 ^ 53)%Z then Fin z
  else
    let e := (Z.log2 a - 52)%Z in
    let q := (a / 2 ^ e)%Z in
    let r := (a mod 2 ^ e)%Z in
    let half := (2 ^ (e - 1))%Z in
    let m := if (half <? r)%Z || ((r =? half)%Z && Z.odd q) then (q + 1)%Z else q in
    let v := (m * 2 ^ e)%Z in
    if (2 ^ 1024 <=? v)%Z then (if (z <? 0)%Z then NegInf else PosInf)
    else Fin (Z.sgn z * v).

(** [x - y]: the exact difference of two doubles, rounded. *)
Definition sub (x y : number) : number :=
  match x, y with
  | NaN, _ | _, NaN => NaN
  | Fin a, Fin b => roundDouble (a - b)
  | PosInf, PosInf | NegInf, NegInf => NaN
  | PosInf, _ | _, NegInf => PosInf
  | NegInf, _ | _, PosInf => NegInf
  end.

(** [x || y] on numbers: NaN and 0 are the falsy ones. *)
Definition orElse (x y : number) : number :=
  match x with
  | NaN | Fin 0 => y
  | _ => x
  end.

Definition digitValue (c : ascii) : option Z :=
  let n := N_of_ascii c in
  if ((48 <=? n) && (n <=? 57))%N then Some (Z.of_N n - 48)%Z else None.

(** The longest prefix of decimal digits, read with [acc] as the value of
    the digits before it; [None] when there is no digit. *)
Fixpoint digits (acc : option Z) (s : string) : option Z :=
  match s with
  | EmptyString => acc
  | String c rest =>
      match digitValue c with
      | Some v => digits (Some (10 * default 0%Z acc + v)%Z) rest
      | None => acc
      end
  end.

(** [parseInt(s, 10)] on a string: the Number value of the integer the
    digits denote (ECMAScript lets an implementation read the digits after
    the 20th as zeros; the usual engines read them all, as here). *)
Definition parseIntStr (s : string) : number :=
  match trimStart s with
  | String c rest =>
      if Ascii.eqb c "-"%char
      then match digits None rest with Some v => roundDouble (- v) | None => NaN end
      else if Ascii.eqb c "+"%char
      then match digits None rest with Some v => roundDouble v | None => NaN end
      else match digits None (String c rest) with
           | Some v => roundDouble v
           | None => NaN
           end
  | EmptyString => NaN
  end.

(** [parseInt(v, 10)] on a property that may be absent: [undefined] is read
    as the string of that name, which has no digit. *)
Definition parseInt (v : option string) : number :=
  match v with
  | Some s => parseIntStr s
  | None => NaN
  end.

(** The decimal numeral of an integer, which is [String(n)] for an integer
    below 2^53 in magnitude (see [numberToString] for the others). *)
Definition toString (z : Z) : string := NilZero.string_of_int (Z.to_int z).

Definition number_eqb (x y : number) : bool :=
  match x, y with
  | NegInf, NegInf | PosInf, PosInf => true
  | Fin a, Fin b => (a =? b)%Z
  | _, _ => false
  end.

(** The integer [v] has the double [a] as its Number value. *)
Definition roundsTo (a v : Z) : bool := number_eqb (roundDouble v) (Fin a).

(** Number::toString writes a double with the fewest digits that still
    denote it, and of the numerals with that many digits the one closest
    to it (the even one on a tie).  With the digits counted from the unit
    [p], a power of ten, the numerals next to [a] are the multiples of [p]
    below and above it. *)
Definition candidate (a p : Z) : option Z :=
  let lo := (a / p * p)%Z in
  let hi := (lo + p)%Z in
  match roundsTo a lo, roundsTo a hi with
  | true, true =>
      if (a - lo <? hi - a)%Z then Some lo
      else if (hi - a <? a - lo)%Z then Some hi
      else if Z.even (lo / p) then Some lo else Some hi
  | true, false => Some lo
  | false, true => Some hi
  | false, false => None
  end.

(** The search from one digit on: the unit shrinks by a factor of ten at
    each step. *)
Fixpoint shortestFrom (a p : Z) (steps : nat) : Z :=
  match steps with
  | O => a
  | S n =>
      match candidate a p with
      | Some v => v
      | None => shortestFrom a (p / 10) n
      end
  end.

(** The integer whose numeral Number::toString writes for the double [a],
    [0 <= a]; with as many digits as [a] has, [a] itself is found. *)
Definition shortest (a : Z) : Z :=
  let d := String.length (toString a) in
  shortestFrom a (10 ^ (Z.of_nat d - 1)) d.

(** A numeral without its final zeros. *)
Fixpoint stripZeros (s : string) : string :=
  match s with
  | EmptyString => EmptyString
  | String c rest =>
      match stripZeros rest with
      | EmptyString =>
          if Ascii.eqb c "0"%char then EmptyString else String c EmptyString
      | t => String c t
      end
  end.

(** The exponent form of Number::toString for an integer of more than 21
    digits: the first digit, the other digits after a point if there are
    any, and the exponent. *)
Definition exponentForm (v : Z) : string :=
  let ds := toString v in
  let n := Z.of_nat (String.length ds) in
  match stripZeros ds with
  | EmptyString => ds
  | String c EmptyString => String c ("e+" ++ toString (n - 1))
  | String c rest => String c ("." ++ rest ++ "e+" ++ toString (n - 1))
  end.

(** [String(x)] on a number: plain digits below 10^21, the exponent form
    from there on. *)
Definition numberToString (x : number) : string :=
  match x with
  | NaN => "NaN"
  | NegInf => "-Infinity"
  | Fin z =>
      let v := shortest (Z.abs z) in
      let body := if (v <? 10 ^ 21)%Z then toString v else exponentForm v in
      if (z <? 0)%Z then "-" ++ body else body
  | PosInf => "Infinity"
  end.

(** SortCompare: the sign of the comparator's value, NaN read as +0. *)
Definition positive (v : number) : bool :=
  match v with
  | PosInf => true
  | Fin z => (0 <? z)%Z
  | _ => false
  end.

Section Sort.
Context {A : Type}.

(** [x] stood before every element of [l]; it moves behind [y] only when
    the comparator puts it strictly after [y]. *)
Fixpoint insert (cmp : A -> A -> number) (x : A) (l : list A) : list A :=
  match l with
  | [] => [x]
  | y :: l' => if positive (cmp x y) then y :: insert cmp x l' else x :: l
  end.

(** [Array.prototype.sort(cmp)] *)
Definition sort (cmp : A -> A -> number) (l : list A) : list A :=
  foldr (insert cmp) [] l.

(** The same with a comparator that may throw ([None]): the sort throws
    as soon as a comparison it makes does. *)
Fixpoint insertM (cmp : A -> A -> option number) (x : A) (l : list A)
  : option (list A) :=
  match l with
  | [] => Some [x]
  | y :: l' =>
      match cmp x y with
      | None => None
      | Some v =>
          if positive v
          then match insertM cmp x l' with
               | Some r => Some (y :: r)
               | None => None
               end
          else Some (x :: l)
      end
  end.

Fixpoint sortM (cmp : A -> A -> option number) (l : list A)
  : option (list A) :=
  match l with
  | [] => Some []
  | x :: l' =>
      match sortM cmp l' with
      | Some r => insertM cmp x r
      | None => None
      end
  end.
End Sort.

End JS.

(** ** The record parser and the upload workflow of [src/App.tsx] *)
Module App.
Import JS.

(** [IMDbEntry]: a dictionary from column names to cell values. *)
Abbreviation IMDbEntry := (gmap string string).

(** [ChartDataPoint] *)
Record ChartDataPoint : Type := { year : string; count : nat }.

(** [h.trim().replace(/^Q|Q$/g, '')], the cleaning of a header field and
    of a cell. *)
Definition clean (field : string) : string :=
  replaceEdgeQuotes true (trim field).

(** The delimiter chosen from the header line:
    [headerLine.split(',').length >= headerLine.split(';').length]. *)
Definition detectDelimiter (headerLine : string) : ascii :=
  if (length (split ";"%char headerLine) <=? length (split ","%char headerLine))%nat
  then ","%char else ";"%char.

(** [obj[key] = value] on a plain object with a string value: the
    assignment adds or overwrites the own property [key], except for the
    name __proto__, where it calls the accessor of Object.prototype, which
    ignores a string and leaves the object as it is. *)
Definition assign (key value : string) (obj : IMDbEntry) : IMDbEntry :=
  if String.eqb key "__proto__" then obj else <[key := value]> obj.

(** The inner loop of parseCSV: [obj[header[j]] = value] for the header
    fields from position [j] on. *)
Fixpoint fillEntry (keys : list string) (j : nat) (currentline : list string)
    (obj : IMDbEntry) : IMDbEntry :=
  match keys with
  | [] => obj
  | key :: keys' =>
      let value :=
        match currentline !! j with
        | Some cell => if isEmpty cell then EmptyString else clean cell
        | None => EmptyString
        end in
      fillEntry keys' (S j) currentline (assign key value obj)
  end.

(** The outer loop of parseCSV over the lines after the header, with the
    array [result] it pushes to. *)
Fixpoint parseLines (d : ascii) (header : list string) (lines : list string)
    (result : list IMDbEntry) : list IMDbEntry :=
  match lines with
  | [] => result
  | line :: lines' =>
      if isEmpty (trim line) then parseLines d header lines' result
      else
        let currentline := splitRegex d line in
        if negb (length header =? length currentline)%nat
        then parseLines d header lines' result
        else parseLines d header lines'
               (result ++ [fillEntry header 0 currentline ∅])
  end.

(** The non-blank lines of the input. *)
Definition contentLines (text : string) : list string :=
  let content := trim text in
  let content :=
    match content with
    | String c rest => if (N_of_ascii c =? 65279)%N then rest else content
    | EmptyString => content
    end in
  List.filter (fun line => negb (isEmpty (trim line))) (splitLines content).

Definition parseCSV (text : string) : list IMDbEntry :=
  let lines := contentLines text in
  if (length lines <? 2)%nat then []
  else
    match lines with
    | [] => []
    | headerLine :: rest =>
        let delimiter := detectDelimiter headerLine in
        let header := map clean (splitRegex delimiter headerLine) in
        parseLines delimiter header rest []
    end.

(** [entry['Title Type'] || entry['TitleType']] *)
Definition titleTypeOf (entry : IMDbEntry) : option string :=
  if truthy (entry !! "Title Type") then entry !! "Title Type"
  else entry !! "TitleType".

(** The callback of filterAndProcessMovies, as a truth value. *)
Definition isMovie (entry : IMDbEntry) : bool :=
  match titleTypeOf entry with
  | Some titleType =>
      String.eqb (toLowerCase titleType) "movie" && truthy (entry !! "Year")
  | None => false
  end.

Definition filterAndProcessMovies (data : list IMDbEntry) : list IMDbEntry :=
  List.filter isMovie data.

(** [yearCounts]: an object whose property names are the decimal strings
    of integers, indexed here by the integer. *)
Definition countYear (yearCounts : gmap Z nat) (movie : IMDbEntry) : gmap Z nat :=
  match parseInt (movie !! "Year") with
  | Fin y =>
      if (1800 <? y)%Z && (y <? 2100)%Z
      then <[y := (default 0 (yearCounts !! y) + 1)%nat]> yearCounts
      else yearCounts
  | _ => yearCounts
  end.

Definition keyLe (p q : Z * nat) : Prop := (p.1 <= q.1)%Z.

#[global] Instance keyLe_dec p q : Decision (keyLe p q).
Proof. unfold keyLe. apply _. Defined.

(** [Object.entries] of such an object: integer-like property names come
    in ascending numeric order. *)
Definition entries (yearCounts : gmap Z nat) : list (string * nat) :=
  map (fun p => (toString p.1, p.2)) (merge_sort keyLe (map_to_list yearCounts)).

Definition byYear (a b : ChartDataPoint) : number :=
  sub (parseInt (Some (year a))) (parseInt (Some (year b))).

Definition createChartData (movies : list IMDbEntry) : list ChartDataPoint :=
  let yearCounts := fold_left countYear movies ∅ in
  sort byYear
    (map (fun p => {| year := p.1; count := p.2 |}) (entries yearCounts)).

(** A [File] with what the FileReader makes of it: its text, or [None]
    when reading fails. *)
Record File : Type := { type : string; name : string; content : option string }.

(** The state of the App component. *)
Record AppState : Type := {
  allMovies : list IMDbEntry;
  chartData : list ChartDataPoint;
  fileName : option string;
  error : option string;
  isLoading : bool;
  searchTerm : string;
  searchResults : list IMDbEntry;
  availableColumns : list string
}.

Definition REQUIRED_COLUMNS : list string :=
  ["Const"; "Title"; "Year"; "Your Rating"; "URL"].

(** [col in row] *)
Definition hasKey (col : string) (row : IMDbEntry) : bool :=
  bool_decide (is_Some (row !! col)).

(** [Object.keys(row)]; its callers only test membership. *)
Definition keys (row : IMDbEntry) : list string := (map_to_list row).*1.

Definition emptyFileMessage : string :=
  "CSV-filen " ++ a_uml ++ "r tom eller har ett ogiltigt format.".

Definition missingColumnsMessage (allMissing : list string) : string :=
  "CSV-filen saknar n" ++ o_uml ++ "dv" ++ a_uml ++ "ndiga kolumner f" ++ o_uml
  ++ "r grundfunktionalitet: " ++ join ", " allMissing
  ++ ". Se till att dessa " ++ a_uml ++ "r med i din IMDb-export.".

Definition noMoviesMessage : string :=
  "Kunde inte hitta n" ++ a_ring ++ "gra filmer i den angivna filen. "
  ++ "Kontrollera att kolumnen 'Title Type' inneh" ++ a_ring
  ++ "ller v" ++ a_uml ++ "rdet 'movie'.".

(** The [catch] and [finally] of the load handler. *)
Definition failWith (message : string) (st : AppState) : AppState :=
  {| allMovies := allMovies st; chartData := chartData st;
     fileName := fileName st; error := Some message; isLoading := false;
     searchTerm := searchTerm st; searchResults := searchResults st;
     availableColumns := availableColumns st |}.

(** [reader.onload] *)
Definition onload (text : string) (st : AppState) : AppState :=
  let parsedData := parseCSV text in
  match parsedData with
  | [] => failWith emptyFileMessage st
  | firstRow :: _ =>
      let st1 :=
        {| allMovies := allMovies st; chartData := chartData st;
           fileName := fileName st; error := error st; isLoading := isLoading st;
           searchTerm := searchTerm st; searchResults := searchResults st;
           availableColumns := keys firstRow |} in
      let missingColumns :=
        List.filter (fun col => negb (hasKey col firstRow)) REQUIRED_COLUMNS in
      let hasTitleType :=
        hasKey "Title Type" firstRow || hasKey "TitleType" firstRow in
      if negb (length missingColumns =? 0)%nat || negb hasTitleType
      then
        let allMissing :=
          (missingColumns ++ (if hasTitleType then [] else ["Title Type"]))%list in
        failWith (missingColumnsMessage allMissing) st1
      else
        let movies := filterAndProcessMovies parsedData in
        if (length movies =? 0)%nat then failWith noMoviesMessage st1
        else
          {| allMovies := movies; chartData := createChartData movies;
             fileName := fileName st1; error := error st1; isLoading := false;
             searchTerm := searchTerm st1; searchResults := searchResults st1;
             availableColumns := availableColumns st1 |}
  end.

(** [reader.onerror] *)
Definition onerror (st : AppState) : AppState :=
  failWith ("Det gick inte att l" ++ a_uml ++ "sa filen.") st.

(** handleFileSelect, with the reader's callback run on what it read. *)
Definition handleFileSelect (file : File) (st : AppState) : AppState :=
  if negb (String.eqb (type file) "text/csv") && negb (endsWith (name file) ".csv")
  then
    {| allMovies := allMovies st; chartData := chartData st;
       fileName := fileName st;
       error := Some ("Felaktig filtyp. V" ++ a_uml ++ "nligen ladda upp en CSV-fil.");
       isLoading := isLoading st;
       searchTerm := searchTerm st; searchResults := searchResults st;
       availableColumns := availableColumns st |}
  else
    let st0 :=
      {| allMovies := []; chartData := []; fileName := Some (name file);
         error := None; isLoading := true; searchTerm := EmptyString;
         searchResults := []; availableColumns := [] |} in
    match content file with
    | Some text => onload text st0
    | None => onerror st0
    end.

(** The filter of handleSearchChange; reading [toLowerCase] off a missing
    Title throws ([None]). *)
Fixpoint filterByTitle (value : string) (movies : list IMDbEntry)
    : option (list IMDbEntry) :=
  match movies with
  | [] => Some []
  | movie :: movies' =>
      match movie !! "Title" with
      | None => None
      | Some title =>
          match filterByTitle value movies' with
          | None => None
          | Some kept =>
              Some (if includes (toLowerCase title) (toLowerCase value)
                    then movie :: kept else kept)
          end
      end
  end.

Definition ratingOf (movie : IMDbEntry) : number :=
  parseInt (movie !! "Your Rating").

(** Sort by rating descending: [ratingB - ratingA]. *)
Definition byRatingDesc (a b : IMDbEntry) : number :=
  sub (ratingOf b) (ratingOf a).

(** What handleSearchChange hands to setSearchResults, [None] when the
    filter throws. *)
Definition searchMovies (allMovies : list IMDbEntry) (value : string)
    : option (list IMDbEntry) :=
  if isEmpty (trim value) then Some []
  else
    match filterByTitle value allMovies with
    | Some kept => Some (sort byRatingDesc kept)
    | None => None
    end.

Definition handleSearchChange (value : string) (st : AppState) : AppState :=
  let results :=
    match searchMovies (allMovies st) value with
    | Some r => r
    | None => searchResults st
    end in
  {| allMovies := allMovies st; chartData := chartData st;
     fileName := fileName st; error := error st; isLoading := isLoading st;
     searchTerm := value; searchResults := results;
     availableColumns := availableColumns st |}.

End App.

(** ** The MovieList component: the faceted main list *)
Module MovieList.
Import JS App.

(** What the component takes from its platform: the collation of
    [String.prototype.localeCompare] and the date parser behind
    [new Date(s).getTime()]. *)
Class Host : Type := {
  localeCompare : string -> string -> number;
  getTime : string -> number
}.

Inductive SortOption : Type :=
  | rating_desc | rating_asc
  | title_asc | title_desc
  | original_title_asc | original_title_desc
  | year_desc | year_asc
  | rated_date_desc | rated_date_asc.

Definition genreTranslations : gmap string string :=
  list_to_map
    [ ("Action", "Action");
      ("Adventure", A_uml ++ "ventyr");
      ("Animation", "Animerat");
      ("Biography", "Biografi");
      ("Comedy", "Komedi");
      ("Crime", "Kriminal");
      ("Documentary", "Dokument" ++ a_uml ++ "r");
      ("Drama", "Drama");
      ("Family", "Familj");
      ("Fantasy", "Fantasy");
      ("Film-Noir", "Film-Noir");
      ("History", "Historia");
      ("Horror", "Skr" ++ a_uml ++ "ck");
      ("Music", "Musik");
      ("Musical", "Musikal");
      ("Mystery", "Mysterium");
      ("Romance", "Romantik");
      ("Sci-Fi", "Sci-Fi");
      ("Short", "Kortfilm");
      ("Sport", "Sport");
      ("Thriller", "Thriller");
      ("War", "Krig");
      ("Western", "V" ++ a_uml ++ "stern") ].

(** [genreTranslations[g] || g] *)
Definition translate (g : string) : string :=
  match genreTranslations !! g with
  | Some t => if isEmpty t then g else t
  | None => g
  end.

Record MovieListProps : Type := {
  movies : list IMDbEntry;
  columns : list string   (* availableColumns *)
}.

Record YearRange : Type := { min : string; max : string }.

(** The state of the component. *)
Record MovieListState : Type := {
  selectedGenres : gset string;
  selectedRatings : gset string;
  yearRange : YearRange;
  directorSearchTerm : string;
  sortBy : SortOption
}.

(** The state the component starts in. *)
Definition initialState : MovieListState :=
  {| selectedGenres := ∅; selectedRatings := ∅;
     yearRange := {| min := EmptyString; max := EmptyString |};
     directorSearchTerm := EmptyString; sortBy := rating_desc |}.

(** [availableColumns.includes(col)] *)
Definition hasColumn (props : MovieListProps) (col : string) : bool :=
  bool_decide (col ∈ columns props).

(** The genres of a row as the list filter reads them:
    [movie.Genres?.split(', ').map(g => g.trim()).map(translate) || []]. *)
Definition genresOf (movie : IMDbEntry) : list string :=
  match movie !! "Genres" with
  | Some g => map translate (map trim (splitCommaSpace g))
  | None => []
  end.

(** One step of the loop that finds [minYear] and [maxYear]. *)
Definition widen (bounds : number * number) (movie : IMDbEntry) : number * number :=
  let year := parseInt (movie !! "Year") in
  if isNaN year then bounds
  else
    let lo := if lt year bounds.1 then year else bounds.1 in
    let hi := if gt year bounds.2 then year else bounds.2 in
    (lo, hi).

(** [minYear] and [maxYear] of the first memo. *)
Definition yearBounds (props : MovieListProps) : number * number :=
  if negb (hasColumn props "Genres") then (PosInf, NegInf)
  else fold_left widen (movies props) (PosInf, NegInf).

(** The genres a row adds to [genreSet] in the first memo; empty entries
    are dropped before the translation. *)
Definition listedGenres (movie : IMDbEntry) : list string :=
  match movie !! "Genres" with
  | Some g =>
      map translate
        (List.filter (fun g => negb (isEmpty g)) (map trim (splitCommaSpace g)))
  | None => []
  end.

(** [allGenres] of the first memo, as the set it is collected in (the
    checkboxes of the genre filter are drawn from it). *)
Definition allGenres (props : MovieListProps) : gset string :=
  if negb (hasColumn props "Genres") then ∅
  else list_to_set (flat_map listedGenres (movies props)).

(** The effect that copies finite year bounds into the year range. *)
Definition syncYearRange (props : MovieListProps) (st : MovieListState) : MovieListState :=
  let bounds := yearBounds props in
  if negb (number_eqb bounds.1 PosInf) && negb (number_eqb bounds.2 NegInf)
  then
    {| selectedGenres := selectedGenres st; selectedRatings := selectedRatings st;
       yearRange := {| min := numberToString bounds.1; max := numberToString bounds.2 |};
       directorSearchTerm := directorSearchTerm st; sortBy := sortBy st |}
  else st.

(** The callback of [movies.filter] in the filteredMovies memo. *)
Definition keeps (props : MovieListProps) (st : MovieListState) (movie : IMDbEntry) : bool :=
  let bounds := yearBounds props in
  let min := orElse (parseIntStr (min (yearRange st))) bounds.1 in
  let max := orElse (parseIntStr (max (yearRange st))) bounds.2 in
  let directorSearch := toLowerCase (trim (directorSearchTerm st)) in
  let movieYear := parseInt (movie !! "Year") in
  if isNaN movieYear || lt movieYear min || gt movieYear max then false
  else if hasColumn props "Genres" && negb (size (selectedGenres st) =? 0)%nat
          && negb (forallb
                     (fun selectedGenre =>
                        bool_decide (selectedGenre ∈ (list_to_set (genresOf movie) : gset string)))
                     (elements (selectedGenres st)))
  then false
  else if negb (size (selectedRatings st) =? 0)%nat
          && negb match movie !! "Your Rating" with
                  | Some r => bool_decide (r ∈ selectedRatings st)
                  | None => false
                  end
  then false
  else if hasColumn props "Directors" && negb (isEmpty directorSearch)
          && negb (includes
                     (match movie !! "Directors" with
                      | Some ds => toLowerCase ds
                      | None => EmptyString
                      end)
                     directorSearch)
  then false
  else true.

(** [a.localeCompare(b)] on values that may be [undefined]: a missing
    receiver throws, a missing argument is read as the string of that name. *)
Definition localeCompareOpt `{Host} (a b : option string) : option number :=
  match a with
  | None => None
  | Some sa => Some (localeCompare sa (default "undefined" b))
  end.

(** [a['Original Title'] || a.Title] *)
Definition originalTitleOf (a : IMDbEntry) : option string :=
  if truthy (a !! "Original Title") then a !! "Original Title" else a !! "Title".

Definition dateRated `{Host} (a : IMDbEntry) : number :=
  match a !! "Date Rated" with
  | Some s => getTime s
  | None => NaN
  end.

(** The comparator of [filtered.sort]. *)
Definition comparator `{Host} (props : MovieListProps) (st : MovieListState)
    (a b : IMDbEntry) : option number :=
  match sortBy st with
  | rating_asc => Some (sub (ratingOf a) (ratingOf b))
  | title_asc => localeCompareOpt (a !! "Title") (b !! "Title")
  | title_desc => localeCompareOpt (b !! "Title") (a !! "Title")
  | original_title_asc =>
      if negb (hasColumn props "Original Title") then Some (Fin 0)
      else localeCompareOpt (originalTitleOf a) (originalTitleOf b)
  | original_title_desc =>
      if negb (hasColumn props "Original Title") then Some (Fin 0)
      else localeCompareOpt (originalTitleOf b) (originalTitleOf a)
  | year_desc => Some (sub (parseInt (b !! "Year")) (parseInt (a !! "Year")))
  | year_asc => Some (sub (parseInt (a !! "Year")) (parseInt (b !! "Year")))
  | rated_date_desc =>
      if negb (hasColumn props "Date Rated") then Some (Fin 0)
      else Some (sub (dateRated b) (dateRated a))
  | rated_date_asc =>
      if negb (hasColumn props "Date Rated") then Some (Fin 0)
      else Some (sub (dateRated a) (dateRated b))
  | rating_desc => Some (sub (ratingOf b) (ratingOf a))
  end.

(** The filteredMovies memo: the rows the list shows, [None] when the
    comparator throws. *)
Definition filteredMovies `{Host} (props : MovieListProps) (st : MovieListState)
    : option (list IMDbEntry) :=
  sortM (comparator props st) (List.filter (keeps props st) (movies props)).

End MovieList.

(** ** The vocabulary of the specification *)
Module Spec.
Import JS App MovieList.

(** A string between double quotes. *)
Definition quoted (s : string) : string :=
  String dquote (s ++ String dquote EmptyString).

(** A line feed between two lines of an input text. *)
Definition nl : string := String LF EmptyString.

(** The separator of [join] for a delimiter. *)
Definition sepOf (d : ascii) : string := String d EmptyString.

(** The number of double quotes of a string. *)
Fixpoint quoteCount (s : string) : nat :=
  match s with
  | EmptyString => 0
  | String c rest => (if Ascii.eqb c dquote then 1 else 0) + quoteCount rest
  end.

(** The number of occurrences of a code unit. *)
Fixpoint occurrences (d : ascii) (s : string) : nat :=
  match s with
  | EmptyString => 0
  | String c rest => (if Ascii.eqb c d then 1 else 0) + occurrences d rest
  end.

(** The occurrences of a code unit at top level, that is outside the
    double-quoted spans; [inQuotes] tells whether a span is open. *)
Fixpoint topLevelOccurrences (inQuotes : bool) (d : ascii) (s : string) : nat :=
  match s with
  | EmptyString => 0
  | String c rest =>
      if Ascii.eqb c dquote then topLevelOccurrences (negb inQuotes) d rest
      else (if Ascii.eqb c d && negb inQuotes then 1 else 0)
           + topLevelOccurrences inQuotes d rest
  end.

(** The strings the lookahead of the field separator matches, by the shape
    of the expression: pairs of groups, each some code units that are no
    quote and then a quote, and a tail without quotes up to the end. *)
Inductive quoteFree : string -> Prop :=
  | quoteFree_nil : quoteFree EmptyString
  | quoteFree_cons c s : c <> dquote -> quoteFree s -> quoteFree (String c s).

Inductive LookaheadMatch : string -> Prop :=
  | LookaheadMatch_tail s : quoteFree s -> LookaheadMatch s
  | LookaheadMatch_pair a b rest :
      quoteFree a -> quoteFree b -> LookaheadMatch rest ->
      LookaheadMatch (a ++ String dquote (b ++ String dquote rest)).

(** Removing one double quote at the front, and one at the back. *)
Definition dropLeadingQuote (s : string) : string :=
  match s with
  | String c rest => if Ascii.eqb c dquote then rest else s
  | EmptyString => s
  end.

Fixpoint dropTrailingQuote (s : string) : string :=
  match s with
  | EmptyString => EmptyString
  | String c rest =>
      if Ascii.eqb c dquote && isEmpty rest then EmptyString
      else String c (dropTrailingQuote rest)
  end.

(** The value parseCSV stores for column [j] of a split line. *)
Definition cellValue (currentline : list string) (j : nat) : string :=
  match currentline !! j with
  | Some cell => if isEmpty cell then EmptyString else clean cell
  | None => EmptyString
  end.

(** The header fields that become keys of a Record: all but the name
    __proto__. *)
Definition ownKeys (header : list string) : list string :=
  List.filter (fun key => negb (String.eqb key "__proto__")) header.

(** The Record of a data line. *)
Definition entryOf (d : ascii) (header : list string) (line : string) : IMDbEntry :=
  fillEntry header 0 (splitRegex d line) ∅.

(** A data line has as many fields as the header. *)
Definition wellFormed (d : ascii) (header : list string) (line : string) : bool :=
  (length header =? length (splitRegex d line))%nat.

(** [kept] is what remains of a list when exactly the elements with the
    property [P] are kept, in their order. *)
Inductive Kept {A : Type} (P : A -> Prop) : list A -> list A -> Prop :=
  | Kept_nil : Kept P [] []
  | Kept_keep x l kept : P x -> Kept P l kept -> Kept P (x :: l) (x :: kept)
  | Kept_drop x l kept : ~ P x -> Kept P l kept -> Kept P (x :: l) kept.

(** The title-type field: the column Title Type or, when that has no
    value, the column TitleType. *)
Definition titleTypeField (entry : IMDbEntry) : option string :=
  match entry !! "Title Type" with
  | Some t => if isEmpty t then entry !! "TitleType" else Some t
  | None => entry !! "TitleType"
  end.

Definition equalsIgnoringCase (a b : string) : Prop :=
  toLowerCase a = toLowerCase b.

(** A qualifying movie. *)
Definition qualifies (entry : IMDbEntry) : Prop :=
  (exists t, titleTypeField entry = Some t /\ equalsIgnoringCase t "movie")
  /\ (exists y, entry !! "Year" = Some y /\ y <> EmptyString).

(** [needle] occurs in [s]. *)
Definition substring (needle s : string) : Prop :=
  exists pre post, s = pre ++ needle ++ post.

(** The Title of a row contains the query, letter case apart. *)
Definition titleContains (query : string) (movie : IMDbEntry) : Prop :=
  exists title, movie !! "Title" = Some title
    /\ substring (toLowerCase query) (toLowerCase title).

(** The test of the search filter on a row that has a Title. *)
Definition titleIncludes (value : string) (movie : IMDbEntry) : bool :=
  match movie !! "Title" with
  | Some title => includes (toLowerCase title) (toLowerCase value)
  | None => false
  end.

(** The state the App starts in, and a state with rows loaded. *)
Definition loadedState (movies : list IMDbEntry) : AppState :=
  {| allMovies := movies; chartData := createChartData movies;
     fileName := None; error := None; isLoading := false;
     searchTerm := EmptyString; searchResults := []; availableColumns := [] |}.

Definition initialAppState : AppState := loadedState [].

(** A year the chart counts. *)
Definition chartable (y : Z) : bool := ((1800 <? y) && (y <? 2100))%Z.

(** The Year of a row parses as the integer [y]. *)
Definition hasYear (y : Z) (movie : IMDbEntry) : bool :=
  match parseInt (movie !! "Year") with
  | Fin z => (z =? y)%Z
  | _ => false
  end.

Definition moviesOfYear (y : Z) (movies : list IMDbEntry) : nat :=
  length (List.filter (hasYear y) movies).

(** The Chart Point of an integer year and a count. *)
Definition pointOf (p : Z * nat) : ChartDataPoint :=
  {| year := toString p.1; count := p.2 |}.

(** [yearCounts] after the loop of createChartData. *)
Definition yearCountsOf (movies : list IMDbEntry) : gmap Z nat :=
  fold_left countYear movies ∅.

(** Ascending by numeric year, no year twice. *)
Definition yearBefore (p q : ChartDataPoint) : Prop :=
  exists a b, parseInt (Some (year p)) = Fin a
    /\ parseInt (Some (year q)) = Fin b /\ (a < b)%Z.

(** Descending by numeric rating. *)
Definition ratingNotBelow (a b : IMDbEntry) : Prop :=
  exists x y, ratingOf a = Fin x /\ ratingOf b = Fin y /\ (y <= x)%Z.

(** The required columns a first row lacks, the two spellings of the
    title type counted as the one column Title Type. *)
Definition missingColumns (firstRow : IMDbEntry) : list string :=
  (List.filter (fun col => bool_decide (firstRow !! col = None)) REQUIRED_COLUMNS
   ++ (if bool_decide (firstRow !! "Title Type" = None /\ firstRow !! "TitleType" = None)
       then ["Title Type"] else []))%list.

(** A file the upload handler reads: a CSV file with the given text. *)
Definition csvFile (text : string) : File :=
  {| type := "text/csv"; name := "ratings.csv"; content := Some text |}.

(** A row with a title type, a year and a comma-separated genre list. *)
Definition movieRow (const yr genres : string) : IMDbEntry :=
  <["Const" := const]> (<["Title" := const]> (<["Title Type" := "movie"]>
    (<["Year" := yr]> (<["Your Rating" := "7"]> (<["Genres" := genres]> ∅))))).

(** The three rows of the genre example, as the list component gets them. *)
Definition genreProps : MovieListProps :=
  {| movies := [ movieRow "tt1" "2000" "Drama";
                 movieRow "tt2" "2000" "Drama, War";
                 movieRow "tt3" "2000" "War, Comedy" ];
     columns := ["Const"; "Title"; "Title Type"; "Year"; "Your Rating"; "Genres"] |}.

(** The starting state of the list with some genres selected. *)
Definition selecting (genres : list string) : MovieListState :=
  {| selectedGenres := list_to_set genres; selectedRatings := ∅;
     yearRange := {| min := EmptyString; max := EmptyString |};
     directorSearchTerm := EmptyString; sortBy := rating_desc |}.

(** A platform whose collation and dates carry no information. *)
Definition plainHost : Host :=
  {| localeCompare := fun _ _ => Fin 0; getTime := fun _ => NaN |}.

End Spec.

(** ** The year detail: the bar click of the App and MovieDetailsModal *)
Module Modal.
Import JS App.

(** The part of the App state the modal lives on. *)
Record ModalState : Type := { selectedYear : option string; isModalOpen : bool }.

(** The state the App starts in. *)
Definition closed : ModalState := {| selectedYear := None; isModalOpen := false |}.

(** handleBarClick; the payload of the chart may be missing. *)
Definition handleBarClick (data : option ChartDataPoint) (st : ModalState) : ModalState :=
  match data with
  | Some point =>
      if negb (isEmpty (year point))
      then {| selectedYear := Some (year point); isModalOpen := true |}
      else st
  | None => st
  end.

Definition handleCloseModal (st : ModalState) : ModalState :=
  {| selectedYear := None; isModalOpen := false |}.

(** [isModalOpen && selectedYear]: the year the modal is rendered with, if
    it is rendered. *)
Definition renderedYear (st : ModalState) : option string :=
  if isModalOpen st && truthy (selectedYear st) then selectedYear st else None.

(** handleKeyDown of the modal, which listens while it is rendered open. *)
Definition handleKeyDown (key : string) (st : ModalState) : ModalState :=
  match renderedYear st with
  | Some _ => if String.eqb key "Escape" then handleCloseModal st else st
  | None => st
  end.

(** [movie.Year === year] *)
Definition yearIs (year : string) (movie : IMDbEntry) : bool :=
  match movie !! "Year" with
  | Some y => String.eqb y year
  | None => false
  end.

(** The sortedMovies memo of the modal, [None] when the title filter
    throws on a row without Title. *)
Definition sortedMovies (movies : list IMDbEntry) (year searchTerm : string)
    : option (list IMDbEntry) :=
  match filterByTitle searchTerm (List.filter (yearIs year) movies) with
  | Some kept => Some (sort byRatingDesc kept)
  | None => None
  end.

End Modal.

(** ** The remaining handlers of the MovieList component *)
Module ListControls.
Import JS App MovieList.

(** [newSet.has(x) ? newSet.delete(x) : newSet.add(x)] on a copy of the set. *)
Definition toggle (x : string) (s : gset string) : gset string :=
  if bool_decide (x ∈ s) then s ∖ {[x]} else s ∪ {[x]}.

Definition handleGenreChange (genre : string) (st : MovieListState) : MovieListState :=
  {| selectedGenres := toggle genre (selectedGenres st);
     selectedRatings := selectedRatings st; yearRange := yearRange st;
     directorSearchTerm := directorSearchTerm st; sortBy := sortBy st |}.

Definition handleRatingChange (rating : string) (st : MovieListState) : MovieListState :=
  {| selectedGenres := selectedGenres st;
     selectedRatings := toggle rating (selectedRatings st);
     yearRange := yearRange st;
     directorSearchTerm := directorSearchTerm st; sortBy := sortBy st |}.

(** handleYearChange for the two inputs, named min and max; any other name
    would add a property that nothing reads. *)
Definition handleYearChange (name value : string) (st : MovieListState) : MovieListState :=
  let range :=
    if String.eqb name "min" then {| min := value; max := max (yearRange st) |}
    else if String.eqb name "max" then {| min := min (yearRange st); max := value |}
    else yearRange st in
  {| selectedGenres := selectedGenres st; selectedRatings := selectedRatings st;
     yearRange := range;
     directorSearchTerm := directorSearchTerm st; sortBy := sortBy st |}.

(** The state with the year range cleared. *)
Definition withoutYearRange (st : MovieListState) : MovieListState :=
  {| selectedGenres := selectedGenres st; selectedRatings := selectedRatings st;
     yearRange := {| min := EmptyString; max := EmptyString |};
     directorSearchTerm := directorSearchTerm st; sortBy := sortBy st |}.

(** The state with another genre selection. *)
Definition withGenres (genres : gset string) (st : MovieListState) : MovieListState :=
  {| selectedGenres := genres; selectedRatings := selectedRatings st;
     yearRange := yearRange st;
     directorSearchTerm := directorSearchTerm st; sortBy := sortBy st |}.

End ListControls.

(** ** The App as a machine driven by uploads and searches *)
Module Workflow.
Import JS App Spec.

Inductive Event : Type :=
  | Upload (file : File)
  | Search (value : string).

(** One event.  An upload is the selection of a file together with the
    callback of its reader, run to its end before the next event: while the
    reader works, [isLoading] disables the search field and the file input.
    A file dropped meanwhile, which the drop handler does not refuse, is
    outside these runs. *)
Definition step (st : AppState) (e : Event) : AppState :=
  match e with
  | Upload file => handleFileSelect file st
  | Search value => handleSearchChange value st
  end.

(** The state after a sequence of events from the initial state. *)
Definition run (events : list Event) : AppState :=
  fold_left step events initialAppState.

(** A row of an accepted upload: a qualifying movie with every required
    column. *)
Definition validRow (movie : IMDbEntry) : Prop :=
  isMovie movie = true
  /\ Forall (fun col => is_Some (movie !! col)) REQUIRED_COLUMNS.

End Workflow.

(** ** Further notions the properties are stated with *)
Module Notions.
Import JS App MovieList Spec Workflow.

(** The value of a run of decimal digits read after the value [a]. *)
Fixpoint uintValue (d : Decimal.uint) (a : Z) : Z :=
  match d with
  | Decimal.Nil => a
  | Decimal.D0 l => uintValue l (10 * a + 0)
  | Decimal.D1 l => uintValue l (10 * a + 1)
  | Decimal.D2 l => uintValue l (10 * a + 2)
  | Decimal.D3 l => uintValue l (10 * a + 3)
  | Decimal.D4 l => uintValue l (10 * a + 4)
  | Decimal.D5 l => uintValue l (10 * a + 5)
  | Decimal.D6 l => uintValue l (10 * a + 6)
  | Decimal.D7 l => uintValue l (10 * a + 7)
  | Decimal.D8 l => uintValue l (10 * a + 8)
  | Decimal.D9 l => uintValue l (10 * a + 9)
  end.

(** [x <= y] on numbers, neither of them NaN. *)
Definition notAbove (x y : number) : Prop :=
  isNaN x = false ∧ isNaN y = false ∧ lt y x = false.

(** The bounds are the initial ones, when no Year parses as a number, or
    the parsed Years of two rows. *)
Definition boundsOf (movies : list IMDbEntry) (b : number * number) : Prop :=
  (b = (PosInf, NegInf)
   ∧ Forall (fun m : IMDbEntry => parseInt (m !! "Year") = NaN) movies)
  ∨ (∃ mlo mhi,
        mlo ∈ movies ∧ mhi ∈ movies
        ∧ isNaN (parseInt (mlo !! "Year")) = false
        ∧ isNaN (parseInt (mhi !! "Year")) = false
        ∧ b = (parseInt (mlo !! "Year"), parseInt (mhi !! "Year"))).

(** A Year that parses as an integer is below 2^53 in magnitude, where
    every integer is a double and is written in plain digits. *)
Definition safeYear (movie : IMDbEntry) : Prop :=
  ∀ y, parseInt (movie !! "Year") = Fin y → (Z.abs y < 2 ^ 53)%Z.

(** The Year of a row does not parse as an infinity (it has no more than
    308 digits). *)
Definition finiteYear (movie : IMDbEntry) : Prop :=
  parseInt (movie !! "Year") ≠ PosInf ∧ parseInt (movie !! "Year") ≠ NegInf.

(** The bounds the filter compares a year with. *)
Definition lowerBound (props : MovieListProps) (st : MovieListState) : number :=
  orElse (parseIntStr (min (yearRange st))) (yearBounds props).1.

(** The same for the upper end of the range. *)
Definition upperBound (props : MovieListProps) (st : MovieListState) : number :=
  orElse (parseIntStr (max (yearRange st))) (yearBounds props).2.

(** The director search as the filter compares it. *)
Definition directorQuery (st : MovieListState) : string :=
  toLowerCase (trim (directorSearchTerm st)).

(** [movie['Directors']?.toLowerCase() || ''] *)
Definition directorsOf (movie : IMDbEntry) : string :=
  match movie !! "Directors" with
  | Some ds => toLowerCase ds
  | None => EmptyString
  end.

(** The Year of a row parses as a number. *)
Definition numericYear (movie : IMDbEntry) : bool :=
  negb (isNaN (parseInt (movie !! "Year"))).

(** Ascending and descending by the numeric Year, by the numeric rating. *)
Definition yearNotAbove (a b : IMDbEntry) : Prop :=
  notAbove (parseInt (a !! "Year")) (parseInt (b !! "Year")).

Definition yearNotBelow (a b : IMDbEntry) : Prop := yearNotAbove b a.

Definition ratingNotAbove (a b : IMDbEntry) : Prop := ratingNotBelow b a.

(** The key the lists sorted by rating are ordered by. *)
Definition ratingValue (movie : IMDbEntry) : Z :=
  match ratingOf movie with Fin z => z | _ => 0%Z end.

(** The Year of a row is one the chart counts. *)
Definition chartableYear (movie : IMDbEntry) : bool :=
  match parseInt (movie !! "Year") with
  | Fin y => chartable y
  | _ => false
  end.

(** The number of rows behind the bars of a chart. *)
Definition totalCount (points : list ChartDataPoint) : nat :=
  list_sum (map count points).

(** The sum of the counts of [yearCounts]. *)
Definition totalOf (yearCounts : gmap Z nat) : nat :=
  list_sum (map snd (map_to_list yearCounts)).

(** A row writes its Year as the plain decimal numeral of the integer. *)
Definition plainYear (movie : IMDbEntry) : Prop :=
  ∀ y, parseInt (movie !! "Year") = Fin y → movie !! "Year" = Some (toString y).

(** The invariant of the reachable states. *)
Definition consistent (st : AppState) : Prop :=
  isLoading st = false
  ∧ Forall validRow (allMovies st)
  ∧ chartData st = createChartData (allMovies st)
  ∧ searchResults st ⊆ allMovies st.

(** A line holds no line feed and no carriage return. *)
Inductive oneLine : string → Prop :=
  | oneLine_nil : oneLine EmptyString
  | oneLine_cons c s : c ≠ LF → c ≠ CR → oneLine s → oneLine (String c s).

(** A row with a rating, genres and directors, and three such rows as the
    list component gets them. *)
Definition ratedRow (const yr rating genres directors : string) : IMDbEntry :=
  <["Const" := const]> (<["Title" := const]> (<["Title Type" := "movie"]>
    (<["Year" := yr]> (<["Your Rating" := rating]> (<["Genres" := genres]>
       (<["Directors" := directors]> ∅)))))).

Definition ratedProps : MovieListProps :=
  {| movies := [ ratedRow "tt1" "1999" "8" "Action, Sci-Fi"
                   "Lana Wachowski, Lilly Wachowski";
                 ratedRow "tt2" "2001" "9" "Adventure, Fantasy" "Peter Jackson";
                 ratedRow "tt3" "1999" "9" "Drama" "Sam Mendes" ];
     columns := ["Const"; "Title"; "Title Type"; "Year"; "Your Rating"; "Genres";
                 "Directors"] |}.

(** The list with the rating 8 ticked and a director typed in. *)
Definition ratedState : MovieListState :=
  {| selectedGenres := ∅; selectedRatings := {["8"]};
     yearRange := {| min := EmptyString; max := EmptyString |};
     directorSearchTerm := " wachowski "; sortBy := rating_desc |}.

End Notions.

(** * Properties *)

Import JS App MovieList Spec.

(** ** The primitives on small inputs *)

Example trim_example :
  trim (String LF " ab c " ++ String CR EmptyString) = "ab c".
Proof. reflexivity. Qed.

Example toLowerCase_example : toLowerCase "MoViE" = "movie".
Proof. reflexivity. Qed.

Example parseInt_examples :
  parseIntStr " 1999abc" = Fin 1999 ∧ parseIntStr "-12" = Fin (-12)
  ∧ parseIntStr "+7.5" = Fin 7 ∧ parseIntStr "abc" = NaN
  ∧ parseIntStr EmptyString = NaN ∧ parseInt None = NaN.
Proof. repeat split; reflexivity. Qed.

Example toString_examples :
  toString 1999 = "1999" ∧ toString 0 = "0" ∧ toString (-5) = "-5".
Proof. repeat split; reflexivity. Qed.

Example roundDouble_examples :
  parseIntStr "9007199254740993" = Fin 9007199254740992
  ∧ parseIntStr "9007199254740995" = Fin 9007199254740996
  ∧ parseIntStr "1e+21" = Fin 1
  ∧ parseIntStr (String.concat EmptyString (repeat "9" 400)) = PosInf
  ∧ parseIntStr "-Infinity" = NaN
  ∧ sub (Fin (2 ^ 53)) (Fin (-1)) = Fin (2 ^ 53).
Proof. repeat split; vm_compute; reflexivity. Qed.

Example numberToString_examples :
  numberToString (Fin 2000) = "2000"
  ∧ numberToString (Fin (-5)) = "-5"
  ∧ numberToString (Fin (2 ^ 60)) = "1152921504606847000"
  ∧ numberToString (Fin (10 ^ 21)) = "1e+21"
  ∧ numberToString (Fin (2 ^ 70)) = "1.1805916207174113e+21"
  ∧ numberToString PosInf = "Infinity".
Proof. repeat split; vm_compute; reflexivity. Qed.

Example split_example :
  split ","%char "a,,b" = ["a"; EmptyString; "b"]
  ∧ split ","%char EmptyString = [EmptyString].
Proof. split; reflexivity. Qed.

Example splitCommaSpace_example :
  splitCommaSpace "Drama, War,x, " = ["Drama"; "War,x"; EmptyString].
Proof. reflexivity. Qed.

Example splitLines_example :
  splitLines ("a" ++ String CR nl ++ "b" ++ nl ++ nl ++ "c" ++ String CR "d")
  = ["a"; "b"; EmptyString; "c" ++ String CR "d"].
Proof. reflexivity. Qed.

Example includes_example :
  includes "hello" "ell" = true ∧ includes "hello" EmptyString = true
  ∧ includes "hello" "lo!" = false.
Proof. repeat split; reflexivity. Qed.

(** The sort is stable: rows of equal key keep their order. *)
Example sort_example :
  sort (fun a b : Z * string => Fin (a.1 - b.1))
    [(3, "a"); (1, "b"); (2, "c"); (1, "d")]%Z
  = [(1, "b"); (1, "d"); (2, "c"); (3, "a")]%Z.
Proof. reflexivity. Qed.

Example isMovie_examples :
  isMovie (<["Title Type" := "Movie"]> (<["Year" := "1999"]> ∅)) = true
  ∧ isMovie (<["TitleType" := "MOVIE"]> (<["Year" := "soon"]> ∅)) = true
  ∧ isMovie (<["Title Type" := EmptyString]> (<["TitleType" := "movie"]>
               (<["Year" := "1999"]> ∅))) = true
  ∧ isMovie (<["Title Type" := "tvSeries"]> (<["Year" := "1999"]> ∅)) = false
  ∧ isMovie (<["Title Type" := "movie"]> (<["Year" := EmptyString]> ∅)) = false
  ∧ isMovie (<["Title Type" := "movie"]> ∅) = false.
Proof. repeat split; vm_compute; reflexivity. Qed.

(** ** Appending, joining and searching strings *)

Lemma append_nil_l (b : string) : EmptyString ++ b = b.
Proof. reflexivity. Qed.

Lemma append_cons c (a b : string) : String c a ++ b = String c (a ++ b).
Proof. reflexivity. Qed.

Lemma append_nil_r (s : string) : s ++ EmptyString = s.
Proof. induction s as [|c s IH]; [done|]. rewrite append_cons. by rewrite IH. Qed.

Lemma append_assoc (a b c : string) : (a ++ b) ++ c = a ++ (b ++ c).
Proof.
  induction a as [|x a IH]; [done|]. rewrite !append_cons. by rewrite IH.
Qed.

Lemma length_append (a b : string) :
  String.length (a ++ b) = (String.length a + String.length b)%nat.
Proof.
  induction a as [|c a IH]; [done|].
  rewrite append_cons. simpl. by rewrite IH.
Qed.

Lemma append_eq_cons (a : string) d b c p :
  a ++ String d b = String c p →
  (a = EmptyString ∧ c = d ∧ p = b) ∨ (∃ a', a = String c a' ∧ p = a' ++ String d b).
Proof.
  destruct a as [|x a']; [rewrite append_nil_l | rewrite append_cons];
    intros E; injection E as E1 E2; subst; eauto.
Qed.

Lemma startsWith_spec p s : startsWith p s = true ↔ ∃ post, s = p ++ post.
Proof.
  revert s. induction p as [|a p IH]; intros s; simpl.
  - split; [eauto|done].
  - destruct s as [|b s].
    + split; [done|]. intros (post & E). discriminate.
    + rewrite andb_true_iff, Ascii.eqb_eq, IH. split.
      * intros (-> & post & ->). eauto.
      * intros (post & E). injection E as -> ->. eauto.
Qed.

Lemma includes_spec s needle :
  includes s needle = true ↔ ∃ pre post, s = pre ++ needle ++ post.
Proof.
  induction s as [|c s IH]; simpl.
  - rewrite orb_false_r, startsWith_spec. split.
    + intros (post & E). by exists EmptyString, post.
    + intros (pre & post & E). destruct pre; [eauto|discriminate].
  - rewrite orb_true_iff, startsWith_spec, IH. split.
    + intros [(post & E)|(pre & post & ->)].
      * by exists EmptyString, post.
      * by exists (String c pre), post.
    + intros (pre & post & E). destruct pre as [|c' pre].
      * left. eauto.
      * right. injection E as -> ->. eauto.
Qed.

Lemma substring_refl s : substring s s.
Proof. exists EmptyString, EmptyString. by rewrite append_nil_l, append_nil_r. Qed.

Lemma substring_app_l needle a b : substring needle a → substring needle (a ++ b).
Proof.
  intros (pre & post & ->). exists pre, (post ++ b).
  by rewrite !append_assoc.
Qed.

Lemma substring_app_r needle a b : substring needle b → substring needle (a ++ b).
Proof.
  intros (pre & post & ->). exists (a ++ pre), post.
  by rewrite !append_assoc.
Qed.

Lemma join_cons sep f g fs :
  join sep (f :: g :: fs) = f ++ sep ++ join sep (g :: fs).
Proof. reflexivity. Qed.

Lemma join_pushFront sep c fs :
  fs ≠ [] → join sep (pushFront c fs) = String c (join sep fs).
Proof.
  destruct fs as [|f [|g fs]]; [done| |]; intros _; reflexivity.
Qed.

Lemma substring_join sep l col : col ∈ l → substring col (join sep l).
Proof.
  induction l as [|x l IH]; [by intros ?%elem_of_nil|].
  intros Hc. destruct l as [|y l].
  - apply list_elem_of_singleton in Hc as ->. apply substring_refl.
  - rewrite join_cons. apply elem_of_cons in Hc as [->|Hc].
    + apply substring_app_l, substring_refl.
    + by apply substring_app_r, substring_app_r, IH.
Qed.

(** ** Cleaning a field *)

Lemma replaceEdgeQuotes_false s :
  replaceEdgeQuotes false s = dropTrailingQuote s.
Proof.
  induction s as [|c rest IH]; simpl; [done|].
  rewrite IH. destruct (Ascii.eqb c dquote), rest; done.
Qed.

Lemma replaceEdgeQuotes_true s :
  replaceEdgeQuotes true s = dropTrailingQuote (dropLeadingQuote s).
Proof.
  destruct s as [|c rest]; simpl; [done|].
  rewrite replaceEdgeQuotes_false.
  destruct (Ascii.eqb c dquote) eqn:E; simpl; [done|].
  rewrite E. simpl. done.
Qed.

Lemma clean_eq field :
  clean field = dropTrailingQuote (dropLeadingQuote (trim field)).
Proof. apply replaceEdgeQuotes_true. Qed.

Lemma dropTrailingQuote_snoc s :
  dropTrailingQuote (s ++ String dquote EmptyString) = s.
Proof.
  induction s as [|c s IH]; [done|].
  rewrite append_cons. simpl. rewrite IH.
  destruct s; simpl; by rewrite andb_false_r.
Qed.

(** What is removed is a quote at either end, and nothing in between. *)
Lemma dropTrailingQuote_inv s :
  s = dropTrailingQuote s
  ∨ s = dropTrailingQuote s ++ String dquote EmptyString.
Proof.
  induction s as [|c s IH]; [by left|].
  change (dropTrailingQuote (String c s)) with
    (if Ascii.eqb c dquote && isEmpty s then EmptyString
     else String c (dropTrailingQuote s)).
  destruct (Ascii.eqb c dquote && isEmpty s) eqn:E.
  - apply andb_true_iff in E as [Hc Hs]. apply Ascii.eqb_eq in Hc.
    destruct s; [|done]. subst. by right.
  - rewrite append_cons. destruct IH as [IH|IH]; [left|right]; congruence.
Qed.

Lemma dropLeadingQuote_inv s :
  s = dropLeadingQuote s ∨ s = String dquote (dropLeadingQuote s).
Proof.
  destruct s as [|c s]; [by left|]. simpl.
  destruct (Ascii.eqb_spec c dquote) as [->|Hc]; [by right|by left].
Qed.

(** C4, as the specification states it, fails: a field with a double quote
    at its front only is not left as trimming leaves it, the quote is
    removed. *)
Lemma clean_one_sided_quote_counterexample :
  trim (String dquote "abc") = String dquote "abc"
  ∧ clean (String dquote "abc") = "abc"
  ∧ clean (String dquote "abc") ≠ trim (String dquote "abc").
Proof. vm_compute. repeat split; discriminate. Qed.

(** C4, amended: a field value is the trimmed field without a double quote
    at its front, if it has one there, and without a double quote at its
    back, if what remains has one there, each end on its own; nothing
    between the two ends changes, so doubled quotes stay as they are.  The
    header fields and the cells of parseCSV are cleaned this way. *)
Theorem clean_removes_each_edge_quote :
  (∀ field, clean field = dropTrailingQuote (dropLeadingQuote (trim field)))
  ∧ (∀ field, ∃ pre post,
        trim field = pre ++ clean field ++ post
        ∧ (pre = EmptyString ∨ pre = String dquote EmptyString)
        ∧ (post = EmptyString ∨ post = String dquote EmptyString))
  ∧ clean (" " ++ quoted "abc" ++ " ") = "abc"
  ∧ clean (String dquote "abc") = "abc"
  ∧ clean ("abc" ++ String dquote EmptyString) = "abc"
  ∧ clean (quoted ("a" ++ String dquote (String dquote "b")))
    = "a" ++ String dquote (String dquote "b")
  ∧ parseCSV (String dquote "Const,Title" ++ nl ++ String dquote "tt1, abc ")
    = [ <["Title" := "abc"]> (<["Const" := "tt1"]> ∅) ].
Proof.
  split; [exact clean_eq|].
  split.
  { intros field. rewrite clean_eq.
    set (t := trim field). set (u := dropLeadingQuote t).
    destruct (dropLeadingQuote_inv t) as [E1|E1];
      destruct (dropTrailingQuote_inv u) as [E2|E2]; fold u in E1.
    - exists EmptyString, EmptyString.
      split; [|by auto]. rewrite append_nil_l, append_nil_r. congruence.
    - exists EmptyString, (String dquote EmptyString).
      split; [|by auto]. rewrite append_nil_l. congruence.
    - exists (String dquote EmptyString), EmptyString.
      split; [|by auto]. rewrite append_nil_r.
      change (String dquote EmptyString ++ ?x) with (String dquote x). congruence.
    - exists (String dquote EmptyString), (String dquote EmptyString).
      split; [|by auto].
      change (String dquote EmptyString ++ ?x) with (String dquote x). congruence. }
  repeat split; vm_compute; reflexivity.
Qed.

(** ** The choice of the delimiter *)

Lemma split_cons d s : ∃ f fs, split d s = f :: fs.
Proof.
  destruct s as [|c rest]; simpl; [eauto|].
  destruct (Ascii.eqb c d); [eauto|].
  destruct (split d rest); simpl; eauto.
Qed.

Lemma length_split d s : length (split d s) = S (occurrences d s).
Proof.
  induction s as [|c rest IH]; simpl; [done|].
  destruct (Ascii.eqb c d); simpl; [by rewrite IH|].
  destruct (split_cons d rest) as (f & fs & E). rewrite E in IH |- *. simpl in *. done.
Qed.

Lemma detectDelimiter_spec h :
  detectDelimiter h =
    if (occurrences ";" h <=? occurrences "," h)%nat then ","%char else ";"%char.
Proof.
  unfold detectDelimiter. rewrite !length_split. done.
Qed.

Lemma detectDelimiter_not_quote h : detectDelimiter h ≠ dquote.
Proof. unfold detectDelimiter. by case_match. Qed.

(** C5, as the specification states it, fails: with the commas and the
    semicolons counted at top level, a header whose only comma stands in a
    quoted field has fewer commas (none) than semicolons (one), and the
    comma is chosen all the same. *)
Lemma detectDelimiter_quoted_comma_counterexample :
  topLevelOccurrences false ","%char (quoted "a,b" ++ ";c") = 0
  ∧ topLevelOccurrences false ";"%char (quoted "a,b" ++ ";c") = 1
  ∧ detectDelimiter (quoted "a,b" ++ ";c") = ","%char.
Proof. vm_compute. done. Qed.

(** C5, amended: the detection counts every comma and every semicolon of
    the header line, inside double quotes or not, and chooses the comma
    exactly when there are at least as many commas as semicolons, otherwise
    the semicolon. *)
Theorem detectDelimiter_compares_all_occurrences :
  (∀ headerLine,
      detectDelimiter headerLine =
        if (occurrences ";" headerLine <=? occurrences "," headerLine)%nat
        then ","%char else ";"%char)
  ∧ detectDelimiter "Const,Title,Year" = ","%char
  ∧ detectDelimiter "Const;Title;Year" = ";"%char
  ∧ (∀ headerLine,
        occurrences "," headerLine = occurrences ";" headerLine →
        detectDelimiter headerLine = ","%char)
  ∧ (∀ headerLine,
        (occurrences "," headerLine < occurrences ";" headerLine)%nat →
        detectDelimiter headerLine = ";"%char).
Proof.
  split; [exact detectDelimiter_spec|].
  split; [done|]. split; [done|].
  split; intros headerLine Hc; rewrite detectDelimiter_spec.
  - rewrite Hc, Nat.leb_refl. done.
  - apply Nat.leb_gt in Hc. by rewrite Hc.
Qed.

Lemma detectDelimiter_tie_witness :
  occurrences "," "a,b;c" = occurrences ";" "a,b;c"
  ∧ detectDelimiter "a,b;c" = ","%char.
Proof.
  split; [reflexivity|].
  apply (proj1 (proj2 (proj2 (proj2 detectDelimiter_compares_all_occurrences)))).
  reflexivity.
Defined.

(** ** The lookahead of the field separator *)

Lemma lookahead_even s : lookahead s = Nat.even (quoteCount s).
Proof.
  induction s as [|c rest IH]; [done|].
  cbn [lookahead quoteCount]. destruct (Ascii.eqb c dquote).
  - rewrite IH. change (1 + quoteCount rest) with (S (quoteCount rest)).
    rewrite Nat.even_succ, <- Nat.negb_even. done.
  - done.
Qed.

Lemma quoteCount_app a b : quoteCount (a ++ b) = quoteCount a + quoteCount b.
Proof.
  induction a as [|c a IH]; [done|].
  rewrite append_cons. simpl. rewrite IH. lia.
Qed.

Lemma lookahead_app a b :
  lookahead (a ++ b) = Bool.eqb (lookahead a) (lookahead b).
Proof.
  induction a as [|c a IH].
  - rewrite append_nil_l. simpl. by destruct (lookahead b).
  - rewrite append_cons. simpl. destruct (Ascii.eqb c dquote); rewrite IH;
      by destruct (lookahead a), (lookahead b).
Qed.

Lemma lookahead_quote s : lookahead (String dquote s) = negb (lookahead s).
Proof. reflexivity. Qed.

Lemma lookahead_sepOf d : d ≠ dquote → lookahead (sepOf d) = true.
Proof.
  intros Hd. simpl. destruct (Ascii.eqb_spec d dquote); done.
Qed.

Lemma quoteFree_lookahead s : quoteFree s → lookahead s = true.
Proof.
  induction 1 as [|c s Hc _ IH]; simpl; [done|].
  destruct (Ascii.eqb_spec c dquote); done.
Qed.

Lemma quoteFree_quoteCount s : quoteFree s ↔ quoteCount s = 0.
Proof.
  induction s as [|c s IH]; simpl.
  - split; [done|constructor].
  - destruct (Ascii.eqb_spec c dquote) as [->|Hc].
    + split; [|done]. inversion 1; done.
    + rewrite <- IH. split; [by inversion 1|by constructor].
Qed.

(** A string splits at its first double quote, if it has one. *)
Lemma first_quote s :
  quoteFree s ∨ ∃ a rest, quoteFree a ∧ s = a ++ String dquote rest.
Proof.
  induction s as [|c s IH]; [left; constructor|].
  destruct (Ascii.eqb_spec c dquote) as [->|Hc].
  - right. exists EmptyString, s. split; [constructor|done].
  - destruct IH as [Hs|(a & rest & Ha & ->)].
    + left. by constructor.
    + right. exists (String c a), rest. split; [by constructor|done].
Qed.

Lemma LookaheadMatch_lookahead s : LookaheadMatch s → lookahead s = true.
Proof.
  induction 1 as [s Hs|a b rest Ha Hb _ IH]; [by apply quoteFree_lookahead|].
  rewrite lookahead_app, lookahead_quote, lookahead_app, lookahead_quote.
  by rewrite (quoteFree_lookahead a), (quoteFree_lookahead b), IH.
Qed.

Lemma lookahead_LookaheadMatch_aux n s :
  (String.length s <= n)%nat → lookahead s = true → LookaheadMatch s.
Proof.
  revert s. induction n as [|n IH]; intros s Hn Hs.
  - destruct s; [|simpl in Hn; lia]. constructor. constructor.
  - destruct (first_quote s) as [Hq|(a & r1 & Ha & ->)]; [by constructor|].
    destruct (first_quote r1) as [Hq|(b & rest & Hb & ->)].
    + rewrite lookahead_app, lookahead_quote in Hs.
      by rewrite (quoteFree_lookahead a), (quoteFree_lookahead r1) in Hs.
    + constructor 2; [done|done|]. apply IH.
      * rewrite length_append in Hn. cbn [String.length] in Hn.
        rewrite length_append in Hn. cbn [String.length] in Hn. lia.
      * rewrite lookahead_app, lookahead_quote, lookahead_app, lookahead_quote in Hs.
        rewrite (quoteFree_lookahead a), (quoteFree_lookahead b) in Hs by done.
        by destruct (lookahead rest).
Qed.

(** The automaton accepts what the expression of the lookahead matches. *)
Lemma lookahead_regex s : lookahead s = true ↔ LookaheadMatch s.
Proof.
  split; [|apply LookaheadMatch_lookahead].
  by apply (lookahead_LookaheadMatch_aux (String.length s)).
Qed.

(** ** Splitting a line into fields *)

Lemma splitRegex_cons d s : ∃ f fs, splitRegex d s = f :: fs.
Proof.
  destruct s as [|c rest]; simpl; [eauto|].
  destruct (Ascii.eqb c d && lookahead rest); [eauto|].
  destruct (splitRegex d rest); simpl; eauto.
Qed.

Lemma join_splitRegex d s : join (sepOf d) (splitRegex d s) = s.
Proof.
  induction s as [|c rest IH]; [done|].
  simpl. destruct (splitRegex_cons d rest) as (f & fs & E).
  destruct (Ascii.eqb c d && lookahead rest) eqn:Hc.
  - apply andb_true_iff in Hc as [Hc _]. apply Ascii.eqb_eq in Hc. subst c.
    rewrite E, join_cons, <- E, IH. reflexivity.
  - rewrite join_pushFront by (rewrite E; done). by rewrite IH.
Qed.

Lemma splitRegex_split_point d s fs1 fs2 :
  splitRegex d s = (fs1 ++ fs2)%list → fs1 ≠ [] → fs2 ≠ [] →
  lookahead (join (sepOf d) fs2) = true.
Proof.
  revert fs1 fs2. induction s as [|c rest IH]; intros fs1 fs2 E H1 H2.
  - simpl in E. destruct fs1 as [|f [|g fs1]]; [done | | done].
    destruct fs2; [done|]. simpl in E. discriminate.
  - simpl in E. destruct fs1 as [|f fs1]; [done|].
    destruct (Ascii.eqb c d && lookahead rest) eqn:Hc.
    + apply andb_true_iff in Hc as [_ Hl].
      simpl in E. injection E as Ef E. subst f.
      destruct fs1 as [|g fs1].
      * simpl in E. rewrite <- E, join_splitRegex. done.
      * apply (IH (g :: fs1) fs2); done.
    + destruct (splitRegex_cons d rest) as (p & ps & Ep).
      rewrite Ep in E. simpl in E. injection E as Ef E. subst f.
      apply (IH (p :: fs1) fs2); [|done|done].
      rewrite Ep. simpl. by rewrite E.
Qed.

Lemma splitRegex_inner_delimiter d s fs1 a b fs2 :
  splitRegex d s = (fs1 ++ (a ++ String d b)%string :: fs2)%list →
  lookahead (join (sepOf d) (b :: fs2)) = false.
Proof.
  revert fs1 a. induction s as [|c rest IH]; intros fs1 a E.
  - simpl in E. destruct fs1 as [|f [|g fs1]]; simpl in E; try discriminate.
    injection E as E _. destruct a; discriminate.
  - simpl in E.
    destruct (Ascii.eqb c d && lookahead rest) eqn:Hc.
    + destruct fs1 as [|f fs1]; simpl in E; injection E as Ef E.
      * destruct a; discriminate.
      * by apply (IH fs1 a).
    + destruct (splitRegex_cons d rest) as (p & ps & Ep).
      rewrite Ep in E. simpl in E.
      destruct fs1 as [|f fs1]; simpl in E; injection E as Ef E.
      * symmetry in Ef. apply append_eq_cons in Ef as [(-> & -> & ->)|(a' & -> & ->)].
        -- rewrite Ascii.eqb_refl in Hc. simpl in Hc.
           rewrite <- E, <- Ep, join_splitRegex. done.
        -- apply (IH [] a'). rewrite Ep, E. done.
      * apply (IH (p :: fs1) a). rewrite Ep, E. done.
Qed.

Lemma splitRegex_later_fields_even d s fs1 f fs2 :
  d ≠ dquote →
  splitRegex d s = (fs1 ++ f :: fs2)%list → fs1 ≠ [] → lookahead f = true.
Proof.
  intros Hd E H1.
  pose proof (splitRegex_split_point d s fs1 (f :: fs2) E H1 ltac:(done)) as Hf.
  destruct fs2 as [|g fs2]; [done|].
  assert (lookahead (join (sepOf d) (g :: fs2)) = true) as Hg.
  { apply (splitRegex_split_point d s (fs1 ++ [f]) (g :: fs2)).
    - by rewrite <- app_assoc.
    - by destruct fs1.
    - done. }
  rewrite join_cons, !lookahead_app, Hg, lookahead_sepOf in Hf by done.
  by destruct (lookahead f).
Qed.

Lemma splitRegex_first_field_even d s f fs :
  d ≠ dquote →
  splitRegex d s = f :: fs → lookahead s = true → lookahead f = true.
Proof.
  intros Hd E Hs. destruct fs as [|g fs].
  - pose proof (join_splitRegex d s) as J. rewrite E in J. simpl in J. by subst.
  - assert (lookahead (join (sepOf d) (g :: fs)) = true) as Hg.
    { by apply (splitRegex_split_point d s [f] (g :: fs)). }
    pose proof (join_splitRegex d s) as J. rewrite E, join_cons in J.
    rewrite <- J, !lookahead_app, Hg, lookahead_sepOf in Hs by done.
    by destruct (lookahead f).
Qed.

(** C6, as the specification states it, fails: in the line that reads a,
    double quote, comma, b the comma is a split point although one double
    quote, an odd number, has been seen since the start of the line. *)
Lemma splitRegex_odd_quotes_behind_counterexample :
  splitRegex ","%char ("a" ++ String dquote ",b")
    = ["a" ++ String dquote EmptyString; "b"]
  ∧ Nat.even (quoteCount ("a" ++ String dquote EmptyString)) = false.
Proof. vm_compute. done. Qed.

(** C6, amended: an occurrence of the chosen delimiter is a split point
    exactly when an even number of double quotes stands between it and the
    end of the line (the lookahead); every field after the first then holds
    an even number of double quotes, and on a line with an even number of
    double quotes so does the first, which is the rule of an even number
    of quotes since the last split point.  A delimiter inside a
    double-quoted field stays in that field, and in one cell of the
    Record. *)
Theorem splitRegex_splits_on_even_quotes_ahead :
  (∀ headerLine line,
      let d := detectDelimiter headerLine in
      join (sepOf d) (splitRegex d line) = line
      ∧ (∀ fs1 fs2,
            splitRegex d line = (fs1 ++ fs2)%list → fs1 ≠ [] → fs2 ≠ [] →
            Nat.even (quoteCount (join (sepOf d) fs2)) = true)
      ∧ (∀ fs1 a b fs2,
            splitRegex d line = (fs1 ++ (a ++ String d b)%string :: fs2)%list →
            Nat.even (quoteCount (join (sepOf d) (b :: fs2))) = false)
      ∧ (∀ fs1 f fs2,
            splitRegex d line = (fs1 ++ f :: fs2)%list → fs1 ≠ [] →
            Nat.even (quoteCount f) = true)
      ∧ (Nat.even (quoteCount line) = true →
         Forall (fun f => Nat.even (quoteCount f) = true) (splitRegex d line)))
  ∧ splitRegex ","%char ("tt1," ++ quoted "Drama, Romance" ++ ",1999")
    = ["tt1"; quoted "Drama, Romance"; "1999"]
  ∧ parseCSV ("Const,Genres,Year" ++ nl
              ++ "tt1," ++ quoted "Drama, Romance" ++ ",1999")
    = [ <["Const" := "tt1"]> (<["Genres" := "Drama, Romance"]>
          (<["Year" := "1999"]> ∅)) ].
Proof.
  split; [|split; vm_compute; reflexivity].
  intros headerLine line d.
  pose proof (detectDelimiter_not_quote headerLine) as Hd. fold d in Hd.
  split; [apply join_splitRegex|].
  split. { intros fs1 fs2 E H1 H2. rewrite <- lookahead_even.
           by apply (splitRegex_split_point d line fs1 fs2). }
  split. { intros fs1 a b fs2 E. rewrite <- lookahead_even.
           by apply (splitRegex_inner_delimiter d line fs1 a b fs2). }
  split. { intros fs1 f fs2 E H1. rewrite <- lookahead_even.
           by apply (splitRegex_later_fields_even d line fs1 f fs2). }
  intros Hline. rewrite <- lookahead_even in Hline.
  apply Forall_forall. intros f Hf. rewrite <- lookahead_even.
  apply list_elem_of_split in Hf as (fs1 & fs2 & E).
  destruct fs1 as [|g fs1].
  - by apply (splitRegex_first_field_even d line f fs2).
  - by apply (splitRegex_later_fields_even d line (g :: fs1) f fs2).
Qed.

Lemma splitRegex_even_line_witness :
  Nat.even (quoteCount ("tt1," ++ quoted "Drama, Romance" ++ ",1999")) = true
  ∧ Forall (fun f => Nat.even (quoteCount f) = true)
      (splitRegex (detectDelimiter "Const,Genres,Year")
         ("tt1," ++ quoted "Drama, Romance" ++ ",1999")).
Proof.
  split; [reflexivity|].
  apply (proj1 splitRegex_splits_on_even_quotes_ahead "Const,Genres,Year").
  reflexivity.
Defined.

(** ** The parser *)

Lemma dom_assign key value (obj : IMDbEntry) :
  dom (assign key value obj) = dom obj ∪ list_to_set (ownKeys [key]).
Proof.
  unfold assign, ownKeys. cbn [List.filter].
  destruct (String.eqb key "__proto__"); cbn [negb list_to_set].
  - by rewrite (right_id_L ∅ (∪)).
  - rewrite dom_insert_L, (right_id_L ∅ (∪)). apply (comm_L (∪)).
Qed.

Lemma ownKeys_cons key keys : ownKeys (key :: keys) = (ownKeys [key] ++ ownKeys keys)%list.
Proof. unfold ownKeys. cbn [List.filter]. by destruct (negb _). Qed.

Lemma dom_fillEntry keys j currentline (obj : IMDbEntry) :
  dom (fillEntry keys j currentline obj) = dom obj ∪ list_to_set (ownKeys keys).
Proof.
  revert j obj. induction keys as [|key keys IH]; intros j obj.
  - simpl. by rewrite (right_id_L ∅ (∪)).
  - cbn [fillEntry]. rewrite IH, dom_assign, (ownKeys_cons key keys), list_to_set_app_L.
    by rewrite (assoc_L (∪)).
Qed.

Lemma lookup_assign_ne key value (obj : IMDbEntry) k :
  k ≠ key → assign key value obj !! k = obj !! k.
Proof.
  intros Hk. unfold assign. destruct (String.eqb key "__proto__"); [done|].
  by apply lookup_insert_ne.
Qed.

Lemma lookup_assign_eq key value (obj : IMDbEntry) :
  key ≠ "__proto__" → assign key value obj !! key = Some value.
Proof.
  intros Hk. unfold assign. apply String.eqb_neq in Hk. rewrite Hk.
  apply lookup_insert_eq.
Qed.

Lemma lookup_fillEntry_notin keys j currentline (obj : IMDbEntry) key :
  key ∉ keys → fillEntry keys j currentline obj !! key = obj !! key.
Proof.
  revert j obj. induction keys as [|k keys IH]; intros j obj Hk; [done|].
  cbn [fillEntry]. rewrite not_elem_of_cons in Hk. destruct Hk as [Hne Hk].
  rewrite IH by done. by apply lookup_assign_ne.
Qed.

(** A column reads the cell of the last header field of its name. *)
Lemma lookup_fillEntry keys j currentline (obj : IMDbEntry) i key :
  key ≠ "__proto__" →
  keys !! i = Some key → key ∉ drop (S i) keys →
  fillEntry keys j currentline obj !! key = Some (cellValue currentline (j + i)).
Proof.
  intros Hp. revert j obj i.
  induction keys as [|k keys IH]; intros j obj i Hi Hlast; [done|].
  destruct i as [|i]; cbn [fillEntry]; simpl in Hi, Hlast.
  - injection Hi as ->. rewrite drop_0 in Hlast.
    rewrite lookup_fillEntry_notin by done.
    rewrite lookup_assign_eq by done. rewrite Nat.add_0_r. done.
  - rewrite (IH (S j) _ i) by done. f_equal. f_equal. lia.
Qed.

Lemma dom_entryOf d header line :
  dom (entryOf d header line) = list_to_set (ownKeys header).
Proof.
  unfold entryOf. rewrite dom_fillEntry, dom_empty_L. apply (left_id_L ∅ (∪)).
Qed.

Lemma parseLines_spec d header lines result :
  parseLines d header lines result =
    (result ++ map (entryOf d header)
       (List.filter (fun line => negb (isEmpty (trim line)) && wellFormed d header line)
          lines))%list.
Proof.
  revert result. induction lines as [|line lines IH]; intros result; simpl.
  - by rewrite app_nil_r.
  - destruct (isEmpty (trim line)); simpl; [apply IH|].
    unfold wellFormed at 1.
    destruct (length header =? length (splitRegex d line))%nat; simpl; [|apply IH].
    rewrite IH, <- app_assoc. done.
Qed.

Lemma contentLines_nonblank text line :
  In line (contentLines text) → isEmpty (trim line) = false.
Proof.
  unfold contentLines. intros H. apply filter_In in H as [_ H].
  by apply negb_true_iff.
Qed.

(** The byte order mark is no code unit of the model, so the lines are the
    non-blank ones of the trimmed text. *)
Lemma contentLines_eq text :
  contentLines text
  = List.filter (fun line => negb (isEmpty (trim line))) (splitLines (trim text)).
Proof.
  unfold contentLines. destruct (trim text) as [|c rest]; [done|].
  assert ((N_of_ascii c =? 65279)%N = false) as ->; [|done].
  apply N.eqb_neq. pose proof (N_ascii_bounded c). lia.
Qed.

Lemma parseCSV_spec text :
  parseCSV text =
    match contentLines text with
    | [] => []
    | headerLine :: dataLines =>
        let d := detectDelimiter headerLine in
        let header := map clean (splitRegex d headerLine) in
        map (entryOf d header) (List.filter (wellFormed d header) dataLines)
    end.
Proof.
  unfold parseCSV.
  pose proof (contentLines_nonblank text) as Hnb.
  destruct (contentLines text) as [|headerLine dataLines]; [done|].
  destruct dataLines as [|l1 ls]; [done|].
  remember (l1 :: ls) as dataLines eqn:Hd.
  replace (length (headerLine :: dataLines) <? 2)%nat with false
    by (subst dataLines; done).
  cbv zeta. rewrite parseLines_spec, app_nil_l. f_equal.
  apply filter_ext_in. intros line Hl.
  rewrite (Hnb line) by (right; done). done.
Qed.

Lemma parseCSV_same_keys text (r1 r2 : IMDbEntry) :
  r1 ∈ parseCSV text → r2 ∈ parseCSV text → dom r1 = dom r2.
Proof.
  rewrite parseCSV_spec.
  destruct (contentLines text) as [|headerLine dataLines]; [by intros ?%elem_of_nil|].
  cbv zeta. intros (l1 & -> & _)%list_elem_of_fmap (l2 & -> & _)%list_elem_of_fmap.
  by rewrite !dom_entryOf.
Qed.

Lemma length_filter_negb {A} (f : A → bool) l :
  (length (List.filter f l) + length (List.filter (fun x => negb (f x)) l))%nat
  = length l.
Proof.
  induction l as [|x l IH]; simpl; [done|].
  destruct (f x); simpl; lia.
Qed.

Lemma filter_all {A} (f : A → bool) l :
  Forall (fun x => f x = true) l → List.filter f l = l.
Proof.
  induction 1 as [|x l Hx _ IH]; simpl; [done|]. by rewrite Hx, IH.
Qed.

(** X28: with the non-blank lines of the trimmed text as the header line and
    the data lines, the parser yields one Record for each data line that has
    as many fields as the header line, in the order of the input; the key
    set of every Record is the header's field list without the name
    __proto__; a data line with another field count yields no Record and
    the lines after it are parsed all the same, so that a file without such
    lines yields as many Records as it has data lines. *)
Theorem parseCSV_records_of_well_formed_lines :
  (∀ text,
      contentLines text
      = List.filter (fun line => negb (isEmpty (trim line))) (splitLines (trim text)))
  ∧ (∀ text, contentLines text = [] → parseCSV text = [])
  ∧ (∀ text headerLine dataLines,
        contentLines text = headerLine :: dataLines →
        let d := detectDelimiter headerLine in
        let header := map clean (splitRegex d headerLine) in
        parseCSV text
          = map (entryOf d header) (List.filter (wellFormed d header) dataLines)
        ∧ Forall (fun r : IMDbEntry => dom r = list_to_set (ownKeys header))
            (parseCSV text)
        ∧ (length (parseCSV text)
           + length (List.filter (fun l => negb (wellFormed d header l)) dataLines))%nat
          = length dataLines
        ∧ (Forall (fun l => wellFormed d header l = true) dataLines →
           length (parseCSV text) = length dataLines))
  ∧ (∀ d header line i key,
        key ≠ "__proto__" →
        header !! i = Some key → key ∉ drop (S i) header →
        entryOf d header line !! key = Some (cellValue (splitRegex d line) i))
  ∧ parseCSV ("Const,Title,Year" ++ nl ++ "tt1,A,1999" ++ nl ++ "tt2,B,2000" ++ nl
              ++ "tt3,C,2001,extra" ++ nl ++ "tt4,D,2002" ++ nl ++ "tt5,E,2003")
    = [ <["Const" := "tt1"]> (<["Title" := "A"]> (<["Year" := "1999"]> ∅));
        <["Const" := "tt2"]> (<["Title" := "B"]> (<["Year" := "2000"]> ∅));
        <["Const" := "tt4"]> (<["Title" := "D"]> (<["Year" := "2002"]> ∅));
        <["Const" := "tt5"]> (<["Title" := "E"]> (<["Year" := "2003"]> ∅)) ].
Proof.
  split; [exact contentLines_eq|].
  split. { intros text E. by rewrite parseCSV_spec, E. }
  split.
  { intros text headerLine dataLines E d header.
    assert (parseCSV text
            = map (entryOf d header) (List.filter (wellFormed d header) dataLines)) as Hp.
    { by rewrite parseCSV_spec, E. }
    split; [exact Hp|]. rewrite Hp. split; [|split].
    - apply Forall_forall. intros r Hr.
      apply list_elem_of_fmap in Hr as (line & -> & _). apply dom_entryOf.
    - rewrite length_map. apply length_filter_negb.
    - intros Hall. rewrite length_map. by rewrite filter_all. }
  split.
  { intros d header line i key Hp Hi Hlast.
    unfold entryOf. by rewrite (lookup_fillEntry _ _ _ _ i key). }
  vm_compute. reflexivity.
Qed.

Lemma parseCSV_well_formed_lines_witness :
  length (parseCSV ("Const,Title" ++ nl ++ "tt1,A" ++ nl ++ "tt2,B")) = 2%nat.
Proof.
  apply (proj1 (proj2 (proj2 parseCSV_records_of_well_formed_lines))
           ("Const,Title" ++ nl ++ "tt1,A" ++ nl ++ "tt2,B")
           "Const,Title" ["tt1,A"; "tt2,B"]).
  - vm_compute. reflexivity.
  - repeat constructor.
Defined.

(** C1: the key set of a Record is not the header's field list when the
    header has a field named __proto__.  For the header with the two fields
    __proto__ and Title and a data line of two fields the parser yields the
    Record of the line; but the assignment under the name __proto__ stores
    nothing, and the key set of the Record is Title alone. *)
Theorem parseCSV_proto_header_loses_the_key :
  map clean (splitRegex (detectDelimiter "__proto__,Title") "__proto__,Title")
    = ["__proto__"; "Title"]
  ∧ parseCSV ("__proto__,Title" ++ nl ++ "x,A") = [ <["Title" := "A"]> ∅ ]
  ∧ ¬ Forall (fun r : IMDbEntry => dom r = list_to_set ["__proto__"; "Title"])
        (parseCSV ("__proto__,Title" ++ nl ++ "x,A")).
Proof.
  split; [vm_compute; reflexivity|].
  assert (parseCSV ("__proto__,Title" ++ nl ++ "x,A") = [ <["Title" := "A"]> ∅ ]) as E
    by (vm_compute; reflexivity).
  split; [exact E|]. rewrite E. intros H.
  apply Forall_inv in H.
  assert ("__proto__" ∈ dom (<["Title" := "A"]> (∅ : IMDbEntry))) as Hin.
  { rewrite H. apply elem_of_list_to_set. by left. }
  apply elem_of_dom in Hin as [v Hv]. vm_compute in Hv. discriminate.
Qed.

(** ** The qualifying-movie filter *)

Lemma Kept_filter {A} (P : A → Prop) (f : A → bool) l :
  (∀ x, f x = true ↔ P x) → Kept P l (List.filter f l).
Proof.
  intros Hf. induction l as [|x l IH]; simpl; [constructor|].
  destruct (f x) eqn:E.
  - constructor; [by apply Hf|done].
  - constructor; [|done]. rewrite <- Hf. congruence.
Qed.

Lemma Kept_unique {A} (P : A → Prop) l k1 k2 :
  Kept P l k1 → Kept P l k2 → k1 = k2.
Proof.
  intros H1. revert k2. induction H1; inversion 1; subst; try done.
  - f_equal. auto.
  - auto.
Qed.

Lemma isEmpty_false s : isEmpty s = false ↔ s ≠ EmptyString.
Proof. destruct s; simpl; split; done. Qed.

Lemma titleTypeOf_eq entry : titleTypeOf entry = titleTypeField entry.
Proof.
  unfold titleTypeOf, titleTypeField, truthy.
  destruct (entry !! "Title Type") as [t|]; [|done]. by destruct t.
Qed.

Lemma isMovie_qualifies entry : isMovie entry = true ↔ qualifies entry.
Proof.
  unfold isMovie, qualifies, equalsIgnoringCase. rewrite titleTypeOf_eq.
  destruct (titleTypeField entry) as [t|].
  - rewrite andb_true_iff, String.eqb_eq. unfold truthy. split.
    + intros [Ht Hy]. split; [by exists t|].
      destruct (entry !! "Year") as [y|]; [|done].
      exists y. split; [done|]. apply isEmpty_false. by apply negb_true_iff.
    + intros [(t' & E & Ht) (y & -> & Hy)]. injection E as <-.
      split; [done|]. apply negb_true_iff. by apply isEmpty_false.
  - split; [done|]. intros [(t' & E & _) _]. done.
Qed.

(** C3: the qualifying-movie filter keeps exactly the Records whose
    title-type field (the column Title Type or, when that has no value,
    the column TitleType) equals movie, letter case apart, and whose Year
    is a non-empty string, in their order. *)
Theorem filterAndProcessMovies_keeps_qualifying_movies (data : list IMDbEntry) :
  Kept qualifies data (filterAndProcessMovies data).
Proof. apply Kept_filter, isMovie_qualifies. Qed.

(** ** Sorting *)

Section SortLemmas.
Context {A : Type}.
Implicit Types (l : list A) (x : A).

Lemma insert_perm (cmp : A → A → number) x l : insert cmp x l ≡ₚ x :: l.
Proof.
  induction l as [|y l IH]; simpl; [done|].
  destruct (positive (cmp x y)); [|done].
  rewrite IH. apply Permutation_swap.
Qed.

Lemma sort_perm (cmp : A → A → number) l : sort cmp l ≡ₚ l.
Proof.
  induction l as [|x l IH]; simpl; [done|].
  rewrite insert_perm. by rewrite IH.
Qed.

(** A list the comparator already accepts is left as it stands. *)
Lemma sort_sorted_id (cmp : A → A → number) l :
  Sorted (fun a b => positive (cmp a b) = false) l → sort cmp l = l.
Proof.
  induction 1 as [|x l Hs IH Hhd]; [done|].
  simpl. fold (sort cmp l). rewrite IH.
  destruct Hhd as [|y l' Hxy]; simpl; [done|]. by rewrite Hxy.
Qed.

Lemma insert_sorted (key : A → Z) (cmp : A → A → number) x l :
  (∀ y, y ∈ l → positive (cmp x y) = (key y <? key x)%Z) →
  StronglySorted (fun a b => (key a <= key b)%Z) l →
  StronglySorted (fun a b => (key a <= key b)%Z) (insert cmp x l).
Proof.
  intros Hc Hs. induction Hs as [|y l Hs IH Hy]; simpl.
  - repeat constructor.
  - rewrite Hc by set_solver.
    destruct (Z.ltb_spec (key y) (key x)) as [Hlt|Hge].
    + constructor.
      * apply IH. intros z Hz. apply Hc. set_solver.
      * rewrite insert_perm. constructor; [lia|done].
    + constructor; [by constructor|].
      constructor; [done|].
      eapply Forall_impl; [exact Hy|]. simpl. intros; lia.
Qed.

Lemma sort_sorted (key : A → Z) (cmp : A → A → number) l :
  (∀ x y, x ∈ l → y ∈ l → positive (cmp x y) = (key y <? key x)%Z) →
  StronglySorted (fun a b => (key a <= key b)%Z) (sort cmp l).
Proof.
  induction l as [|x l IH]; intros Hc; simpl; [constructor|].
  apply insert_sorted.
  - intros y Hy. rewrite sort_perm in Hy. apply Hc; set_solver.
  - apply IH. intros; apply Hc; set_solver.
Qed.

Lemma insertM_perm (cmp : A → A → option number) x l r :
  insertM cmp x l = Some r → r ≡ₚ x :: l.
Proof.
  revert r. induction l as [|y l IH]; simpl; intros r E.
  - by injection E as <-.
  - destruct (cmp x y) as [v|]; [|done].
    destruct (positive v).
    + destruct (insertM cmp x l) as [r'|]; [|done].
      injection E as <-. rewrite (IH r') by done. apply Permutation_swap.
    + by injection E as <-.
Qed.

Lemma sortM_perm (cmp : A → A → option number) l r :
  sortM cmp l = Some r → r ≡ₚ l.
Proof.
  revert r. induction l as [|x l IH]; simpl; intros r E.
  - by injection E as <-.
  - destruct (sortM cmp l) as [r'|]; [|done].
    rewrite (insertM_perm _ _ _ _ E). by rewrite (IH r').
Qed.

(** With a comparator that never throws the monadic sort is the sort. *)
Lemma sortM_total (cmp : A → A → number) l :
  sortM (fun a b => Some (cmp a b)) l = Some (sort cmp l).
Proof.
  induction l as [|x l IH]; simpl; [done|].
  rewrite IH. fold (sort cmp l). generalize (sort cmp l) as r.
  induction r as [|y r IHr]; simpl; [done|].
  destruct (positive (cmp x y)); [|done]. by rewrite IHr.
Qed.
End SortLemmas.

Lemma StronglySorted_weaken {A} (R R' : A → A → Prop) l :
  (∀ a b, a ∈ l → b ∈ l → R a b → R' a b) →
  StronglySorted R l → StronglySorted R' l.
Proof.
  intros Himp Hs. induction Hs as [|x l Hs IH Hx]; [constructor|].
  constructor.
  - apply IH. intros a b Ha Hb. apply Himp; by right.
  - rewrite Forall_forall in Hx |- *. intros y Hy.
    apply Himp; [by left|by right|by apply Hx].
Qed.

(** ** The upload handler *)

Lemma negb_hasKey col (row : IMDbEntry) :
  negb (hasKey col row) = bool_decide (row !! col = None).
Proof.
  unfold hasKey. destruct (row !! col) eqn:E.
  - rewrite bool_decide_eq_true_2 by eauto. by rewrite bool_decide_eq_false_2.
  - rewrite bool_decide_eq_false_2 by (by intros [? ?]).
    by rewrite bool_decide_eq_true_2.
Qed.

Lemma missingColumns_code (firstRow : IMDbEntry) :
  (List.filter (fun col => negb (hasKey col firstRow)) REQUIRED_COLUMNS
   ++ (if hasKey "Title Type" firstRow || hasKey "TitleType" firstRow
       then [] else ["Title Type"]))%list
  = missingColumns firstRow.
Proof.
  unfold missingColumns. f_equal.
  - apply filter_ext. intros col. apply negb_hasKey.
  - rewrite <- (negb_involutive (hasKey "Title Type" firstRow || _)).
    rewrite negb_orb, !negb_hasKey.
    destruct (firstRow !! "Title Type"), (firstRow !! "TitleType"); done.
Qed.

Lemma missingColumns_test (firstRow : IMDbEntry) :
  negb (length (List.filter (fun col => negb (hasKey col firstRow)) REQUIRED_COLUMNS)
        =? 0)%nat
  || negb (hasKey "Title Type" firstRow || hasKey "TitleType" firstRow)
  = negb (bool_decide (missingColumns firstRow = [])).
Proof.
  rewrite <- missingColumns_code.
  destruct (List.filter _ REQUIRED_COLUMNS) as [|c cs]; simpl.
  - by destruct (hasKey "Title Type" firstRow || hasKey "TitleType" firstRow).
  - done.
Qed.

Lemma elem_of_missingColumns (firstRow : IMDbEntry) col :
  col ∈ missingColumns firstRow ↔
  (col ∈ REQUIRED_COLUMNS ∧ firstRow !! col = None)
  ∨ (col = "Title Type"
     ∧ firstRow !! "Title Type" = None ∧ firstRow !! "TitleType" = None).
Proof.
  unfold missingColumns. rewrite elem_of_app, !list_elem_of_In, filter_In.
  rewrite bool_decide_eq_true, <- !list_elem_of_In.
  case_bool_decide as Htt.
  - rewrite list_elem_of_singleton. tauto.
  - rewrite elem_of_nil. tauto.
Qed.

Lemma missingColumns_nil_required (firstRow : IMDbEntry) col :
  missingColumns firstRow = [] → col ∈ REQUIRED_COLUMNS → is_Some (firstRow !! col).
Proof.
  intros Hm Hc. destruct (firstRow !! col) eqn:E; [done|].
  assert (col ∈ missingColumns firstRow) as Hin.
  { apply elem_of_missingColumns. by left. }
  rewrite Hm in Hin. by apply elem_of_nil in Hin.
Qed.

Lemma onload_empty text st :
  parseCSV text = [] → onload text st = failWith emptyFileMessage st.
Proof. intros E. unfold onload. by rewrite E. Qed.

Lemma onload_missing text st firstRow rest :
  parseCSV text = firstRow :: rest → missingColumns firstRow ≠ [] →
  onload text st =
    failWith (missingColumnsMessage (missingColumns firstRow))
      {| allMovies := allMovies st; chartData := chartData st;
         fileName := fileName st; error := error st; isLoading := isLoading st;
         searchTerm := searchTerm st; searchResults := searchResults st;
         availableColumns := keys firstRow |}.
Proof.
  intros E Hm. unfold onload. rewrite E. cbv zeta.
  rewrite missingColumns_test, missingColumns_code.
  by rewrite bool_decide_eq_false_2.
Qed.

Lemma onload_no_movies text st firstRow rest :
  parseCSV text = firstRow :: rest → missingColumns firstRow = [] →
  filterAndProcessMovies (parseCSV text) = [] →
  error (onload text st) = Some noMoviesMessage
  ∧ allMovies (onload text st) = allMovies st.
Proof.
  intros E Hm Hf. unfold onload. rewrite E in Hf |- *. cbv zeta.
  rewrite missingColumns_test, Hf.
  by rewrite bool_decide_eq_true_2.
Qed.

Lemma onload_accepts text st firstRow rest :
  parseCSV text = firstRow :: rest → missingColumns firstRow = [] →
  filterAndProcessMovies (parseCSV text) ≠ [] →
  onload text st =
    {| allMovies := filterAndProcessMovies (parseCSV text);
       chartData := createChartData (filterAndProcessMovies (parseCSV text));
       fileName := fileName st; error := error st; isLoading := false;
       searchTerm := searchTerm st; searchResults := searchResults st;
       availableColumns := keys firstRow |}.
Proof.
  intros E Hm Hf. unfold onload. rewrite E in Hf |- *. cbv zeta.
  rewrite missingColumns_test.
  rewrite bool_decide_eq_true_2 by done. cbn [negb].
  destruct (filterAndProcessMovies (firstRow :: rest)); done.
Qed.

(** What an upload without error leaves in the state. *)
Lemma handleFileSelect_accepted file st :
  error (handleFileSelect file st) = None →
  ∃ text firstRow rest,
    content file = Some text ∧ parseCSV text = firstRow :: rest
    ∧ missingColumns firstRow = []
    ∧ allMovies (handleFileSelect file st) = filterAndProcessMovies (parseCSV text)
    ∧ chartData (handleFileSelect file st)
      = createChartData (allMovies (handleFileSelect file st)).
Proof.
  unfold handleFileSelect.
  destruct (negb (String.eqb (type file) "text/csv") && _); [done|].
  destruct (content file) as [text|]; [|done].
  destruct (parseCSV text) as [|firstRow rest] eqn:E.
  { by rewrite onload_empty. }
  destruct (decide (missingColumns firstRow = [])) as [Hm|Hm].
  2:{ by rewrite (onload_missing _ _ firstRow rest). }
  destruct (decide (filterAndProcessMovies (parseCSV text) = [])) as [Hf|Hf].
  { intros H. by rewrite (proj1 (onload_no_movies _ _ firstRow rest E Hm Hf)) in H. }
  intros _. exists text, firstRow, rest.
  rewrite (onload_accepts _ _ firstRow rest) by done.
  rewrite E. done.
Qed.

Lemma handleFileSelect_keeps_required file st col :
  col ∈ REQUIRED_COLUMNS →
  Forall (fun m : IMDbEntry => is_Some (m !! col)) (allMovies st) →
  Forall (fun m : IMDbEntry => is_Some (m !! col)) (allMovies (handleFileSelect file st)).
Proof.
  intros Hcol Hst. unfold handleFileSelect.
  destruct (negb (String.eqb (type file) "text/csv") && _); [done|].
  destruct (content file) as [text|]; [|by constructor].
  destruct (parseCSV text) as [|firstRow rest] eqn:E.
  { rewrite onload_empty by done. by constructor. }
  destruct (decide (missingColumns firstRow = [])) as [Hm|Hm].
  2:{ rewrite (onload_missing _ _ firstRow rest) by done. by constructor. }
  destruct (decide (filterAndProcessMovies (parseCSV text) = [])) as [Hf|Hf].
  { rewrite (proj2 (onload_no_movies _ _ firstRow rest E Hm Hf)). by constructor. }
  rewrite (onload_accepts _ _ firstRow rest) by done. cbn [allMovies].
  apply Forall_forall. intros m Hm'.
  apply list_elem_of_In, filter_In in Hm' as [Hin _]. apply list_elem_of_In in Hin.
  apply elem_of_dom. rewrite (parseCSV_same_keys text m firstRow).
  - apply elem_of_dom. by apply missingColumns_nil_required.
  - done.
  - rewrite E. by left.
Qed.

(** C8: when the first Record of an upload lacks one of the columns Const,
    Title, Year, Your Rating, URL, or both spellings of the title type, the
    upload is rejected with the error that lists every missing column, the
    title type under the one name Title Type. *)
Theorem handleFileSelect_reports_missing_columns :
  (∀ file text st firstRow rest,
      type file = "text/csv" ∨ endsWith (name file) ".csv" = true →
      content file = Some text →
      parseCSV text = firstRow :: rest →
      missingColumns firstRow ≠ [] →
      error (handleFileSelect file st)
        = Some (missingColumnsMessage (missingColumns firstRow))
      ∧ allMovies (handleFileSelect file st) = []
      ∧ chartData (handleFileSelect file st) = []
      ∧ isLoading (handleFileSelect file st) = false
      ∧ ∀ col, col ∈ missingColumns firstRow →
               substring col (missingColumnsMessage (missingColumns firstRow)))
  ∧ (∀ (firstRow : IMDbEntry) col,
        col ∈ missingColumns firstRow ↔
        (col ∈ REQUIRED_COLUMNS ∧ firstRow !! col = None)
        ∨ (col = "Title Type"
           ∧ firstRow !! "Title Type" = None ∧ firstRow !! "TitleType" = None))
  ∧ error (handleFileSelect
             (csvFile ("Const,Title,Year,Your Rating" ++ nl ++ "tt1,A,1999,7"))
             initialAppState)
    = Some (missingColumnsMessage ["URL"; "Title Type"]).
Proof.
  split.
  { intros file text st firstRow rest Hty Hc Hp Hm.
    assert (negb (String.eqb (type file) "text/csv")
            && negb (endsWith (name file) ".csv") = false) as Hgate.
    { destruct Hty as [->| ->]; [done|]. apply andb_false_r. }
    unfold handleFileSelect. rewrite Hgate, Hc.
    rewrite (onload_missing _ _ firstRow rest) by done.
    repeat split; try done.
    intros col Hcol. unfold missingColumnsMessage.
    do 7 apply substring_app_r. by apply substring_app_l, substring_join. }
  split; [exact elem_of_missingColumns|].
  vm_compute. reflexivity.
Qed.

Lemma handleFileSelect_missing_columns_witness :
  error (handleFileSelect
           (csvFile ("Const,Title,Year,Your Rating" ++ nl ++ "tt1,A,1999,7"))
           initialAppState)
  = Some (missingColumnsMessage ["URL"; "Title Type"]).
Proof.
  refine (proj1 (proj1 handleFileSelect_reports_missing_columns
            (csvFile ("Const,Title,Year,Your Rating" ++ nl ++ "tt1,A,1999,7"))
            ("Const,Title,Year,Your Rating" ++ nl ++ "tt1,A,1999,7") _
            (<["Const" := "tt1"]> (<["Title" := "A"]> (<["Year" := "1999"]>
               (<["Your Rating" := "7"]> ∅))))
            [] _ _ _ _)).
  - left. reflexivity.
  - reflexivity.
  - vm_compute. reflexivity.
  - vm_compute. discriminate.
Defined.

(** ** Numbers *)

Lemma roundDouble_small z : (Z.abs z < 2 ^ 53)%Z → roundDouble z = Fin z.
Proof. intros H. unfold roundDouble. apply Z.ltb_lt in H. by rewrite H. Qed.

(** Above 2^53 the mantissa has 53 bits, so the value is at least 2^53. *)
Lemma roundDouble_mantissa a :
  (2 ^ 53 <= a)%Z →
  let e := (Z.log2 a - 52)%Z in
  (1 <= e)%Z ∧ (2 ^ 52 <= a / 2 ^ e)%Z ∧ (0 < 2 ^ e)%Z.
Proof.
  intros Ha e.
  assert (0 < a)%Z as Hpos by lia.
  pose proof (Z.log2_spec a Hpos) as [Hlo Hhi].
  assert (53 <= Z.log2 a)%Z as Hlog.
  { apply Z.log2_le_pow2; [done|done]. }
  assert (0 < 2 ^ e)%Z as He by (apply Z.pow_pos_nonneg; lia).
  split; [lia|]. split; [|done].
  apply Z.div_le_lower_bound; [done|].
  rewrite <- Z.pow_add_r by lia. replace (e + 52)%Z with (Z.log2 a) by lia. done.
Qed.

Lemma roundDouble_large z :
  (2 ^ 53 <= Z.abs z)%Z →
  ∃ v, (2 ^ 53 <= v)%Z
       ∧ roundDouble z
         = if (2 ^ 1024 <=? v)%Z then (if (z <? 0)%Z then NegInf else PosInf)
           else Fin (Z.sgn z * v).
Proof.
  intros Ha. unfold roundDouble.
  assert ((Z.abs z <? 2 ^ 53)%Z = false) as -> by (apply Z.ltb_ge; done).
  destruct (roundDouble_mantissa (Z.abs z) Ha) as (He & Hq & Hp).
  cbv zeta.
  set (e := (Z.log2 (Z.abs z) - 52)%Z) in *.
  set (q := (Z.abs z / 2 ^ e)%Z) in *.
  assert (2 <= 2 ^ e)%Z as H2.
  { change 2%Z with (2 ^ 1)%Z at 1. apply Z.pow_le_mono_r; lia. }
  assert (∀ m, (q <= m)%Z → (2 ^ 53 <= m * 2 ^ e)%Z) as Hm.
  { intros m Hqm. change (2 ^ 53)%Z with (2 ^ 52 * 2)%Z.
    apply Z.mul_le_mono_nonneg; lia. }
  match goal with
  | |- context [if ?b then (q + 1)%Z else q] => destruct b
  end.
  - exists ((q + 1) * 2 ^ e)%Z. split; [apply Hm; lia|done].
  - exists (q * 2 ^ e)%Z. split; [apply Hm; lia|done].
Qed.

Lemma positive_roundDouble z : positive (roundDouble z) = (0 <? z)%Z.
Proof.
  destruct (Z.lt_ge_cases (Z.abs z) (2 ^ 53)) as [H|H].
  - by rewrite roundDouble_small.
  - destruct (roundDouble_large z H) as (v & Hv & ->).
    assert (z ≠ 0%Z) as Hz by (intros ->; simpl in H; lia).
    destruct (2 ^ 1024 <=? v)%Z.
    + destruct (Z.ltb_spec z 0), (Z.ltb_spec 0 z); (done || lia).
    + simpl. destruct (Z.ltb_spec 0 (Z.sgn z * v)), (Z.ltb_spec 0 z); (done || nia).
Qed.

Lemma positive_sub_Fin x y : positive (sub (Fin x) (Fin y)) = (y <? x)%Z.
Proof.
  cbn [sub]. rewrite positive_roundDouble.
  destruct (Z.ltb_spec 0 (x - y)), (Z.ltb_spec y x); (done || lia).
Qed.

(** An integer below 2^53 is the Number value of itself alone. *)
Lemma roundsTo_safe a v : (Z.abs a < 2 ^ 53)%Z → roundsTo a v = true → v = a.
Proof.
  intros Ha. unfold roundsTo.
  destruct (Z.lt_ge_cases (Z.abs v) (2 ^ 53)) as [H|H].
  - rewrite roundDouble_small by done. simpl. by intros ?%Z.eqb_eq.
  - destruct (roundDouble_large v H) as (w & Hw & ->).
    destruct (2 ^ 1024 <=? w)%Z; [by destruct (v <? 0)%Z|].
    simpl. intros E%Z.eqb_eq. exfalso.
    assert (v ≠ 0%Z) as Hv by (intros ->; simpl in H; lia). nia.
Qed.

Lemma candidate_safe a p v :
  (Z.abs a < 2 ^ 53)%Z → candidate a p = Some v → v = a.
Proof.
  intros Ha. unfold candidate. cbv zeta.
  destruct (roundsTo a (a / p * p)) eqn:E1, (roundsTo a (a / p * p + p)) eqn:E2;
    try discriminate;
    repeat case_match; intros [= <-];
    (by apply roundsTo_safe in E1) || (by apply roundsTo_safe in E2).
Qed.

Lemma shortestFrom_safe a p steps :
  (Z.abs a < 2 ^ 53)%Z → shortestFrom a p steps = a.
Proof.
  intros Ha. revert p. induction steps as [|n IH]; intros p; [done|].
  simpl. destruct (candidate a p) as [v|] eqn:E; [by apply candidate_safe in E|apply IH].
Qed.

Lemma shortest_safe a : (Z.abs a < 2 ^ 53)%Z → shortest a = a.
Proof. intros Ha. unfold shortest. by apply shortestFrom_safe. Qed.

(** ** The year aggregation *)

Lemma countYear_lookup yearCounts movie y :
  countYear yearCounts movie !! y =
    if chartable y && hasYear y movie
    then Some (default 0 (yearCounts !! y) + 1)%nat
    else yearCounts !! y.
Proof.
  unfold countYear, hasYear, chartable.
  destruct (parseInt (movie !! "Year")) as [| |z|]; try by rewrite andb_false_r.
  destruct (Z.eqb_spec z y) as [->|Hne].
  - rewrite andb_true_r. destruct ((1800 <? y)%Z && (y <? 2100)%Z); [|done].
    by rewrite lookup_insert_eq.
  - rewrite andb_false_r. destruct ((1800 <? z)%Z && (z <? 2100)%Z); [|done].
    by rewrite lookup_insert_ne.
Qed.

Lemma fold_countYear_lookup movies yearCounts y :
  fold_left countYear movies yearCounts !! y =
    if chartable y && (0 <? moviesOfYear y movies)%nat
    then Some (default 0 (yearCounts !! y) + moviesOfYear y movies)%nat
    else yearCounts !! y.
Proof.
  revert yearCounts. unfold moviesOfYear.
  induction movies as [|movie movies IH]; intros yearCounts; simpl.
  - by rewrite andb_false_r.
  - rewrite IH, countYear_lookup.
    destruct (chartable y); simpl; [|by destruct (hasYear y movie)].
    destruct (hasYear y movie); simpl.
    + destruct (0 <? _)%nat eqn:E; f_equal; [lia|].
      apply Nat.ltb_ge in E. lia.
    + done.
Qed.

Lemma lookup_yearCounts movies y :
  fold_left countYear movies ∅ !! y =
    if chartable y && (0 <? moviesOfYear y movies)%nat
    then Some (moviesOfYear y movies) else None.
Proof. rewrite fold_countYear_lookup, lookup_empty. done. Qed.

(** Reading back the decimal string of a chartable year. *)
Lemma parseInt_toString y :
  chartable y = true → parseInt (Some (toString y)) = Fin y.
Proof.
  intros Hy. apply andb_true_iff in Hy as [H1 H2].
  apply Z.ltb_lt in H1, H2.
  assert (forallb (fun n => number_eqb (parseInt (Some (toString (Z.of_nat n))))
                              (Fin (Z.of_nat n))) (seq 1801 299) = true) as Hall
    by (vm_compute; reflexivity).
  rewrite forallb_forall in Hall.
  specialize (Hall (Z.to_nat y)). rewrite Z2Nat.id in Hall by lia.
  assert (In (Z.to_nat y) (seq 1801 299)) as Hin by (apply in_seq; lia).
  apply Hall in Hin.
  destruct (parseInt (Some (toString y))) as [| |z|]; try done.
  simpl in Hin. apply Z.eqb_eq in Hin. by subst.
Qed.

#[local] Instance keyLe_trans : Transitive keyLe.
Proof. unfold keyLe. intros x y z. lia. Qed.

#[local] Instance keyLe_total : Total keyLe.
Proof. unfold keyLe. intros x y. lia. Qed.

Lemma sorted_entries_strict (m : gmap Z nat) :
  StronglySorted (fun p q => (p.1 < q.1)%Z) (merge_sort keyLe (map_to_list m)).
Proof.
  pose proof (StronglySorted_merge_sort keyLe (map_to_list m)) as Hs.
  assert (NoDup (merge_sort keyLe (map_to_list m)).*1) as Hnd.
  { rewrite merge_sort_Permutation. apply NoDup_fst_map_to_list. }
  induction Hs as [|p l Hs IH Hp]; [constructor|].
  rewrite fmap_cons in Hnd. apply NoDup_cons in Hnd as [Hnotin Hnd].
  constructor; [by apply IH|].
  rewrite Forall_forall in Hp |- *. intros q Hq.
  specialize (Hp q Hq). unfold keyLe in Hp.
  assert (p.1 ≠ q.1); [|lia].
  intros E. apply Hnotin. rewrite E. by apply list_elem_of_fmap_2.
Qed.

Lemma createChartData_eq movies :
  createChartData movies =
    map pointOf (merge_sort keyLe (map_to_list (yearCountsOf movies))).
Proof.
  unfold createChartData, entries. fold (yearCountsOf movies).
  rewrite map_map. change (fun x => _) with pointOf.
  apply sort_sorted_id.
  assert (Forall (fun p : Z * nat => chartable p.1 = true)
            (merge_sort keyLe (map_to_list (yearCountsOf movies)))) as Hin.
  { rewrite merge_sort_Permutation. apply Forall_forall. intros [y n] Hp.
    apply elem_of_map_to_list in Hp. unfold yearCountsOf in Hp.
    rewrite lookup_yearCounts in Hp. simpl.
    destruct (chartable y); done. }
  pose proof (sorted_entries_strict (yearCountsOf movies)) as Hs.
  apply StronglySorted_Sorted.
  induction Hs as [|p l Hs IH Hp]; [constructor|].
  apply Forall_cons in Hin as [Hp1 Hin].
  simpl. constructor; [by apply IH|].
  rewrite Forall_forall in Hp, Hin. apply Forall_forall. intros q' Hq'.
  apply list_elem_of_fmap in Hq' as (q & -> & Hq).
  unfold byYear, pointOf. cbn [year].
  rewrite !parseInt_toString by auto. rewrite positive_sub_Fin.
  specialize (Hp q Hq). apply Z.ltb_ge. lia.
Qed.

Lemma elem_of_createChartData movies p :
  p ∈ createChartData movies ↔
  ∃ y, chartable y = true ∧ (0 < moviesOfYear y movies)%nat
       ∧ p = {| year := toString y; count := moviesOfYear y movies |}.
Proof.
  rewrite createChartData_eq, list_elem_of_fmap. split.
  - intros ([y n] & -> & Hp). rewrite merge_sort_Permutation in Hp.
    apply elem_of_map_to_list in Hp. unfold yearCountsOf in Hp.
    rewrite lookup_yearCounts in Hp.
    destruct (chartable y) eqn:Hy; [|done].
    destruct (0 <? moviesOfYear y movies)%nat eqn:Hn; [|done].
    simpl in Hp. injection Hp as <-. exists y.
    split; [done|]. split; [by apply Nat.ltb_lt|done].
  - intros (y & Hy & Hn & ->). exists (y, moviesOfYear y movies).
    split; [done|]. rewrite merge_sort_Permutation.
    apply elem_of_map_to_list. unfold yearCountsOf.
    rewrite lookup_yearCounts, Hy. apply Nat.ltb_lt in Hn. by rewrite Hn.
Qed.

Lemma createChartData_ascending movies :
  StronglySorted yearBefore (createChartData movies).
Proof.
  rewrite createChartData_eq.
  assert (Forall (fun p : Z * nat => chartable p.1 = true)
            (merge_sort keyLe (map_to_list (yearCountsOf movies)))) as Hin.
  { rewrite merge_sort_Permutation. apply Forall_forall. intros [y n] Hp.
    apply elem_of_map_to_list in Hp. unfold yearCountsOf in Hp.
    rewrite lookup_yearCounts in Hp. simpl.
    destruct (chartable y); done. }
  pose proof (sorted_entries_strict (yearCountsOf movies)) as Hs.
  induction Hs as [|p l Hs IH Hp]; [constructor|].
  apply Forall_cons in Hin as [Hp1 Hin].
  simpl. constructor; [by apply IH|].
  rewrite Forall_forall in Hp, Hin. apply Forall_forall. intros q' Hq'.
  apply list_elem_of_fmap in Hq' as (q & -> & Hq).
  exists p.1, q.1. unfold pointOf. cbn [year].
  rewrite !parseInt_toString by auto. auto.
Qed.

(** A row whose year the chart does not count leaves [yearCounts] as it is. *)
Lemma countYear_unchartable yearCounts movie :
  (∀ y, chartable y = true → hasYear y movie = false) →
  countYear yearCounts movie = yearCounts.
Proof.
  intros H. unfold countYear.
  destruct (parseInt (movie !! "Year")) as [| |z|] eqn:E; try done.
  destruct ((1800 <? z)%Z && (z <? 2100)%Z) eqn:Hz; [|done].
  specialize (H z Hz). unfold hasYear in H. rewrite E, Z.eqb_refl in H. done.
Qed.

Lemma createChartData_skips_unchartable before movie after :
  (∀ y, chartable y = true → hasYear y movie = false) →
  createChartData (before ++ movie :: after) = createChartData (before ++ after).
Proof.
  intros H. unfold createChartData.
  rewrite !fold_left_app. simpl. by rewrite countYear_unchartable.
Qed.

(** C2: the year aggregation emits one Chart Point for each year, an
    integer strictly between 1800 and 2100, that the Year of some Record
    parses to, with the number of Records of that year as its count, in
    ascending order of the numeric year (so no year twice); a Record whose
    Year is not numeric or out of that range adds to no Chart Point, and
    stays in the qualifying set the upload keeps. *)
Theorem createChartData_counts_movies_by_year :
  (∀ movies,
      (∀ p, p ∈ createChartData movies ↔
            ∃ y, chartable y = true ∧ (0 < moviesOfYear y movies)%nat
                 ∧ p = {| year := toString y; count := moviesOfYear y movies |})
      ∧ StronglySorted yearBefore (createChartData movies))
  ∧ (∀ before movie after,
        (∀ y, chartable y = true → hasYear y movie = false) →
        createChartData (before ++ movie :: after) = createChartData (before ++ after))
  ∧ (∀ file st,
        error (handleFileSelect file st) = None →
        chartData (handleFileSelect file st)
          = createChartData (allMovies (handleFileSelect file st))
        ∧ ∃ text, content file = Some text
            ∧ Kept qualifies (parseCSV text) (allMovies (handleFileSelect file st)))
  ∧ createChartData
      [movieRow "tt1" "1999" "Drama"; movieRow "tt2" "1999" "War";
       movieRow "tt3" "2001" "Drama"]
    = [ {| year := "1999"; count := 2 |}; {| year := "2001"; count := 1 |} ]
  ∧ createChartData
      [movieRow "tt1" "1750" "Drama"; movieRow "tt2" "2200" "War";
       movieRow "tt3" "soon" "Drama"]
    = []
  ∧ filterAndProcessMovies
      [movieRow "tt1" "1750" "Drama"; movieRow "tt2" "2200" "War";
       movieRow "tt3" "soon" "Drama"]
    = [movieRow "tt1" "1750" "Drama"; movieRow "tt2" "2200" "War";
       movieRow "tt3" "soon" "Drama"].
Proof.
  split.
  { intros movies. split; [apply elem_of_createChartData|].
    apply createChartData_ascending. }
  split; [apply createChartData_skips_unchartable|].
  split.
  { intros file st Hok.
    destruct (handleFileSelect_accepted file st Hok)
      as (text & firstRow & rest & Hc & _ & _ & Hall & Hchart).
    split; [done|]. exists text. split; [done|].
    rewrite Hall. apply Kept_filter, isMovie_qualifies. }
  repeat split; vm_compute; reflexivity.
Qed.

Lemma createChartData_unchartable_witness :
  createChartData ([movieRow "tt1" "1999" "Drama"]
                   ++ movieRow "tt2" "1750" "War" :: [movieRow "tt3" "2001" "Drama"])
  = createChartData ([movieRow "tt1" "1999" "Drama"] ++ [movieRow "tt3" "2001" "Drama"]).
Proof.
  apply (proj1 (proj2 createChartData_counts_movies_by_year)).
  intros y Hy. unfold hasYear.
  change (parseInt (movieRow "tt2" "1750" "War" !! "Year")) with (Fin 1750).
  apply andb_true_iff in Hy as [Hy _]. apply Z.ltb_lt in Hy.
  apply Z.eqb_neq. lia.
Defined.

(** ** The free-text search *)

Lemma titleIncludes_spec value movie :
  titleIncludes value movie = true ↔ titleContains value movie.
Proof.
  unfold titleIncludes, titleContains, substring.
  destruct (movie !! "Title") as [title|].
  - rewrite includes_spec. split.
    + intros H. by exists title.
    + intros (t & E & H). by injection E as <-.
  - split; [done|]. by intros (t & E & _).
Qed.

Lemma filterByTitle_total value movies :
  Forall (fun m : IMDbEntry => is_Some (m !! "Title")) movies →
  filterByTitle value movies = Some (List.filter (titleIncludes value) movies).
Proof.
  induction 1 as [|m movies [title Hm] _ IH]; simpl; [done|].
  unfold titleIncludes at 1. rewrite Hm, IH. done.
Qed.

Lemma sort_byRatingDesc_sorted kept :
  Forall (fun m => ∃ z, ratingOf m = Fin z) kept →
  StronglySorted ratingNotBelow (sort byRatingDesc kept).
Proof.
  intros Hr. rewrite Forall_forall in Hr.
  set (key := fun m => match ratingOf m with Fin z => (- z)%Z | _ => 0%Z end).
  apply (StronglySorted_weaken (fun a b => (key a <= key b)%Z)).
  - intros a b Ha Hb Hab. rewrite sort_perm in Ha, Hb.
    destruct (Hr a Ha) as [x Hx], (Hr b Hb) as [y Hy].
    exists x, y. unfold key in Hab. rewrite Hx, Hy in Hab.
    split; [done|]. split; [done|]. lia.
  - apply sort_sorted. intros a b Ha Hb.
    destruct (Hr a Ha) as [x Hx], (Hr b Hb) as [y Hy].
    unfold byRatingDesc, key. rewrite Hx, Hy, positive_sub_Fin.
    destruct (Z.ltb_spec x y), (Z.ltb_spec (- y) (- x)); (done || lia).
Qed.

(** C7: an empty query, or one of white space only, yields no search
    result; any other query yields exactly the Records whose Title
    contains it, letter case apart, in descending order of the numeric
    Your Rating when the rating of every kept Record parses as an
    integer. *)
Theorem handleSearchChange_searches_titles (value : string) (st : AppState) :
  (trim value = EmptyString → searchResults (handleSearchChange value st) = [])
  ∧ (trim value ≠ EmptyString →
     Forall (fun m : IMDbEntry => is_Some (m !! "Title")) (allMovies st) →
     ∃ kept,
       Kept (titleContains value) (allMovies st) kept
       ∧ searchResults (handleSearchChange value st) ≡ₚ kept
       ∧ (Forall (fun m => ∃ z, ratingOf m = Fin z) kept →
          StronglySorted ratingNotBelow (searchResults (handleSearchChange value st))))
  ∧ searchTerm (handleSearchChange value st) = value.
Proof.
  unfold handleSearchChange, searchMovies. cbn [searchResults searchTerm].
  split; [by intros ->|]. split; [|done].
  intros Hv Htitles. apply isEmpty_false in Hv. rewrite Hv.
  rewrite filterByTitle_total by done.
  exists (List.filter (titleIncludes value) (allMovies st)).
  split; [apply Kept_filter, titleIncludes_spec|].
  split; [apply sort_perm|]. apply sort_byRatingDesc_sorted.
Qed.

(** Searching leaves the loaded rows as they are. *)
Lemma handleSearchChange_allMovies value st :
  allMovies (handleSearchChange value st) = allMovies st.
Proof. reflexivity. Qed.

Lemma handleSearchChange_witness :
  ∃ kept,
    Kept (titleContains "AR")
      [ <["Title" := "Star"]> (<["Your Rating" := "7"]> ∅);
        <["Title" := "Moon"]> (<["Your Rating" := "9"]> ∅);
        <["Title" := "Mars"]> (<["Your Rating" := "8"]> ∅) ] kept
    ∧ searchResults (handleSearchChange "AR"
        (loadedState
           [ <["Title" := "Star"]> (<["Your Rating" := "7"]> ∅);
             <["Title" := "Moon"]> (<["Your Rating" := "9"]> ∅);
             <["Title" := "Mars"]> (<["Your Rating" := "8"]> ∅) ])) ≡ₚ kept
    ∧ (Forall (fun m => ∃ z, ratingOf m = Fin z) kept →
       StronglySorted ratingNotBelow
         (searchResults (handleSearchChange "AR"
            (loadedState
               [ <["Title" := "Star"]> (<["Your Rating" := "7"]> ∅);
                 <["Title" := "Moon"]> (<["Your Rating" := "9"]> ∅);
                 <["Title" := "Mars"]> (<["Your Rating" := "8"]> ∅) ])))).
Proof.
  apply (proj1 (proj2 (handleSearchChange_searches_titles "AR" (loadedState _)))).
  - vm_compute. discriminate.
  - repeat constructor; by eexists.
Defined.

(** Ratings above 2^53 are compared as the doubles they parse to: the first
    two rows have the same numeric rating and keep their order. *)
Lemma handleSearchChange_rounded_ratings_example :
  searchResults (handleSearchChange "a"
    (loadedState
       [ <["Title" := "a0"]> (<["Your Rating" := "9007199254740992"]> ∅);
         <["Title" := "a1"]> (<["Your Rating" := "9007199254740993"]> ∅);
         <["Title" := "a2"]> (<["Your Rating" := "3"]> ∅) ]))
  = [ <["Title" := "a0"]> (<["Your Rating" := "9007199254740992"]> ∅);
      <["Title" := "a1"]> (<["Your Rating" := "9007199254740993"]> ∅);
      <["Title" := "a2"]> (<["Your Rating" := "3"]> ∅) ]
  ∧ ratingOf (<["Title" := "a1"]> (<["Your Rating" := "9007199254740993"]> ∅))
    = Fin 9007199254740992.
Proof. split; vm_compute; reflexivity. Qed.

(** The search of the witness, evaluated. *)
Lemma handleSearchChange_example :
  searchResults (handleSearchChange "AR"
    (loadedState
       [ <["Title" := "Star"]> (<["Your Rating" := "7"]> ∅);
         <["Title" := "Moon"]> (<["Your Rating" := "9"]> ∅);
         <["Title" := "Mars"]> (<["Your Rating" := "8"]> ∅) ]))
  = [ <["Title" := "Mars"]> (<["Your Rating" := "8"]> ∅);
      <["Title" := "Star"]> (<["Your Rating" := "7"]> ∅) ].
Proof. vm_compute. reflexivity. Qed.

(** ** The faceted main list *)

Lemma keeps_numeric_year props st movie :
  keeps props st movie = true → isNaN (parseInt (movie !! "Year")) = false.
Proof.
  unfold keeps. cbv zeta. by destruct (isNaN (parseInt (movie !! "Year"))).
Qed.

Lemma keeps_selected_genres props st movie :
  hasColumn props "Genres" = true → selectedGenres st ≠ ∅ →
  keeps props st movie = true →
  selectedGenres st ⊆ list_to_set (genresOf movie).
Proof.
  intros Hg Hsel. unfold keeps. cbv zeta.
  destruct (isNaN _ || _ || _); [done|].
  rewrite Hg.
  assert ((size (selectedGenres st) =? 0)%nat = false) as ->.
  { apply Nat.eqb_neq. rewrite size_empty_iff. by intros ?%leibniz_equiv. }
  cbn [negb andb].
  destruct (forallb _ (elements (selectedGenres st))) eqn:Hall; [|done].
  intros _ g Hgel. rewrite forallb_forall in Hall.
  specialize (Hall g). rewrite bool_decide_eq_true in Hall.
  apply Hall, list_elem_of_In, elem_of_elements, Hgel.
Qed.

Lemma filteredMovies_shown `{Host} props st shown movie :
  filteredMovies props st = Some shown → movie ∈ shown →
  movie ∈ movies props ∧ keeps props st movie = true.
Proof.
  unfold filteredMovies. intros Hs Hm.
  rewrite (sortM_perm _ _ _ Hs) in Hm.
  apply list_elem_of_In, filter_In in Hm as [Hin Hk].
  by apply list_elem_of_In in Hin.
Qed.

Lemma translate_not_War g : translate g ≠ "War".
Proof.
  unfold translate. destruct (genreTranslations !! g) as [t|] eqn:E.
  - assert (t ≠ "War" ∧ t ≠ EmptyString) as [Ht Hne].
    { unfold genreTranslations in E. apply elem_of_list_to_map_2 in E.
      repeat (apply elem_of_cons in E as [E|E];
              [injection E as _ ->; split; vm_compute; discriminate|]).
      by apply elem_of_nil in E. }
    destruct t; done.
  - intros ->. vm_compute in E. discriminate.
Qed.

(** C9: when a Genres column exists and at least one genre is selected, a
    Record is kept only if its comma-separated genre list, each entry
    translated through the localization table when it has a translation,
    contains every selected genre.  The genres are selected through the
    check boxes of the list, which carry the translated names and never the
    name War: for the three rows of the example the boxes are Drama, Komedi
    and Krig, and with the boxes of Drama and of War (Krig) ticked the list
    keeps the row with the genres Drama and War and rejects the row with
    Drama only and the row with War and Comedy. *)
Theorem filteredMovies_requires_every_selected_genre :
  (∀ (H : Host) props st shown movie,
      hasColumn props "Genres" = true → selectedGenres st ≠ ∅ →
      filteredMovies props st = Some shown → movie ∈ shown →
      selectedGenres st ⊆ list_to_set (genresOf movie))
  ∧ allGenres genreProps = list_to_set ["Drama"; "Komedi"; "Krig"]
  ∧ (∀ H : Host,
        filteredMovies genreProps
          (ListControls.handleGenreChange "Krig"
             (ListControls.handleGenreChange "Drama"
                (syncYearRange genreProps initialState)))
        = Some [movieRow "tt2" "2000" "Drama, War"])
  ∧ (∀ props, "War" ∉ allGenres props).
Proof.
  split.
  { intros H props st shown movie Hg Hsel Hs Hm.
    destruct (filteredMovies_shown props st shown movie Hs Hm) as [_ Hk].
    by apply keeps_selected_genres with props. }
  split; [vm_compute; reflexivity|].
  split; [intros H; vm_compute; reflexivity|].
  intros props. unfold allGenres.
  destruct (negb (hasColumn props "Genres")); [apply not_elem_of_empty|].
  rewrite elem_of_list_to_set, list_elem_of_In, in_flat_map.
  intros (movie & _ & Hin). apply list_elem_of_In in Hin.
  unfold listedGenres in Hin.
  destruct (movie !! "Genres") as [g|]; [|by apply elem_of_nil in Hin].
  apply list_elem_of_fmap in Hin as (g' & Hk & _).
  by apply (translate_not_War g').
Qed.

Lemma filteredMovies_selected_genres_witness :
  selectedGenres (ListControls.handleGenreChange "Krig"
                    (ListControls.handleGenreChange "Drama"
                       (syncYearRange genreProps initialState)))
    ⊆ list_to_set (genresOf (movieRow "tt2" "2000" "Drama, War")).
Proof.
  apply (proj1 filteredMovies_requires_every_selected_genre plainHost genreProps
           (ListControls.handleGenreChange "Krig"
              (ListControls.handleGenreChange "Drama"
                 (syncYearRange genreProps initialState)))
           [movieRow "tt2" "2000" "Drama, War"]).
  - vm_compute. reflexivity.
  - vm_compute. discriminate.
  - vm_compute. reflexivity.
  - by left.
Defined.

(** C10: whatever the criteria, the default ones included, the main list
    shows no Record whose Year does not parse (parseInt gives NaN): the
    Year of a Record it shows parses as an integer, or as an infinity when
    it is a numeral beyond the range of the doubles; a qualifying Record
    with a non-numeric Year is in the base set and never in the list. *)
Theorem filteredMovies_excludes_non_numeric_years :
  (∀ (H : Host) props st shown movie,
      filteredMovies props st = Some shown → movie ∈ shown →
      isNaN (parseInt (movie !! "Year")) = false
      ∧ (Notions.finiteYear movie → ∃ y, parseInt (movie !! "Year") = Fin y))
  ∧ (∀ props st movie,
        parseInt (movie !! "Year") = NaN → keeps props st movie = false)
  ∧ filterAndProcessMovies [movieRow "tt1" "soon" "Drama"]
    = [movieRow "tt1" "soon" "Drama"]
  ∧ (∀ (H : Host) cols st,
        filteredMovies {| movies := [movieRow "tt1" "soon" "Drama"]; columns := cols |} st
        = Some []).
Proof.
  split.
  { intros H props st shown movie Hs Hm.
    destruct (filteredMovies_shown props st shown movie Hs Hm) as [_ Hk].
    apply keeps_numeric_year in Hk. split; [done|]. intros [Hp Hn].
    destruct (parseInt (movie !! "Year")) as [| |y|]; try done. by exists y. }
  assert (∀ props st movie,
            parseInt (movie !! "Year") = NaN → keeps props st movie = false) as Hnan.
  { intros props st movie E. unfold keeps. cbv zeta. by rewrite E. }
  split; [exact Hnan|]. split; [vm_compute; reflexivity|].
  intros H cols st. unfold filteredMovies. cbn [movies List.filter].
  rewrite Hnan by (vm_compute; reflexivity). done.
Qed.

Lemma filteredMovies_numeric_year_witness :
  ∃ y, parseInt (movieRow "tt2" "2000" "Drama, War" !! "Year") = Fin y.
Proof.
  apply (proj1 filteredMovies_excludes_non_numeric_years plainHost genreProps
           (selecting ["Drama"; "Krig"]) [movieRow "tt2" "2000" "Drama, War"]).
  - vm_compute. reflexivity.
  - by left.
  - split; vm_compute; discriminate.
Defined.

(** * Further properties *)

Import Modal ListControls Workflow Notions.

(** ** Reading back the decimal string of an integer *)

Lemma digits_string_of_uint d a :
  digits (Some a) (NilEmpty.string_of_uint d) = Some (uintValue d a).
Proof.
  revert a. induction d; intros a; simpl; try done; apply IHd.
Qed.

Lemma uintValue_pos d acc :
  uintValue d (Z.pos acc) = Z.pos (Pos.of_uint_acc d acc).
Proof.
  revert acc. induction d; intros acc; simpl; try done;
    rewrite <- IHd; f_equal; lia.
Qed.

Lemma uintValue_zero d : uintValue d 0 = Z.of_N (Pos.of_uint d).
Proof.
  induction d; simpl; try done; apply uintValue_pos.
Qed.

Lemma digits_to_uint p :
  digits None (NilEmpty.string_of_uint (Pos.to_uint p)) = Some (Z.pos p).
Proof.
  assert (digits None (NilEmpty.string_of_uint (Pos.to_uint p))
          = digits (Some 0%Z) (NilEmpty.string_of_uint (Pos.to_uint p))) as ->.
  { pose proof (Unsigned.to_uint_nonnil p) as Hn.
    destruct (Pos.to_uint p); done. }
  rewrite digits_string_of_uint, uintValue_zero, Unsigned.of_to. done.
Qed.

(** The first code unit of a decimal numeral is a digit. *)
Lemma string_of_uint_head d :
  d ≠ Decimal.Nil →
  ∃ c rest, NilEmpty.string_of_uint d = String c rest
    ∧ isWhiteSpace c = false ∧ Ascii.eqb c "-" = false ∧ Ascii.eqb c "+" = false.
Proof.
  destruct d; [done|..]; intros _; simpl; eauto 10.
Qed.

(** Reading the numeral of an integer gives the Number value of it. *)
Lemma parseIntStr_toString z : parseIntStr (toString z) = roundDouble z.
Proof.
  unfold toString. destruct z as [|p|p]; [done|..]; simpl.
  - pose proof (Unsigned.to_uint_nonnil p) as Hn.
    assert (NilZero.string_of_uint (Pos.to_uint p)
            = NilEmpty.string_of_uint (Pos.to_uint p)) as ->.
    { destruct (Pos.to_uint p); done. }
    pose proof (digits_to_uint p) as Hd.
    destruct (string_of_uint_head _ Hn) as (c & rest & E & Hw & Hm & Hp).
    unfold parseIntStr. rewrite E in Hd |- *. cbn [trimStart].
    rewrite Hw, Hm, Hp, Hd. done.
  - pose proof (Unsigned.to_uint_nonnil p) as Hn.
    assert (NilZero.string_of_uint (Pos.to_uint p)
            = NilEmpty.string_of_uint (Pos.to_uint p)) as ->.
    { destruct (Pos.to_uint p); done. }
    unfold parseIntStr. cbn [trimStart]. change (isWhiteSpace "-") with false.
    cbn iota. change (Ascii.eqb "-" "-") with true. cbn iota.
    rewrite digits_to_uint. done.
Qed.

Lemma roundDouble_not_NaN z : isNaN (roundDouble z) = false.
Proof.
  destruct (Z.lt_ge_cases (Z.abs z) (2 ^ 53)) as [H|H].
  - by rewrite roundDouble_small.
  - destruct (roundDouble_large z H) as (v & _ & ->). by repeat case_match.
Qed.

Lemma toString_nonempty z : isEmpty (toString z) = false.
Proof.
  pose proof (parseIntStr_toString z) as H.
  pose proof (roundDouble_not_NaN z) as Hn.
  destruct (toString z); [|done]. rewrite <- H in Hn. done.
Qed.

(** Below 2^53 [String] writes the plain numeral. *)
Lemma numberToString_safe z :
  (Z.abs z < 2 ^ 53)%Z → numberToString (Fin z) = toString z.
Proof.
  intros Hz. unfold numberToString. cbv zeta.
  rewrite shortest_safe by (by rewrite Z.abs_idemp).
  assert ((Z.abs z <? 10 ^ 21)%Z = true) as ->.
  { apply Z.ltb_lt. assert (2 ^ 53 < 10 ^ 21)%Z by done. lia. }
  destruct z as [|p|p]; [done|done|].
  change (Z.abs (Z.neg p)) with (Z.pos p). change (Z.neg p <? 0)%Z with true.
  cbn iota. by rewrite append_cons, append_nil_l.
Qed.

(** What the year filter makes of a bound that the effect has written into
    the year range. *)
Lemma orElse_numberToString x :
  (∀ z, x = Fin z → (Z.abs z < 2 ^ 53)%Z) →
  orElse (parseIntStr (numberToString x)) x = x.
Proof.
  intros Hx. destruct x as [| |z|]; [done|done| |done].
  rewrite numberToString_safe, parseIntStr_toString, roundDouble_small by auto.
  by destruct z.
Qed.

(** ** The year bounds of the list *)

Lemma lt_trans x y z : lt x y = true → lt y z = true → lt x z = true.
Proof. destruct x, y, z; simpl; try done. rewrite !Z.ltb_lt. lia. Qed.

Lemma lt_irrefl x : lt x x = false.
Proof. destruct x; simpl; try done. apply Z.ltb_irrefl. Qed.

Lemma widen_lower b movie y :
  lt y (widen b movie).1 = true → lt y b.1 = true.
Proof.
  unfold widen. destruct (isNaN (parseInt (movie !! "Year"))); [done|]. cbv zeta.
  destruct (lt (parseInt (movie !! "Year")) b.1) eqn:Hz; cbn [fst]; [|done].
  intros Hy. by apply lt_trans with (parseInt (movie !! "Year")).
Qed.

Lemma widen_upper b movie y :
  gt y (widen b movie).2 = true → gt y b.2 = true.
Proof.
  unfold widen. destruct (isNaN (parseInt (movie !! "Year"))); [done|]. cbv zeta.
  destruct (gt (parseInt (movie !! "Year")) b.2) eqn:Hz; cbn [snd]; [|done].
  unfold gt in *. intros Hy. by apply lt_trans with (parseInt (movie !! "Year")).
Qed.

Lemma widen_covers b movie :
  isNaN (parseInt (movie !! "Year")) = false →
  lt (parseInt (movie !! "Year")) (widen b movie).1 = false
  ∧ gt (parseInt (movie !! "Year")) (widen b movie).2 = false.
Proof.
  intros E. unfold widen. rewrite E. cbv zeta. cbn [fst snd]. split.
  - destruct (lt (parseInt (movie !! "Year")) b.1) eqn:Hl; [apply lt_irrefl|done].
  - destruct (gt (parseInt (movie !! "Year")) b.2) eqn:Hg; [apply lt_irrefl|done].
Qed.

Lemma fold_widen_lower movies b y :
  lt y (fold_left widen movies b).1 = true → lt y b.1 = true.
Proof.
  revert b. induction movies as [|m movies IH]; intros b; simpl; [done|].
  intros H. by apply widen_lower with m, IH.
Qed.

Lemma fold_widen_upper movies b y :
  gt y (fold_left widen movies b).2 = true → gt y b.2 = true.
Proof.
  revert b. induction movies as [|m movies IH]; intros b; simpl; [done|].
  intros H. by apply widen_upper with m, IH.
Qed.

Lemma fold_widen_covers movies b movie :
  movie ∈ movies → isNaN (parseInt (movie !! "Year")) = false →
  lt (parseInt (movie !! "Year")) (fold_left widen movies b).1 = false
  ∧ gt (parseInt (movie !! "Year")) (fold_left widen movies b).2 = false.
Proof.
  revert b. induction movies as [|m movies IH]; intros b Hin E; [by apply elem_of_nil in Hin|].
  simpl. apply elem_of_cons in Hin as [->|Hin]; [|by apply IH].
  destruct (widen_covers b m E) as [Hl Hg]. split.
  - destruct (lt (parseInt (m !! "Year")) (fold_left widen movies (widen b m)).1) eqn:H;
      [|done].
    apply fold_widen_lower in H. congruence.
  - destruct (gt (parseInt (m !! "Year")) (fold_left widen movies (widen b m)).2) eqn:H;
      [|done].
    apply fold_widen_upper in H. congruence.
Qed.

(** The first Year that parses replaces both initial bounds, an infinite
    one included. *)
Lemma widen_initial z :
  isNaN z = false →
  (if lt z PosInf then z else PosInf) = z ∧ (if gt z NegInf then z else NegInf) = z.
Proof. by destruct z. Qed.

Lemma fold_widen_boundsOf movies :
  boundsOf movies (fold_left widen movies (PosInf, NegInf)).
Proof.
  induction movies as [|m movies IH] using rev_ind.
  - left. split; [done|constructor].
  - rewrite fold_left_app. cbn [fold_left].
    set (b := fold_left widen movies (PosInf, NegInf)) in *.
    unfold widen. destruct (isNaN (parseInt (m !! "Year"))) eqn:E.
    + destruct IH as [[Hb Hall]|(mlo & mhi & H1 & H2 & E1 & E2 & Hb)].
      * left. split; [done|]. apply Forall_app. split; [done|].
        constructor; [|constructor]. by destruct (parseInt (m !! "Year")).
      * right. exists mlo, mhi. rewrite !elem_of_app. tauto.
    + right. cbv zeta.
      destruct IH as [[Hb Hall]|(mlo & mhi & H1 & H2 & E1 & E2 & Hb)]; rewrite Hb; cbn [fst snd].
      * destruct (widen_initial _ E) as [-> ->].
        exists m, m. rewrite !elem_of_app, !list_elem_of_singleton. tauto.
      * destruct (lt (parseInt (m !! "Year")) (parseInt (mlo !! "Year"))),
                 (gt (parseInt (m !! "Year")) (parseInt (mhi !! "Year")));
          [exists m, m | exists m, mhi | exists mlo, m | exists mlo, mhi];
          rewrite !elem_of_app, !list_elem_of_singleton; tauto.
Qed.

(** ** The filter of the list, facet by facet *)

Lemma size_zero_gset (s : gset string) : (size s =? 0)%nat = true ↔ s = ∅.
Proof.
  rewrite Nat.eqb_eq, size_empty_iff. split; [by intros ?%leibniz_equiv|by intros ->].
Qed.

Lemma forallb_elements (s t : gset string) :
  forallb (fun g => bool_decide (g ∈ t)) (elements s) = true ↔ s ⊆ t.
Proof.
  rewrite forallb_forall. split.
  - intros H g Hg. specialize (H g). rewrite bool_decide_eq_true in H.
    apply H, list_elem_of_In, elem_of_elements, Hg.
  - intros H g Hg. apply bool_decide_eq_true, H.
    by apply elem_of_elements, list_elem_of_In.
Qed.

(** The filter of the list, facet by facet. *)
Lemma keeps_iff props st movie :
  keeps props st movie = true ↔
  (isNaN (parseInt (movie !! "Year")) = false
   ∧ lt (parseInt (movie !! "Year")) (lowerBound props st) = false
   ∧ gt (parseInt (movie !! "Year")) (upperBound props st) = false)
  ∧ (hasColumn props "Genres" = true → selectedGenres st ≠ ∅ →
     selectedGenres st ⊆ list_to_set (genresOf movie))
  ∧ (selectedRatings st ≠ ∅ →
     ∃ r, movie !! "Your Rating" = Some r ∧ r ∈ selectedRatings st)
  ∧ (hasColumn props "Directors" = true → directorQuery st ≠ EmptyString →
     includes (directorsOf movie) (directorQuery st) = true).
Proof.
  unfold keeps. cbv zeta.
  fold (lowerBound props st) (upperBound props st) (directorQuery st) (directorsOf movie).
  destruct (isNaN (parseInt (movie !! "Year"))) eqn:E; cbn [orb].
  { split; [done|]. by intros [(Hy & _) _]. }
  destruct (lt (parseInt (movie !! "Year")) (lowerBound props st)) eqn:Hlo; cbn [orb].
  { split; [done|]. by intros [(_ & Hl & _) _]. }
  destruct (gt (parseInt (movie !! "Year")) (upperBound props st)) eqn:Hhi; cbn [orb].
  { split; [done|]. by intros [(_ & _ & Hg) _]. }
  assert ((false = false ∧ false = false ∧ false = false) ↔ True) as -> by tauto.
  destruct (hasColumn props "Genres" && negb (size (selectedGenres st) =? 0)%nat
            && negb (forallb _ (elements (selectedGenres st)))) eqn:Hg.
  { split; [done|]. intros (_ & Hgen & _). exfalso.
    apply andb_true_iff in Hg as [Hg Hall]. apply andb_true_iff in Hg as [Hc Hs].
    apply negb_true_iff in Hs, Hall.
    assert (selectedGenres st ≠ ∅) as Hne.
    { intros He. apply size_zero_gset in He. congruence. }
    apply Hgen, forallb_elements in Hne; [|done]. congruence. }
  assert ((hasColumn props "Genres" = true → selectedGenres st ≠ ∅ →
           selectedGenres st ⊆ list_to_set (genresOf movie)) ↔ True) as ->.
  { split; [done|]. intros _ Hc Hne. apply forallb_elements.
    rewrite Hc in Hg. cbn [andb] in Hg.
    destruct (size (selectedGenres st) =? 0)%nat eqn:Hs.
    - apply size_zero_gset in Hs. done.
    - cbn [negb andb] in Hg. by apply negb_false_iff in Hg. }
  destruct (negb (size (selectedRatings st) =? 0)%nat && _) eqn:Hr.
  { split; [done|]. intros (_ & _ & Hrat & _). exfalso.
    apply andb_true_iff in Hr as [Hs Hin]. apply negb_true_iff in Hs, Hin.
    assert (selectedRatings st ≠ ∅) as Hne.
    { intros He. apply size_zero_gset in He. congruence. }
    destruct (Hrat Hne) as (r & Er & Hrin). rewrite Er in Hin.
    by apply bool_decide_eq_false in Hin. }
  assert ((selectedRatings st ≠ ∅ →
           ∃ r, movie !! "Your Rating" = Some r ∧ r ∈ selectedRatings st) ↔ True) as ->.
  { split; [done|]. intros _ Hne.
    destruct (size (selectedRatings st) =? 0)%nat eqn:Hs.
    - apply size_zero_gset in Hs. done.
    - cbn [negb andb] in Hr. apply negb_false_iff in Hr.
      destruct (movie !! "Your Rating") as [r|]; [|done].
      exists r. split; [done|]. by apply bool_decide_eq_true in Hr. }
  destruct (hasColumn props "Directors") eqn:Hd; cbn [andb].
  2:{ split; [|done]. intros _. repeat split; done. }
  destruct (isEmpty (directorQuery st)) eqn:Hq; cbn [negb andb].
  { split; [|done]. intros _. repeat split; try done.
    intros _ Hne. destruct (directorQuery st); done. }
  destruct (includes (directorsOf movie) (directorQuery st)) eqn:Hi; cbn [negb].
  - split; [|done]. intros _. repeat split; done.
  - split; [done|]. intros (_ & _ & _ & Hdir). exfalso.
    assert (directorQuery st ≠ EmptyString) as Hne by (by destruct (directorQuery st)).
    specialize (Hdir eq_refl Hne). congruence.
Qed.

(** ** Filtering and sorting, in general *)

Lemma filteredMovies_elem `{Host} props st shown movie :
  filteredMovies props st = Some shown →
  movie ∈ shown ↔ movie ∈ movies props ∧ keeps props st movie = true.
Proof.
  unfold filteredMovies. intros Hs. rewrite (sortM_perm _ _ _ Hs).
  by rewrite list_elem_of_In, filter_In, <- list_elem_of_In.
Qed.

(** With Years below 2^53 the bounds are below 2^53 where they are
    integers. *)
Lemma yearBounds_safe props z :
  Forall safeYear (movies props) →
  (yearBounds props).1 = Fin z ∨ (yearBounds props).2 = Fin z → (Z.abs z < 2 ^ 53)%Z.
Proof.
  intros Hsafe. rewrite Forall_forall in Hsafe. unfold yearBounds.
  destruct (negb (hasColumn props "Genres")); [by intros [?|?]|].
  destruct (fold_widen_boundsOf (movies props))
    as [[-> _]|(mlo & mhi & H1 & H2 & _ & _ & ->)]; [by intros [?|?]|].
  cbn [fst snd]. intros [E|E]; [by apply (Hsafe mlo)|by apply (Hsafe mhi)].
Qed.

Lemma filteredMovies_syncYearRange `{Host} props st :
  Forall safeYear (movies props) →
  filteredMovies props (syncYearRange props (withoutYearRange st))
  = filteredMovies props (withoutYearRange st).
Proof.
  intros Hsafe. unfold syncYearRange. cbv zeta.
  destruct (negb (number_eqb (yearBounds props).1 PosInf)
            && negb (number_eqb (yearBounds props).2 NegInf)); [|done].
  unfold filteredMovies. f_equal.
  apply filter_ext. intros movie. unfold keeps. cbv zeta.
  cbn [yearRange min max withoutYearRange selectedGenres selectedRatings directorSearchTerm].
  rewrite !orElse_numberToString
    by (intros z E; apply (yearBounds_safe props z Hsafe); auto).
  done.
Qed.

Lemma filter_none {A} (f : A → bool) l :
  (∀ x, x ∈ l → f x = false) → List.filter f l = [].
Proof.
  induction l as [|x l IH]; intros Hf; simpl; [done|].
  rewrite Hf by (by left). apply IH. intros y Hy. apply Hf. by right.
Qed.

Lemma insertM_ext {A} (c1 c2 : A → A → option number) x l :
  (∀ a b, c1 a b = c2 a b) → insertM c1 x l = insertM c2 x l.
Proof.
  intros Hc. induction l as [|y l IH]; simpl; [done|]. by rewrite Hc, IH.
Qed.

Lemma sortM_ext {A} (c1 c2 : A → A → option number) l :
  (∀ a b, c1 a b = c2 a b) → sortM c1 l = sortM c2 l.
Proof.
  intros Hc. induction l as [|x l IH]; simpl; [done|]. rewrite IH.
  destruct (sortM c2 l); [|done]. by apply insertM_ext.
Qed.

(** A sort whose comparator never throws yields a list. *)
Lemma sortM_pure {A} (cmp : A → A → option number) (pure : A → A → number) l :
  (∀ a b, cmp a b = Some (pure a b)) → sortM cmp l = Some (sort pure l).
Proof.
  intros Hc. rewrite (sortM_ext cmp (fun a b => Some (pure a b))) by done.
  apply sortM_total.
Qed.

Lemma insertM_is_Some {A} (cmp : A → A → option number) x l :
  (∀ y, y ∈ l → is_Some (cmp x y)) → is_Some (insertM cmp x l).
Proof.
  induction l as [|y l IH]; intros Hc; simpl; [done|].
  destruct (Hc y) as [v ->]; [by left|].
  destruct (positive v); [|done].
  destruct IH as [r ->]; [|done]. intros z Hz. apply Hc. by right.
Qed.

Lemma sortM_is_Some {A} (cmp : A → A → option number) l :
  (∀ x y, x ∈ l → y ∈ l → is_Some (cmp x y)) → is_Some (sortM cmp l).
Proof.
  induction l as [|x l IH]; intros Hc; simpl; [done|].
  destruct IH as [r Hr]; [intros; apply Hc; by right|]. rewrite Hr.
  apply insertM_is_Some. intros y Hy. rewrite (sortM_perm _ _ _ Hr) in Hy.
  apply Hc; [by left|by right].
Qed.

Lemma sort_constant {A} (l : list A) : sort (fun _ _ => Fin 0) l = l.
Proof.
  apply sort_sorted_id. induction l as [|x l IH]; constructor; [done|].
  destruct l; by constructor.
Qed.

Lemma toLowerCase_empty s : toLowerCase s = EmptyString ↔ s = EmptyString.
Proof. destruct s; simpl; split; done. Qed.

(** ** The year range of the list *)

(** X1: when every Year that parses as an integer is below 2^53 in
    magnitude, the effect that copies the year bounds of the rows into the
    year range changes nothing in what the list shows when the range was
    empty, whatever the other facets and the sort option are.  Not so for
    a Year of 22 digits: the effect writes the bound 10^21 in exponent
    form, the filter reads it back as 1, and the list loses its row. *)
Theorem syncYearRange_shows_the_same_rows :
  (∀ (H : Host) props st,
      Forall safeYear (movies props) →
      filteredMovies props (syncYearRange props (withoutYearRange st))
      = filteredMovies props (withoutYearRange st))
  ∧ (∀ H : Host,
        let props := {| movies := [movieRow "tt1" "1000000000000000000000" "Drama"];
                        columns := columns genreProps |} in
        yearRange (syncYearRange props initialState)
          = {| min := "1e+21"; max := "1e+21" |}
        ∧ filteredMovies props initialState = Some (movies props)
        ∧ filteredMovies props (syncYearRange props initialState) = Some []).
Proof.
  split; [intros H props st; apply filteredMovies_syncYearRange|].
  intros H. cbv zeta. split; [vm_compute; reflexivity|].
  split; vm_compute; reflexivity.
Qed.

Lemma syncYearRange_witness :
  @filteredMovies plainHost genreProps
    (syncYearRange genreProps (withoutYearRange (selecting ["Drama"])))
  = @filteredMovies plainHost genreProps (withoutYearRange (selecting ["Drama"])).
Proof.
  apply (proj1 syncYearRange_shows_the_same_rows).
  repeat constructor; intros y E; vm_compute in E; injection E as <-; done.
Defined.

Lemma keeps_unbounded props st movie :
  hasColumn props "Genres" = false → keeps props st movie = true →
  (min (yearRange st) = EmptyString → parseInt (movie !! "Year") = PosInf)
  ∧ (max (yearRange st) = EmptyString → parseInt (movie !! "Year") = NegInf).
Proof.
  intros Hg Hk. apply keeps_iff in Hk as [(Hy & Hlo & Hhi) _].
  unfold lowerBound, upperBound, yearBounds in Hlo, Hhi. rewrite Hg in Hlo, Hhi.
  cbn [negb fst snd] in Hlo, Hhi. split; intros E; rewrite E in *.
  - by destruct (parseInt (movie !! "Year")).
  - by destruct (parseInt (movie !! "Year")).
Qed.

(** X2: when the file has no Genres column the year bounds are never computed
    and stay infinite, so the list shows no row at all while both year
    inputs are empty, and also while one of them is empty when no Year
    parses as an infinity. *)
Theorem filteredMovies_without_genres_column `{Host} props st :
  hasColumn props "Genres" = false →
  (min (yearRange st) = EmptyString ∧ max (yearRange st) = EmptyString)
  ∨ ((min (yearRange st) = EmptyString ∨ max (yearRange st) = EmptyString)
     ∧ Forall finiteYear (movies props)) →
  filteredMovies props st = Some [].
Proof.
  intros Hg Hr. unfold filteredMovies.
  rewrite filter_none; [done|]. intros movie Hin.
  destruct (keeps props st movie) eqn:Hk; [|done]. exfalso.
  destruct (keeps_unbounded props st movie Hg Hk) as [Hmin Hmax].
  destruct Hr as [[E1 E2]|[Hr Hfin]].
  - rewrite (Hmin E1) in Hmax. by specialize (Hmax E2).
  - rewrite Forall_forall in Hfin. destruct (Hfin movie Hin) as [Hp Hn].
    destruct Hr as [E|E]; [by apply Hp, Hmin|by apply Hn, Hmax].
Qed.

Lemma filteredMovies_without_genres_column_witness :
  @filteredMovies plainHost
    {| movies := [movieRow "tt1" "1999" "Drama"];
       columns := ["Const"; "Title"; "Title Type"; "Year"; "Your Rating"] |}
    (handleYearChange "max" "2005" initialState) = Some [].
Proof.
  apply filteredMovies_without_genres_column; [reflexivity|].
  right. split; [by left|].
  repeat constructor; vm_compute; discriminate.
Defined.

Lemma keeps_default props st movie :
  hasColumn props "Genres" = true →
  selectedGenres st = ∅ → selectedRatings st = ∅ →
  yearRange st = {| min := EmptyString; max := EmptyString |} →
  trim (directorSearchTerm st) = EmptyString →
  movie ∈ movies props →
  keeps props st movie = numericYear movie.
Proof.
  intros Hg Hsg Hsr Hyr Hd Hin. unfold numericYear.
  destruct (isNaN (parseInt (movie !! "Year"))) eqn:E; cbn [negb].
  { unfold keeps. cbv zeta. by rewrite E. }
  apply keeps_iff. split; [|split; [|split]].
  - split; [done|]. unfold lowerBound, upperBound, yearBounds.
    rewrite Hyr, Hg. cbn [negb min max]. change (parseIntStr EmptyString) with NaN.
    cbn [orElse]. by apply fold_widen_covers.
  - by intros _ ?.
  - by intros ?.
  - intros _. unfold directorQuery. by rewrite Hd.
Qed.

(** X3: with a Genres column the list in its starting state shows every row
    whose Year parses as a number and no other row, and so it does after
    the effect has filled the year inputs when every Year that parses as an
    integer is below 2^53 in magnitude. *)
Theorem filteredMovies_default_shows_numeric_years `{Host} props :
  hasColumn props "Genres" = true →
  ∃ shown,
    filteredMovies props initialState = Some shown
    ∧ shown ≡ₚ List.filter numericYear (movies props)
    ∧ (Forall safeYear (movies props) →
       filteredMovies props (syncYearRange props initialState) = Some shown).
Proof.
  intros Hg.
  assert (filteredMovies props initialState
          = Some (sort byRatingDesc (List.filter numericYear (movies props)))) as E.
  { unfold filteredMovies.
    rewrite (filter_ext_in (keeps props initialState) numericYear).
    - by apply sortM_pure.
    - intros movie Hin. apply keeps_default; try done. by apply list_elem_of_In. }
  exists (sort byRatingDesc (List.filter numericYear (movies props))).
  split; [done|]. split; [apply sort_perm|]. intros Hsafe.
  change initialState with (withoutYearRange initialState) at 1.
  by rewrite filteredMovies_syncYearRange.
Qed.

Lemma filteredMovies_default_witness :
  ∃ shown,
    @filteredMovies plainHost ratedProps initialState = Some shown
    ∧ shown ≡ₚ List.filter numericYear (movies ratedProps)
    ∧ (Forall safeYear (movies ratedProps) →
       @filteredMovies plainHost ratedProps (syncYearRange ratedProps initialState)
       = Some shown).
Proof. apply filteredMovies_default_shows_numeric_years. reflexivity. Defined.

(** X4: with a Genres column the year bounds are the initial ones, Infinity
    and -Infinity, when no Year parses as a number, and otherwise the
    parsed Years of two rows; no row with a numeric Year lies below the
    lower or above the upper bound, so bounds that are integers enclose
    every Year that parses as an integer. *)
Theorem yearBounds_are_the_extreme_years props :
  hasColumn props "Genres" = true →
  boundsOf (movies props) (yearBounds props)
  ∧ (∀ movie,
       movie ∈ movies props → isNaN (parseInt (movie !! "Year")) = false →
       lt (parseInt (movie !! "Year")) (yearBounds props).1 = false
       ∧ gt (parseInt (movie !! "Year")) (yearBounds props).2 = false)
  ∧ (∀ lo hi movie y,
       yearBounds props = (Fin lo, Fin hi) →
       movie ∈ movies props → parseInt (movie !! "Year") = Fin y →
       (lo <= y <= hi)%Z).
Proof.
  intros Hg. unfold yearBounds. rewrite Hg. cbn [negb].
  split; [apply fold_widen_boundsOf|].
  split; [intros movie Hin Hy; by apply fold_widen_covers|].
  intros lo hi movie y Hb Hin Hy.
  destruct (fold_widen_covers (movies props) (PosInf, NegInf) movie Hin) as [H1 H2];
    [by rewrite Hy|].
  rewrite Hb, Hy in H1, H2. unfold gt in H2. cbn in H1, H2.
  apply Z.ltb_ge in H1, H2. lia.
Qed.

Lemma yearBounds_witness :
  boundsOf (movies ratedProps) (yearBounds ratedProps)
  ∧ (∀ movie,
       movie ∈ movies ratedProps → isNaN (parseInt (movie !! "Year")) = false →
       lt (parseInt (movie !! "Year")) (yearBounds ratedProps).1 = false
       ∧ gt (parseInt (movie !! "Year")) (yearBounds ratedProps).2 = false)
  ∧ (∀ lo hi movie y,
       yearBounds ratedProps = (Fin lo, Fin hi) →
       movie ∈ movies ratedProps → parseInt (movie !! "Year") = Fin y →
       (lo <= y <= hi)%Z).
Proof. apply yearBounds_are_the_extreme_years. reflexivity. Defined.

(** ** The genre selection *)

(** X5: selecting more genres never adds a row: a row shown under a genre
    selection is shown under every smaller one, the other facets and the
    sort option unchanged. *)
Theorem filteredMovies_more_genres_fewer_rows `{Host} props st genres shown shown' movie :
  selectedGenres st ⊆ genres →
  filteredMovies props st = Some shown →
  filteredMovies props (withGenres genres st) = Some shown' →
  movie ∈ shown' → movie ∈ shown.
Proof.
  intros Hsub Hs Hs' Hm.
  apply (filteredMovies_elem _ _ _ _ Hs') in Hm as [Hin Hk].
  apply (filteredMovies_elem _ _ _ _ Hs). split; [done|].
  apply keeps_iff in Hk as (Hy & Hg & Hr & Hd). apply keeps_iff.
  split; [exact Hy|]. split; [|split; [exact Hr|exact Hd]].
  intros Hc Hne. etrans; [exact Hsub|]. apply Hg; [done|].
  cbn [selectedGenres withGenres]. intros ->. apply Hne.
  apply leibniz_equiv, elem_of_equiv_empty. intros g Hgin.
  by apply Hsub, elem_of_empty in Hgin.
Qed.

Lemma filteredMovies_more_genres_witness :
  movieRow "tt2" "2000" "Drama, War"
    ∈ [movieRow "tt1" "2000" "Drama"; movieRow "tt2" "2000" "Drama, War"].
Proof.
  apply (@filteredMovies_more_genres_fewer_rows plainHost genreProps
           (selecting ["Drama"]) (list_to_set ["Drama"; "Krig"])
           _ [movieRow "tt2" "2000" "Drama, War"]).
  - apply (bool_decide_unpack _). vm_compute. exact I.
  - vm_compute. reflexivity.
  - vm_compute. reflexivity.
  - by left.
Defined.

Lemma translate_empty t : translate t = EmptyString → t = EmptyString.
Proof.
  unfold translate. destruct (genreTranslations !! t) as [v|] eqn:E; [|done].
  destruct v; [done|]. discriminate.
Qed.

Lemma genresOf_listed movie g :
  g ∈ genresOf movie → g ≠ EmptyString → g ∈ listedGenres movie.
Proof.
  unfold genresOf, listedGenres. destruct (movie !! "Genres") as [gs|]; [|done].
  intros (t & -> & Ht)%list_elem_of_fmap Hne.
  apply list_elem_of_fmap. exists t. split; [done|].
  apply list_elem_of_In, filter_In. split; [by apply list_elem_of_In|].
  destruct t; [|done]. by exfalso.
Qed.

(** X6: with a Genres column, a selection that holds a non-empty genre which
    is none of the genres offered as check boxes shows no row. *)
Theorem filteredMovies_unlisted_genre_shows_nothing `{Host} props st genre :
  hasColumn props "Genres" = true →
  genre ∈ selectedGenres st → genre ≠ EmptyString → genre ∉ allGenres props →
  filteredMovies props st = Some [].
Proof.
  intros Hc Hsel Hne Hnot. unfold filteredMovies.
  rewrite filter_none; [done|]. intros movie Hin.
  destruct (keeps props st movie) eqn:Hk; [|done]. exfalso.
  apply keeps_iff in Hk as (_ & Hg & _).
  apply Hnot. unfold allGenres. rewrite Hc. cbn [negb].
  apply elem_of_list_to_set, list_elem_of_In, in_flat_map.
  exists movie. split; [by apply list_elem_of_In|].
  apply list_elem_of_In, genresOf_listed; [|done].
  assert (genre ∈ (list_to_set (genresOf movie) : gset string)) as Hgin.
  { apply Hg; [done| |done].
    intros He. rewrite He in Hsel. by apply elem_of_empty in Hsel. }
  by apply elem_of_list_to_set in Hgin.
Qed.

Lemma filteredMovies_unlisted_genre_witness :
  @filteredMovies plainHost genreProps (selecting ["Western"]) = Some [].
Proof.
  apply (@filteredMovies_unlisted_genre_shows_nothing plainHost genreProps
           (selecting ["Western"]) "Western").
  - reflexivity.
  - apply (bool_decide_unpack _). vm_compute. exact I.
  - discriminate.
  - apply (bool_decide_unpack _). vm_compute. exact I.
Defined.

(** ** The other facets and the order of the list *)

(** X7: a row the list shows has, when ratings are selected, a Your Rating
    among them, and, when the file has a Directors column and the director
    search is not blank, Directors that contain the trimmed search, letter
    case apart. *)
Theorem filteredMovies_rating_and_director_facets `{Host} props st shown movie :
  filteredMovies props st = Some shown → movie ∈ shown →
  (selectedRatings st ≠ ∅ →
   ∃ r, movie !! "Your Rating" = Some r ∧ r ∈ selectedRatings st)
  ∧ (hasColumn props "Directors" = true →
     trim (directorSearchTerm st) ≠ EmptyString →
     substring (toLowerCase (trim (directorSearchTerm st)))
       (toLowerCase (default EmptyString (movie !! "Directors")))).
Proof.
  intros Hs Hm. apply (filteredMovies_elem _ _ _ _ Hs) in Hm as [_ Hk].
  apply keeps_iff in Hk as (_ & _ & Hr & Hd). split; [exact Hr|].
  intros Hc Hne. apply includes_spec.
  replace (toLowerCase (default EmptyString (movie !! "Directors")))
    with (directorsOf movie) by (unfold directorsOf; by destruct (movie !! "Directors")).
  apply Hd; [done|]. unfold directorQuery. by rewrite toLowerCase_empty.
Qed.

Lemma filteredMovies_facets_witness :
  (∃ r, ratedRow "tt1" "1999" "8" "Action, Sci-Fi" "Lana Wachowski, Lilly Wachowski"
          !! "Your Rating" = Some r
        ∧ r ∈ selectedRatings ratedState)
  ∧ substring (toLowerCase (trim (directorSearchTerm ratedState)))
      (toLowerCase
         (default EmptyString
            (ratedRow "tt1" "1999" "8" "Action, Sci-Fi" "Lana Wachowski, Lilly Wachowski"
               !! "Directors"))).
Proof.
  destruct (@filteredMovies_rating_and_director_facets plainHost ratedProps ratedState
              [ratedRow "tt1" "1999" "8" "Action, Sci-Fi" "Lana Wachowski, Lilly Wachowski"]
              (ratedRow "tt1" "1999" "8" "Action, Sci-Fi" "Lana Wachowski, Lilly Wachowski"))
    as [Hrating Hdirector].
  - vm_compute. reflexivity.
  - by left.
  - split.
    + apply Hrating. vm_compute. discriminate.
    + apply Hdirector; [reflexivity|]. vm_compute. discriminate.
Defined.

(** X8: when both year inputs read as integers other than 0, every row the
    list shows has a numeric Year between the two, bounds included. *)
Theorem filteredMovies_typed_year_range `{Host} props st shown movie lo hi :
  parseIntStr (min (yearRange st)) = Fin lo → lo ≠ 0%Z →
  parseIntStr (max (yearRange st)) = Fin hi → hi ≠ 0%Z →
  filteredMovies props st = Some shown → movie ∈ shown →
  ∃ y, parseInt (movie !! "Year") = Fin y ∧ (lo <= y <= hi)%Z.
Proof.
  intros Hlo Hlo0 Hhi Hhi0 Hs Hm.
  apply (filteredMovies_elem _ _ _ _ Hs) in Hm as [_ Hk].
  apply keeps_iff in Hk as ((Hy & H1 & H2) & _).
  unfold lowerBound, upperBound in H1, H2. rewrite Hlo in H1. rewrite Hhi in H2.
  assert (orElse (Fin lo) (yearBounds props).1 = Fin lo) as El by (by destruct lo).
  assert (orElse (Fin hi) (yearBounds props).2 = Fin hi) as Eh by (by destruct hi).
  rewrite El in H1. rewrite Eh in H2. unfold gt in H2.
  destruct (parseInt (movie !! "Year")) as [| |y|]; try done.
  exists y. split; [done|]. cbn in H1, H2. apply Z.ltb_ge in H1, H2. lia.
Qed.

Lemma filteredMovies_typed_year_range_witness :
  ∃ y, parseInt (ratedRow "tt2" "2001" "9" "Adventure, Fantasy" "Peter Jackson" !! "Year")
       = Fin y
       ∧ (2000 <= y <= 2002)%Z.
Proof.
  apply (@filteredMovies_typed_year_range plainHost ratedProps
           (handleYearChange "max" "2002" (handleYearChange "min" "2000" initialState))
           [ratedRow "tt2" "2001" "9" "Adventure, Fantasy" "Peter Jackson"]).
  - reflexivity.
  - discriminate.
  - reflexivity.
  - discriminate.
  - vm_compute. reflexivity.
  - by left.
Defined.

Lemma comparator_year_asc `{Host} props st a b :
  sortBy st = year_asc →
  comparator props st a b
  = Some (sub (parseInt (a !! "Year")) (parseInt (b !! "Year"))).
Proof. unfold comparator. by intros ->. Qed.

Lemma comparator_year_desc `{Host} props st a b :
  sortBy st = year_desc →
  comparator props st a b
  = Some (sub (parseInt (b !! "Year")) (parseInt (a !! "Year"))).
Proof. unfold comparator. by intros ->. Qed.

Lemma positive_sub x y :
  isNaN x = false → isNaN y = false → positive (sub x y) = lt y x.
Proof.
  destruct x as [| |a|], y as [| |b|]; try done. intros _ _. apply positive_sub_Fin.
Qed.

Lemma notAbove_trans x y z : notAbove x y → notAbove y z → notAbove x z.
Proof.
  unfold notAbove. intros (Hx & Hy & Hxy) (_ & Hz & Hyz).
  split; [done|]. split; [done|].
  destruct x, y, z; simpl in *; try done. rewrite Z.ltb_ge in *. lia.
Qed.

Lemma lt_notAbove x y : lt x y = true → notAbove x y.
Proof.
  unfold notAbove. destruct x, y; simpl; try done.
  rewrite Z.ltb_lt, Z.ltb_ge. lia.
Qed.

(** Sorting with a comparator that follows a transitive order. *)
Lemma insert_sorted_by {A} (le : A → A → Prop) (cmp : A → A → number) x l :
  (∀ a b c, le a b → le b c → le a c) →
  (∀ y, y ∈ l → if positive (cmp x y) then le y x else le x y) →
  StronglySorted le l → StronglySorted le (insert cmp x l).
Proof.
  intros Htrans Hc Hs. induction Hs as [|y l Hs IH Hy]; simpl.
  - repeat constructor.
  - pose proof (Hc y ltac:(by left)) as Hxy.
    destruct (positive (cmp x y)).
    + constructor.
      * apply IH. intros z Hz. apply Hc. by right.
      * rewrite insert_perm. by constructor.
    + constructor; [by constructor|].
      constructor; [done|].
      eapply Forall_impl; [exact Hy|]. intros z Hz. by apply Htrans with y.
Qed.

Lemma sort_sorted_by {A} (le : A → A → Prop) (cmp : A → A → number) l :
  (∀ a b c, le a b → le b c → le a c) →
  (∀ x y, x ∈ l → y ∈ l → if positive (cmp x y) then le y x else le x y) →
  StronglySorted le (sort cmp l).
Proof.
  intros Htrans. induction l as [|x l IH]; intros Hc; simpl; [constructor|].
  apply insert_sorted_by; [done| |].
  - intros y Hy. rewrite sort_perm in Hy. apply Hc; [by left|by right].
  - apply IH. intros a b Ha Hb. apply Hc; by right.
Qed.

(** X9: sorted by year, ascending or descending, the list is shown in that
    order of the numeric Year (every kept row has one; an infinite Year
    stands at its end of the list). *)
Theorem filteredMovies_sorted_by_year `{Host} props st :
  (sortBy st = year_asc →
   ∃ shown, filteredMovies props st = Some shown ∧ StronglySorted yearNotAbove shown)
  ∧ (sortBy st = year_desc →
     ∃ shown, filteredMovies props st = Some shown ∧ StronglySorted yearNotBelow shown).
Proof.
  assert (∀ m, m ∈ List.filter (keeps props st) (movies props) →
               isNaN (parseInt (m !! "Year")) = false) as Hnum.
  { intros m Hm. apply list_elem_of_In, filter_In in Hm as [_ Hk].
    by apply keeps_numeric_year in Hk. }
  split; intros Hsort; unfold filteredMovies.
  - rewrite (sortM_pure _ (fun a b => sub (parseInt (a !! "Year")) (parseInt (b !! "Year"))))
      by (intros; by apply comparator_year_asc).
    eexists. split; [done|]. apply sort_sorted_by.
    + intros a b c. apply notAbove_trans.
    + intros a b Ha Hb. rewrite positive_sub by auto. unfold yearNotAbove.
      destruct (lt (parseInt (b !! "Year")) (parseInt (a !! "Year"))) eqn:E.
      * by apply lt_notAbove.
      * unfold notAbove. auto.
  - rewrite (sortM_pure _ (fun a b => sub (parseInt (b !! "Year")) (parseInt (a !! "Year"))))
      by (intros; by apply comparator_year_desc).
    eexists. split; [done|]. apply sort_sorted_by.
    + intros a b c Hab Hbc. unfold yearNotBelow, yearNotAbove in *.
      by apply notAbove_trans with (parseInt (b !! "Year")).
    + intros a b Ha Hb. rewrite positive_sub by auto. unfold yearNotBelow, yearNotAbove.
      destruct (lt (parseInt (a !! "Year")) (parseInt (b !! "Year"))) eqn:E.
      * by apply lt_notAbove.
      * unfold notAbove. auto.
Qed.

(** X10: when every Your Rating parses as an integer, the list sorted by
    rating, descending or ascending, is shown in that order of the numeric
    rating. *)
Theorem filteredMovies_sorted_by_rating `{Host} props st :
  Forall (fun m => ∃ z, ratingOf m = Fin z) (movies props) →
  (sortBy st = rating_desc →
   ∃ shown, filteredMovies props st = Some shown ∧ StronglySorted ratingNotBelow shown)
  ∧ (sortBy st = rating_asc →
     ∃ shown, filteredMovies props st = Some shown ∧ StronglySorted ratingNotAbove shown).
Proof.
  intros Hall.
  assert (∀ m, m ∈ List.filter (keeps props st) (movies props) →
               ∃ z, ratingOf m = Fin z) as Hnum.
  { intros m Hm. apply list_elem_of_In, filter_In in Hm as [Hin _].
    rewrite Forall_forall in Hall. by apply Hall, list_elem_of_In. }
  split; intros Hsort; unfold filteredMovies.
  - rewrite (sortM_pure _ byRatingDesc)
      by (intros; unfold comparator; by rewrite Hsort).
    eexists. split; [done|]. apply sort_byRatingDesc_sorted.
    apply Forall_forall. exact Hnum.
  - rewrite (sortM_pure _ (fun a b => sub (ratingOf a) (ratingOf b)))
      by (intros; unfold comparator; by rewrite Hsort).
    eexists. split; [done|].
    apply (StronglySorted_weaken (fun a b => (ratingValue a <= ratingValue b)%Z)).
    + intros a b Ha Hb Hab. rewrite sort_perm in Ha, Hb.
      destruct (Hnum a Ha) as [x Hx], (Hnum b Hb) as [y Hy].
      exists y, x. unfold ratingValue in Hab. rewrite Hx, Hy in Hab. done.
    + apply sort_sorted. intros a b Ha Hb.
      destruct (Hnum a Ha) as [x Hx], (Hnum b Hb) as [y Hy].
      unfold ratingValue. rewrite Hx, Hy. apply positive_sub_Fin.
Qed.

Lemma filteredMovies_sorted_by_rating_witness :
  (sortBy initialState = rating_desc →
   ∃ shown, @filteredMovies plainHost ratedProps initialState = Some shown
            ∧ StronglySorted ratingNotBelow shown)
  ∧ (sortBy initialState = rating_asc →
     ∃ shown, @filteredMovies plainHost ratedProps initialState = Some shown
              ∧ StronglySorted ratingNotAbove shown).
Proof.
  apply filteredMovies_sorted_by_rating.
  repeat constructor; eexists; vm_compute; reflexivity.
Defined.

(** X11: sorting by the original title or by the rating date when the file has
    no such column leaves the kept rows in the order of the file. *)
Theorem filteredMovies_sort_without_column `{Host} props st :
  (hasColumn props "Original Title" = false ∧
   (sortBy st = original_title_asc ∨ sortBy st = original_title_desc))
  ∨ (hasColumn props "Date Rated" = false ∧
     (sortBy st = rated_date_asc ∨ sortBy st = rated_date_desc)) →
  filteredMovies props st = Some (List.filter (keeps props st) (movies props)).
Proof.
  intros Hc. unfold filteredMovies.
  rewrite (sortM_pure _ (fun _ _ => Fin 0)).
  - by rewrite sort_constant.
  - intros a b. unfold comparator.
    destruct Hc as [[Hc [-> | ->]]|[Hc [-> | ->]]]; by rewrite Hc.
Qed.

Lemma filteredMovies_sort_without_column_witness :
  @filteredMovies plainHost genreProps
    {| selectedGenres := ∅; selectedRatings := ∅;
       yearRange := {| min := EmptyString; max := EmptyString |};
       directorSearchTerm := EmptyString; sortBy := rated_date_desc |}
  = Some (movies genreProps).
Proof.
  rewrite filteredMovies_sort_without_column.
  - vm_compute. reflexivity.
  - right. split; [reflexivity|by right].
Defined.

(** X12: when every row has a Title, no facet and no sort option makes the list
    fail. *)
Theorem filteredMovies_yields_a_list `{Host} props st :
  Forall (fun m : IMDbEntry => is_Some (m !! "Title")) (movies props) →
  is_Some (filteredMovies props st).
Proof.
  intros Hall. unfold filteredMovies. apply sortM_is_Some.
  intros a b Ha Hb.
  assert (∀ m, m ∈ List.filter (keeps props st) (movies props) →
               is_Some (m !! "Title")) as Ht.
  { intros m Hm. apply list_elem_of_In, filter_In in Hm as [Hin _].
    rewrite Forall_forall in Hall. by apply Hall, list_elem_of_In. }
  assert (∀ m, m ∈ List.filter (keeps props st) (movies props) →
               is_Some (originalTitleOf m)) as Ho.
  { intros m Hm. unfold originalTitleOf, truthy.
    destruct (m !! "Original Title") as [t|]; [|by apply Ht].
    destruct (negb (isEmpty t)); [done|by apply Ht]. }
  unfold comparator, localeCompareOpt.
  destruct (sortBy st); try done.
  - by destruct (Ht a Ha) as [t ->].
  - by destruct (Ht b Hb) as [t ->].
  - destruct (negb (hasColumn props "Original Title")); [done|].
    by destruct (Ho a Ha) as [t ->].
  - destruct (negb (hasColumn props "Original Title")); [done|].
    by destruct (Ho b Hb) as [t ->].
  - by destruct (negb (hasColumn props "Date Rated")).
  - by destruct (negb (hasColumn props "Date Rated")).
Qed.

Lemma filteredMovies_yields_a_list_witness :
  is_Some (@filteredMovies plainHost genreProps (selecting ["Drama"])).
Proof.
  apply filteredMovies_yields_a_list.
  repeat constructor; by eexists.
Defined.

(** ** The check boxes *)

Lemma toggle_toggle x (s : gset string) : toggle x (toggle x s) = s.
Proof.
  unfold toggle. destruct (decide (x ∈ s)) as [Hx|Hx].
  - rewrite (bool_decide_eq_true_2 _ Hx).
    rewrite bool_decide_eq_false_2 by (rewrite elem_of_difference, elem_of_singleton; tauto).
    apply leibniz_equiv. intros y.
    rewrite elem_of_union, elem_of_difference, elem_of_singleton.
    destruct (decide (y = x)) as [->|]; tauto.
  - rewrite (bool_decide_eq_false_2 _ Hx).
    rewrite bool_decide_eq_true_2 by (rewrite elem_of_union, elem_of_singleton; tauto).
    apply leibniz_equiv. intros y.
    rewrite elem_of_difference, elem_of_union, elem_of_singleton.
    destruct (decide (y = x)) as [->|]; tauto.
Qed.

Lemma elem_of_toggle x y (s : gset string) :
  y ∈ toggle x s ↔ (y ≠ x ∧ y ∈ s) ∨ (y = x ∧ x ∉ s).
Proof.
  unfold toggle. case_bool_decide as Hx.
  - rewrite elem_of_difference, elem_of_singleton. tauto.
  - rewrite elem_of_union, elem_of_singleton.
    destruct (decide (y = x)) as [->|]; tauto.
Qed.

(** X13: ticking a genre or a rating check box twice restores the state; one
    tick flips the membership of that value alone and leaves the other
    selection as it was. *)
Theorem genre_and_rating_checkboxes_toggle st x :
  handleGenreChange x (handleGenreChange x st) = st
  ∧ handleRatingChange x (handleRatingChange x st) = st
  ∧ (∀ y, y ∈ selectedGenres (handleGenreChange x st)
          ↔ (y ≠ x ∧ y ∈ selectedGenres st) ∨ (y = x ∧ x ∉ selectedGenres st))
  ∧ (∀ y, y ∈ selectedRatings (handleRatingChange x st)
          ↔ (y ≠ x ∧ y ∈ selectedRatings st) ∨ (y = x ∧ x ∉ selectedRatings st))
  ∧ selectedRatings (handleGenreChange x st) = selectedRatings st
  ∧ selectedGenres (handleRatingChange x st) = selectedGenres st.
Proof.
  destruct st as [sg sr yr ds sb].
  unfold handleGenreChange, handleRatingChange. cbn.
  rewrite !toggle_toggle. repeat split; try apply elem_of_toggle.
Qed.

(** ** The totals of the chart *)

Lemma list_sum_perm (l l' : list nat) : l ≡ₚ l' → list_sum l = list_sum l'.
Proof. induction 1; simpl; lia. Qed.

Lemma totalOf_insert (m : gmap Z nat) y n :
  totalOf (<[y := n]> m) = (n + totalOf (delete y m))%nat.
Proof.
  unfold totalOf. rewrite <- insert_delete_eq.
  rewrite (list_sum_perm _ (n :: map snd (map_to_list (delete y m)))); [done|].
  change (n :: map snd ?l) with (map snd ((y, n) :: l)).
  apply Permutation_map, map_to_list_insert, lookup_delete_eq.
Qed.

Lemma totalOf_delete (m : gmap Z nat) y :
  totalOf m = (default 0%nat (m !! y) + totalOf (delete y m))%nat.
Proof.
  destruct (m !! y) as [n|] eqn:E; simpl.
  - unfold totalOf. rewrite <- (list_sum_perm _ _
      (Permutation_map snd (map_to_list_delete m y n E))). done.
  - by rewrite delete_id.
Qed.

Lemma totalOf_countYear yearCounts movie :
  totalOf (countYear yearCounts movie)
  = (totalOf yearCounts + if chartableYear movie then 1 else 0)%nat.
Proof.
  unfold countYear, chartableYear, chartable.
  destruct (parseInt (movie !! "Year")) as [| |y|]; try lia.
  destruct ((1800 <? y)%Z && (y <? 2100)%Z); [|lia].
  rewrite totalOf_insert, (totalOf_delete yearCounts y). lia.
Qed.

Lemma totalOf_fold movies yearCounts :
  totalOf (fold_left countYear movies yearCounts)
  = (totalOf yearCounts + length (List.filter chartableYear movies))%nat.
Proof.
  revert yearCounts. induction movies as [|m movies IH]; intros yc; simpl; [lia|].
  rewrite IH, totalOf_countYear. destruct (chartableYear m); simpl; lia.
Qed.

Lemma totalCount_createChartData movies :
  totalCount (createChartData movies) = length (List.filter chartableYear movies).
Proof.
  rewrite createChartData_eq. unfold totalCount. rewrite map_map.
  rewrite (list_sum_perm _ (map snd (map_to_list (yearCountsOf movies)))).
  - unfold yearCountsOf. fold (totalOf (fold_left countYear movies ∅)).
    rewrite totalOf_fold. unfold totalOf. by rewrite map_to_list_empty.
  - change (fun x => count (pointOf x)) with (@snd Z nat).
    apply Permutation_map, merge_sort_Permutation.
Qed.

Lemma hasYear_chartableYear movie :
  chartableYear movie = true ↔ ∃ y, chartable y = true ∧ hasYear y movie = true.
Proof.
  unfold chartableYear, hasYear.
  destruct (parseInt (movie !! "Year")) as [| |z|]; try (split; [done|by intros (? & ? & ?)]).
  split.
  - intros Hz. exists z. by rewrite Z.eqb_refl.
  - intros (y & Hy & ->%Z.eqb_eq). done.
Qed.

(** X14: the counts of the chart add up to the number of rows whose Year parses
    as an integer above 1800 and below 2100, hence to at most the number of
    rows, and the chart is empty exactly when no row has such a Year. *)
Theorem createChartData_counts_add_up movies :
  totalCount (createChartData movies) = length (List.filter chartableYear movies)
  ∧ (totalCount (createChartData movies) <= length movies)%nat
  ∧ (createChartData movies = [] ↔ Forall (fun m => chartableYear m = false) movies).
Proof.
  split; [apply totalCount_createChartData|]. split.
  { rewrite totalCount_createChartData. apply filter_length_le. }
  split.
  - intros E. apply Forall_forall. intros m Hm.
    destruct (chartableYear m) eqn:Hc; [|done]. exfalso.
    apply hasYear_chartableYear in Hc as (y & Hy & Hh).
    assert ({| year := toString y; count := moviesOfYear y movies |}
              ∈ createChartData movies) as Hp.
    { apply elem_of_createChartData. exists y. split; [done|]. split; [|done].
      unfold moviesOfYear.
      assert (In m (List.filter (hasYear y) movies)) as Hin.
      { apply filter_In. split; [by apply list_elem_of_In|done]. }
      destruct (List.filter (hasYear y) movies); [done|simpl; lia]. }
    rewrite E in Hp. by apply elem_of_nil in Hp.
  - intros Hall. destruct (createChartData movies) as [|p ps] eqn:E; [done|]. exfalso.
    assert (p ∈ createChartData movies) as Hp by (rewrite E; by left).
    apply elem_of_createChartData in Hp as (y & Hy & Hn & _).
    unfold moviesOfYear in Hn.
    destruct (List.filter (hasYear y) movies) as [|m ms] eqn:Ef; [simpl in Hn; lia|].
    assert (In m (List.filter (hasYear y) movies)) as Hin by (rewrite Ef; by left).
    apply filter_In in Hin as [Hin Hh]. rewrite Forall_forall in Hall.
    assert (chartableYear m = true) as Hc by (apply hasYear_chartableYear; eauto).
    rewrite Hall in Hc by (by apply list_elem_of_In). done.
Qed.

Lemma length_filter_perm {A} (f : A → bool) l l' :
  l ≡ₚ l' → length (List.filter f l) = length (List.filter f l').
Proof.
  induction 1 as [|x l l' _ IH|x y l|l l' l'' _ IH1 _ IH2]; simpl; try done.
  - destruct (f x); simpl; lia.
  - destruct (f x), (f y); done.
  - lia.
Qed.

(** X15: the chart does not depend on the order of the rows. *)
Theorem createChartData_ignores_row_order movies movies' :
  movies ≡ₚ movies' → createChartData movies = createChartData movies'.
Proof.
  intros Hp. rewrite !createChartData_eq. f_equal. f_equal. f_equal.
  apply map_eq. intros y. unfold yearCountsOf. rewrite !lookup_yearCounts.
  unfold moviesOfYear. by rewrite (length_filter_perm _ _ _ Hp).
Qed.

Lemma createChartData_row_order_witness :
  createChartData [movieRow "tt1" "1999" "Drama"; movieRow "tt2" "2001" "War"]
  = createChartData [movieRow "tt2" "2001" "War"; movieRow "tt1" "1999" "Drama"].
Proof. apply createChartData_ignores_row_order, perm_swap. Defined.

(** ** The year detail *)

Lemma yearIs_spec year (movie : IMDbEntry) :
  yearIs year movie = true ↔ movie !! "Year" = Some year.
Proof.
  unfold yearIs. destruct (movie !! "Year") as [y|]; [|done].
  rewrite String.eqb_eq. split; congruence.
Qed.

Lemma filter_filter {A} (f g : A → bool) l :
  List.filter f (List.filter g l) = List.filter (fun x => g x && f x) l.
Proof.
  induction l as [|x l IH]; simpl; [done|].
  destruct (g x); simpl; [|done]. destruct (f x); by rewrite IH.
Qed.

Lemma Forall_filter_keep {A} (P : A → Prop) (f : A → bool) l :
  Forall P l → Forall P (List.filter f l).
Proof.
  induction 1 as [|x l Hx _ IH]; simpl; [constructor|].
  destruct (f x); [by constructor|done].
Qed.

Lemma sortedMovies_eq movies year searchTerm :
  Forall (fun m : IMDbEntry => is_Some (m !! "Title")) movies →
  sortedMovies movies year searchTerm
  = Some (sort byRatingDesc
            (List.filter (fun m => yearIs year m && titleIncludes searchTerm m) movies)).
Proof.
  intros Ht. unfold sortedMovies.
  rewrite filterByTitle_total by (by apply Forall_filter_keep).
  by rewrite filter_filter.
Qed.

Lemma titleIncludes_empty (movie : IMDbEntry) :
  is_Some (movie !! "Title") → titleIncludes EmptyString movie = true.
Proof.
  intros [t Ht]. unfold titleIncludes. rewrite Ht. by destruct (toLowerCase t).
Qed.

(** X16: when every row has a Title, the year detail lists exactly the rows
    whose Year is the string of the selected year and whose Title contains
    the search of the modal, letter case apart: every row of the year when
    the search is empty, and in descending order of the numeric Your Rating
    when the rating of every kept row parses as an integer. *)
Theorem sortedMovies_lists_the_year movies year searchTerm :
  Forall (fun m : IMDbEntry => is_Some (m !! "Title")) movies →
  ∃ kept shown,
    Kept (fun m => m !! "Year" = Some year ∧ titleContains searchTerm m) movies kept
    ∧ sortedMovies movies year searchTerm = Some shown
    ∧ shown ≡ₚ kept
    ∧ (searchTerm = EmptyString → kept = List.filter (yearIs year) movies)
    ∧ (Forall (fun m => ∃ z, ratingOf m = Fin z) kept →
       StronglySorted ratingNotBelow shown).
Proof.
  intros Ht.
  exists (List.filter (fun m => yearIs year m && titleIncludes searchTerm m) movies).
  eexists. split; [|split; [by apply sortedMovies_eq|split; [apply sort_perm|split]]].
  - apply Kept_filter. intros m.
    by rewrite andb_true_iff, yearIs_spec, titleIncludes_spec.
  - intros ->. apply filter_ext_in. intros m Hm.
    rewrite Forall_forall in Ht. rewrite titleIncludes_empty.
    + apply andb_true_r.
    + by apply Ht, list_elem_of_In.
  - apply sort_byRatingDesc_sorted.
Qed.

Lemma sortedMovies_year_witness :
  ∃ kept shown,
    Kept (fun m => m !! "Year" = Some "1999" ∧ titleContains "TT" m)
      (movies ratedProps) kept
    ∧ sortedMovies (movies ratedProps) "1999" "TT" = Some shown
    ∧ shown ≡ₚ kept
    ∧ ("TT" = EmptyString → kept = List.filter (yearIs "1999") (movies ratedProps))
    ∧ (Forall (fun m => ∃ z, ratingOf m = Fin z) kept →
       StronglySorted ratingNotBelow shown).
Proof.
  apply sortedMovies_lists_the_year.
  repeat constructor; by eexists.
Defined.

Lemma length_filter_le_impl {A} (f g : A → bool) l :
  (∀ x, In x l → f x = true → g x = true) →
  (length (List.filter f l) <= length (List.filter g l))%nat.
Proof.
  induction l as [|x l IH]; intros H; simpl; [done|].
  assert (length (List.filter f l) <= length (List.filter g l))%nat as Hl.
  { apply IH. intros y Hy. apply H. by right. }
  destruct (f x) eqn:Hf.
  - rewrite (H x) by (done || by left). simpl. lia.
  - destruct (g x); simpl; lia.
Qed.

(** X17: the year detail of a bar of the chart lists, with an empty search, at
    most as many rows as the bar counts (the bar counts by the parsed Year,
    the detail compares the Year strings), and exactly as many when every
    row writes its Year as the plain decimal numeral. *)
Theorem sortedMovies_lists_at_most_the_bar movies point :
  Forall (fun m : IMDbEntry => is_Some (m !! "Title")) movies →
  point ∈ createChartData movies →
  ∃ shown,
    sortedMovies movies (year point) EmptyString = Some shown
    ∧ (length shown <= count point)%nat
    ∧ (Forall plainYear movies → length shown = count point).
Proof.
  intros Ht Hp. apply elem_of_createChartData in Hp as (y & Hy & _ & ->).
  cbn [year count]. eexists. split; [by apply sortedMovies_eq|].
  rewrite (Permutation_length (sort_perm _ _)).
  assert (List.filter (fun m => yearIs (toString y) m && titleIncludes EmptyString m) movies
          = List.filter (yearIs (toString y)) movies) as ->.
  { apply filter_ext_in. intros m Hm. rewrite Forall_forall in Ht.
    rewrite titleIncludes_empty; [apply andb_true_r|by apply Ht, list_elem_of_In]. }
  unfold moviesOfYear.
  assert (∀ m, yearIs (toString y) m = true → hasYear y m = true) as Himp.
  { intros m Hm. apply yearIs_spec in Hm. unfold hasYear.
    by rewrite Hm, parseInt_toString, Z.eqb_refl. }
  split; [apply length_filter_le_impl; auto|].
  intros Hplain. f_equal. apply filter_ext_in. intros m Hm.
  destruct (yearIs (toString y) m) eqn:E1; [by rewrite Himp|].
  destruct (hasYear y m) eqn:E2; [|done]. exfalso.
  rewrite Forall_forall in Hplain. specialize (Hplain m (proj2 (list_elem_of_In _ _) Hm) y).
  unfold hasYear in E2. destruct (parseInt (m !! "Year")) as [| |z|] eqn:Ez; try done.
  apply Z.eqb_eq in E2 as ->. apply yearIs_spec in Hplain; [congruence|done].
Qed.

Lemma sortedMovies_bar_witness :
  ∃ shown,
    sortedMovies (movies genreProps) "2000" EmptyString = Some shown
    ∧ (length shown <= 3)%nat
    ∧ (Forall plainYear (movies genreProps) → length shown = 3%nat).
Proof.
  apply (sortedMovies_lists_at_most_the_bar (movies genreProps)
           {| year := "2000"; count := 3 |}).
  - repeat constructor; by eexists.
  - assert (createChartData (movies genreProps) = [{| year := "2000"; count := 3 |}]) as ->
      by (vm_compute; reflexivity).
    by left.
Defined.

(** X18: a click on a bar of the chart opens the year detail for the year of
    that bar, whatever the state was; closing it, or the Escape key, leaves
    no year selected, and any other key leaves the detail open. *)
Theorem handleBarClick_opens_the_clicked_year movies point st :
  point ∈ createChartData movies →
  renderedYear (handleBarClick (Some point) st) = Some (year point)
  ∧ renderedYear (handleCloseModal (handleBarClick (Some point) st)) = None
  ∧ handleKeyDown "Escape" (handleBarClick (Some point) st) = closed
  ∧ (∀ key, key ≠ "Escape" →
       handleKeyDown key (handleBarClick (Some point) st)
       = handleBarClick (Some point) st).
Proof.
  intros Hp. apply elem_of_createChartData in Hp as (y & _ & _ & ->).
  unfold handleBarClick. cbn [year]. rewrite toString_nonempty. cbn [negb].
  unfold handleKeyDown, renderedYear. cbn. rewrite toString_nonempty. cbn.
  repeat split. intros key Hk. apply String.eqb_neq in Hk. by rewrite Hk.
Qed.

Lemma handleBarClick_witness :
  renderedYear (handleBarClick (Some {| year := "2000"; count := 3 |}) closed)
  = Some "2000".
Proof.
  apply (handleBarClick_opens_the_clicked_year (movies genreProps)
           {| year := "2000"; count := 3 |} closed).
  assert (createChartData (movies genreProps) = [{| year := "2000"; count := 3 |}]) as ->
    by (vm_compute; reflexivity).
  by left.
Defined.

(** ** Uploads and the states the App reaches *)

Lemma validRow_filterAndProcessMovies text firstRow rest :
  parseCSV text = firstRow :: rest → missingColumns firstRow = [] →
  Forall validRow (filterAndProcessMovies (parseCSV text)).
Proof.
  intros E Hm. apply Forall_forall. intros m Hin.
  apply list_elem_of_In, filter_In in Hin as [Hin Hmovie]. split; [done|].
  apply Forall_forall. intros col Hcol.
  apply elem_of_dom. rewrite (parseCSV_same_keys text m firstRow).
  - apply elem_of_dom. by apply missingColumns_nil_required.
  - by apply list_elem_of_In.
  - rewrite E. by left.
Qed.

Lemma createChartData_nil : createChartData [] = [].
Proof. reflexivity. Qed.

(** What an upload that passes the type check leaves behind. *)
Lemma handleFileSelect_read file st :
  negb (String.eqb (type file) "text/csv") && negb (endsWith (name file) ".csv") = false →
  let st' := handleFileSelect file st in
  isLoading st' = false
  ∧ fileName st' = Some (name file)
  ∧ searchTerm st' = EmptyString
  ∧ searchResults st' = []
  ∧ ((∃ message, error st' = Some message)
       ∧ allMovies st' = [] ∧ chartData st' = []
     ∨ error st' = None
       ∧ allMovies st' ≠ []
       ∧ Forall validRow (allMovies st')
       ∧ chartData st' = createChartData (allMovies st')
       ∧ ∃ text, content file = Some text
                 ∧ allMovies st' = filterAndProcessMovies (parseCSV text)).
Proof.
  intros Hgate. unfold handleFileSelect. rewrite Hgate.
  destruct (content file) as [text|]; [|by repeat split; eauto 6].
  destruct (parseCSV text) as [|firstRow rest] eqn:E.
  { rewrite onload_empty by done. repeat split; eauto 6. }
  destruct (decide (missingColumns firstRow = [])) as [Hm|Hm].
  2:{ rewrite (onload_missing _ _ firstRow rest) by done. repeat split; eauto 6. }
  destruct (decide (filterAndProcessMovies (parseCSV text) = [])) as [Hf|Hf].
  { unfold onload. rewrite E in Hf |- *. cbv zeta.
    rewrite missingColumns_test, Hf. rewrite bool_decide_eq_true_2 by done.
    repeat split; eauto 6. }
  rewrite (onload_accepts _ _ firstRow rest) by done. cbn.
  repeat split. right. repeat split; [done| |by exists text].
  by apply (validRow_filterAndProcessMovies text firstRow rest).
Qed.

(** X19: an upload has one of three outcomes.  A file that neither has the CSV
    type nor a name ending in .csv is refused with an error and everything
    else stays as it was, the loaded rows included.  Any other file ends the
    loading, records the file name and clears the search; then either an
    error is set and no row and no chart point is left, or no error is set
    and the rows are the qualifying movies of the parsed text, at least
    one, each with every required column, with the chart made of them. *)
Theorem handleFileSelect_refuses_or_reads file st :
  let st' := handleFileSelect file st in
  (type file ≠ "text/csv" ∧ endsWith (name file) ".csv" = false
   ∧ (∃ message, error st' = Some message)
   ∧ allMovies st' = allMovies st ∧ chartData st' = chartData st
   ∧ fileName st' = fileName st ∧ isLoading st' = isLoading st
   ∧ searchTerm st' = searchTerm st ∧ searchResults st' = searchResults st
   ∧ availableColumns st' = availableColumns st)
  ∨ ((type file = "text/csv" ∨ endsWith (name file) ".csv" = true)
     ∧ isLoading st' = false
     ∧ fileName st' = Some (name file)
     ∧ searchTerm st' = EmptyString
     ∧ searchResults st' = []
     ∧ ((∃ message, error st' = Some message)
          ∧ allMovies st' = [] ∧ chartData st' = []
        ∨ error st' = None
          ∧ allMovies st' ≠ []
          ∧ Forall validRow (allMovies st')
          ∧ chartData st' = createChartData (allMovies st')
          ∧ ∃ text, content file = Some text
                    ∧ allMovies st' = filterAndProcessMovies (parseCSV text))).
Proof.
  cbv zeta.
  destruct (negb (String.eqb (type file) "text/csv")
            && negb (endsWith (name file) ".csv")) eqn:Hgate.
  - left. apply andb_true_iff in Hgate as [Hty Hname].
    apply negb_true_iff in Hty, Hname. apply String.eqb_neq in Hty.
    split; [done|]. split; [done|].
    unfold handleFileSelect. apply String.eqb_neq in Hty. rewrite Hty, Hname. cbn.
    repeat split. eauto.
  - right. split; [|by apply handleFileSelect_read].
    apply andb_false_iff in Hgate as [Hty|Hname].
    + left. apply negb_false_iff in Hty. by apply String.eqb_eq.
    + right. by apply negb_false_iff.
Qed.

Lemma parseCSV_no_well_formed_line text :
  match contentLines text with
  | [] => True
  | headerLine :: dataLines =>
      let d := detectDelimiter headerLine in
      Forall (fun l => wellFormed d (map clean (splitRegex d headerLine)) l = false)
        dataLines
  end →
  parseCSV text = [].
Proof.
  rewrite parseCSV_spec. destruct (contentLines text) as [|h ls]; [done|].
  cbv zeta. intros Hall.
  assert (List.filter (wellFormed (detectDelimiter h)
            (map clean (splitRegex (detectDelimiter h) h))) ls = []) as ->; [|done].
  induction Hall as [|l ls Hl _ IH]; simpl; [done|]. by rewrite Hl.
Qed.

(** X20: a readable file with fewer than two non-blank lines, or whose data
    lines all have another field count than the header line, is reported
    as empty, and no column is made available. *)
Theorem handleFileSelect_reports_empty_file file text st :
  type file = "text/csv" ∨ endsWith (name file) ".csv" = true →
  content file = Some text →
  (length (contentLines text) < 2)%nat
  ∨ (∃ headerLine dataLines,
       contentLines text = headerLine :: dataLines
       ∧ let d := detectDelimiter headerLine in
         Forall (fun l => length (splitRegex d l) ≠ length (splitRegex d headerLine))
           dataLines) →
  error (handleFileSelect file st) = Some emptyFileMessage
  ∧ availableColumns (handleFileSelect file st) = [].
Proof.
  intros Hty Hc Hlines.
  assert (parseCSV text = []) as Hp.
  { apply parseCSV_no_well_formed_line.
    destruct Hlines as [Hlen|(h & ls & E & Hall)].
    - destruct (contentLines text) as [|h [|l ls]]; [done| |simpl in Hlen; lia].
      cbv zeta. constructor.
    - rewrite E. cbv zeta in Hall |- *.
      eapply Forall_impl; [exact Hall|]. intros l Hl. unfold wellFormed.
      apply Nat.eqb_neq. rewrite length_map. congruence. }
  assert (negb (String.eqb (type file) "text/csv")
          && negb (endsWith (name file) ".csv") = false) as Hgate.
  { destruct Hty as [->| ->]; [done|]. apply andb_false_r. }
  unfold handleFileSelect. rewrite Hgate, Hc. rewrite onload_empty by done. done.
Qed.

Lemma handleFileSelect_empty_file_witness :
  error (handleFileSelect (csvFile "Const,Title,Year") initialAppState)
  = Some emptyFileMessage.
Proof.
  apply (handleFileSelect_reports_empty_file (csvFile "Const,Title,Year")
           "Const,Title,Year" initialAppState).
  - by left.
  - reflexivity.
  - left. vm_compute. lia.
Defined.

(** X21: a readable file whose first Record has every required column but
    none of whose Records is a qualifying movie is rejected with the error
    that no movie was found; no row and no chart point is left, and the
    columns of the file stay available. *)
Theorem handleFileSelect_reports_no_movies file text st firstRow rest :
  type file = "text/csv" ∨ endsWith (name file) ".csv" = true →
  content file = Some text →
  parseCSV text = firstRow :: rest →
  missingColumns firstRow = [] →
  Forall (fun row => ¬ qualifies row) (parseCSV text) →
  error (handleFileSelect file st) = Some noMoviesMessage
  ∧ allMovies (handleFileSelect file st) = []
  ∧ chartData (handleFileSelect file st) = []
  ∧ isLoading (handleFileSelect file st) = false
  ∧ availableColumns (handleFileSelect file st) = keys firstRow.
Proof.
  intros Hty Hc Hp Hm Hnone.
  assert (filterAndProcessMovies (parseCSV text) = []) as Hf.
  { unfold filterAndProcessMovies. apply filter_none.
    intros row Hin. rewrite Forall_forall in Hnone.
    destruct (isMovie row) eqn:E; [|done].
    apply isMovie_qualifies in E. by apply Hnone in E. }
  assert (negb (String.eqb (type file) "text/csv")
          && negb (endsWith (name file) ".csv") = false) as Hgate.
  { destruct Hty as [->| ->]; [done|]. apply andb_false_r. }
  unfold handleFileSelect. rewrite Hgate, Hc.
  unfold onload. rewrite Hp in Hf |- *. cbv zeta.
  rewrite missingColumns_test, Hf. rewrite bool_decide_eq_true_2 by done.
  done.
Qed.

Lemma handleFileSelect_no_movies_witness :
  error (handleFileSelect
           (csvFile ("Const,Title,Year,Your Rating,URL,Title Type" ++ nl
                     ++ "tt1,A,1999,7,u,tvSeries"))
           initialAppState)
  = Some noMoviesMessage.
Proof.
  refine (proj1 (handleFileSelect_reports_no_movies
            (csvFile ("Const,Title,Year,Your Rating,URL,Title Type" ++ nl
                      ++ "tt1,A,1999,7,u,tvSeries"))
            ("Const,Title,Year,Your Rating,URL,Title Type" ++ nl
             ++ "tt1,A,1999,7,u,tvSeries") initialAppState
            (<["Const" := "tt1"]> (<["Title" := "A"]> (<["Year" := "1999"]>
               (<["Your Rating" := "7"]> (<["URL" := "u"]>
                  (<["Title Type" := "tvSeries"]> ∅))))))
            [] _ _ _ _ _)).
  - by left.
  - reflexivity.
  - vm_compute. reflexivity.
  - vm_compute. reflexivity.
  - replace (parseCSV _) with
      [ (<["Const" := "tt1"]> (<["Title" := "A"]> (<["Year" := "1999"]>
           (<["Your Rating" := "7"]> (<["URL" := "u"]>
              (<["Title Type" := "tvSeries"]> ∅)))))) : IMDbEntry ]
      by (vm_compute; reflexivity).
    constructor; [|constructor].
    intros Hq. apply isMovie_qualifies in Hq. vm_compute in Hq. discriminate.
Defined.

Lemma validRow_Title movies :
  Forall validRow movies → Forall (fun m : IMDbEntry => is_Some (m !! "Title")) movies.
Proof.
  intros Hv. eapply Forall_impl; [exact Hv|].
  intros m [_ Hcols]. rewrite Forall_forall in Hcols.
  apply Hcols. unfold REQUIRED_COLUMNS. apply list_elem_of_In. simpl. tauto.
Qed.

Lemma searchMovies_total allMovies value :
  Forall (fun m : IMDbEntry => is_Some (m !! "Title")) allMovies →
  searchMovies allMovies value
  = Some (if isEmpty (trim value) then []
          else sort byRatingDesc (List.filter (titleIncludes value) allMovies)).
Proof.
  intros Ht. unfold searchMovies. destruct (isEmpty (trim value)); [done|].
  by rewrite filterByTitle_total.
Qed.

Lemma consistent_step st e : consistent st → consistent (step st e).
Proof.
  intros (Hl & Hv & Hc & Hs). destruct e as [file|value]; simpl.
  - destruct (negb (String.eqb (type file) "text/csv")
              && negb (endsWith (name file) ".csv")) eqn:Hgate.
    + unfold handleFileSelect. rewrite Hgate. done.
    + destruct (handleFileSelect_read file st Hgate)
        as (Hl' & _ & _ & Hs' & [(_ & Hm & Hcd)|(_ & _ & Hv' & Hcd & _)]).
      * split; [done|]. rewrite Hm, Hcd, Hs'. repeat split; [constructor|done].
      * split; [done|]. rewrite Hs'. repeat split; [done|done|].
        intros x Hx. by apply elem_of_nil in Hx.
  - unfold handleSearchChange. rewrite searchMovies_total by (by apply validRow_Title).
    repeat split; try done. cbn.
    destruct (isEmpty (trim value)); [intros x Hx; by apply elem_of_nil in Hx|].
    intros x Hx. rewrite sort_perm in Hx.
    by apply list_elem_of_In, filter_In in Hx as [Hx%list_elem_of_In _].
Qed.

Lemma consistent_initial : consistent initialAppState.
Proof. repeat split; [constructor|]. intros x Hx. by apply elem_of_nil in Hx. Qed.

Lemma consistent_fold events st :
  consistent st → consistent (fold_left step events st).
Proof.
  revert st. induction events as [|e events IH]; intros st Hst; [done|].
  simpl. by apply IH, consistent_step.
Qed.

Lemma consistent_run events : consistent (run events).
Proof. apply consistent_fold, consistent_initial. Qed.

(** X22: in every state the App reaches by uploads and searches, each
    upload read to its end before the next event, no loading is pending, every loaded row is a qualifying movie with every required
    column, the chart is the chart of the loaded rows, and the search
    results are among the loaded rows. *)
Theorem run_keeps_the_state_consistent events :
  let st := run events in
  isLoading st = false
  ∧ Forall validRow (allMovies st)
  ∧ chartData st = createChartData (allMovies st)
  ∧ searchResults st ⊆ allMovies st
  ∧ (chartData st ≠ [] → allMovies st ≠ []).
Proof.
  destruct (consistent_run events) as (Hl & Hv & Hc & Hs).
  repeat split; try done. intros Hne Hm. apply Hne. by rewrite Hc, Hm.
Qed.

Lemma run_snoc events e : run (events ++ [e]) = step (run events) e.
Proof. unfold run. by rewrite fold_left_app. Qed.

(** X23: in every state the App reaches by uploads and searches, each
    upload read to its end before the next event, the search and the year
    detail do not fail: the search yields the results the state then holds, for a
    non-blank query the rows whose Title contains it, and the year detail
    the rows of the year whose Title contains the search of the modal. *)
Theorem run_search_never_throws events value year :
  let st := run events in
  searchMovies (allMovies st) value
  = Some (searchResults (run (events ++ [Search value])))
  ∧ (trim value ≠ EmptyString →
     ∃ kept, Kept (titleContains value) (allMovies st) kept
             ∧ searchResults (run (events ++ [Search value])) ≡ₚ kept)
  ∧ (∃ kept shown,
       Kept (fun m => m !! "Year" = Some year ∧ titleContains value m) (allMovies st) kept
       ∧ sortedMovies (allMovies st) year value = Some shown ∧ shown ≡ₚ kept).
Proof.
  destruct (consistent_run events) as (_ & Hv%validRow_Title & _ & _).
  cbv zeta. rewrite run_snoc. simpl. unfold handleSearchChange.
  rewrite searchMovies_total by done. cbn [searchResults].
  split; [done|]. split.
  - intros Hne. apply isEmpty_false in Hne. rewrite Hne.
    exists (List.filter (titleIncludes value) (allMovies (run events))).
    split; [apply Kept_filter, titleIncludes_spec|apply sort_perm].
  - exists (List.filter (fun m => yearIs year m && titleIncludes value m)
              (allMovies (run events))).
    eexists. split; [|split; [by apply sortedMovies_eq|apply sort_perm]].
    apply Kept_filter. intros m.
    by rewrite andb_true_iff, yearIs_spec, titleIncludes_spec.
Qed.

(** ** Lines without quotes, and lines of quoted cells *)

(** X24: on a line without double quotes the field separator splits at every
    delimiter, as a plain split does, which gives one field more than the
    line has delimiters. *)
Theorem splitRegex_plain_line d line :
  quoteFree line →
  splitRegex d line = split d line
  ∧ length (splitRegex d line) = S (occurrences d line).
Proof.
  intros Hq.
  assert (splitRegex d line = split d line) as E.
  { induction Hq as [|c s Hc Hs IH]; [done|].
    simpl. rewrite (quoteFree_lookahead s Hs), andb_true_r, IH. done. }
  split; [done|]. rewrite E. apply length_split.
Qed.

Lemma splitRegex_plain_line_witness :
  splitRegex ","%char "tt1,A,1999" = split ","%char "tt1,A,1999"
  ∧ length (splitRegex ","%char "tt1,A,1999") = S (occurrences ","%char "tt1,A,1999").
Proof. apply splitRegex_plain_line. repeat constructor; discriminate. Defined.

Lemma trimEnd_snoc s c :
  isWhiteSpace c = false → trimEnd (s ++ String c EmptyString) = s ++ String c EmptyString.
Proof.
  intros Hc. induction s as [|a s IH].
  - rewrite append_nil_l. simpl. by rewrite Hc.
  - rewrite append_cons. simpl. rewrite IH.
    destruct s; [by rewrite append_nil_l|by rewrite append_cons].
Qed.

Lemma replaceEdgeQuotes_closing s :
  replaceEdgeQuotes false (s ++ String dquote EmptyString) = s.
Proof.
  induction s as [|a s IH].
  - rewrite append_nil_l. reflexivity.
  - rewrite append_cons. simpl. rewrite IH.
    assert (isEmpty (s ++ String dquote EmptyString) = false) as ->.
    { destruct s; [by rewrite append_nil_l|by rewrite append_cons]. }
    by rewrite andb_false_r.
Qed.

Lemma clean_quoted s : clean (quoted s) = s.
Proof.
  unfold clean, quoted, trim.
  change (trimStart (String dquote (s ++ String dquote EmptyString)))
    with (String dquote (s ++ String dquote EmptyString)).
  rewrite <- append_cons, trimEnd_snoc by done.
  rewrite append_cons. simpl. apply replaceEdgeQuotes_closing.
Qed.

Lemma lookahead_quoted s : quoteFree s → lookahead (quoted s) = true.
Proof.
  intros Hs. unfold quoted. rewrite lookahead_quote, lookahead_app.
  rewrite (quoteFree_lookahead s Hs). reflexivity.
Qed.

Lemma lookahead_join_quoted d cells :
  d ≠ dquote → Forall quoteFree cells →
  lookahead (join (sepOf d) (map quoted cells)) = true.
Proof.
  intros Hd Hall. induction Hall as [|c cs Hc Hcs IH]; [done|].
  destruct cs as [|c' cs]; [by apply lookahead_quoted|].
  change (map quoted (c :: c' :: cs)) with (quoted c :: quoted c' :: map quoted cs).
  rewrite join_cons, !lookahead_app, lookahead_quoted, lookahead_sepOf by done.
  cbn [map] in IH. by rewrite IH.
Qed.

(** No split point inside a quoted span: behind each of its code units an
    odd number of quotes remains. *)
Lemma splitRegex_inside_quotes d a b :
  quoteFree a → lookahead b = false →
  splitRegex d (a ++ b)
  = match splitRegex d b with f :: fs => (a ++ f) :: fs | [] => [] end.
Proof.
  intros Ha Hb. induction Ha as [|c s Hc Hs IH].
  - rewrite append_nil_l. destruct (splitRegex_cons d b) as (f & fs & ->).
    by rewrite append_nil_l.
  - rewrite append_cons. simpl.
    assert (lookahead (s ++ b) = false) as ->.
    { by rewrite lookahead_app, (quoteFree_lookahead s Hs), Hb. }
    rewrite andb_false_r, IH.
    destruct (splitRegex_cons d b) as (f & fs & ->). by rewrite append_cons.
Qed.

Lemma splitRegex_String d c rest :
  splitRegex d (String c rest)
  = if Ascii.eqb c d && lookahead rest then EmptyString :: splitRegex d rest
    else pushFront c (splitRegex d rest).
Proof. reflexivity. Qed.

Lemma splitRegex_quoted_cell d cell rest :
  d ≠ dquote → quoteFree cell → lookahead rest = true →
  splitRegex d (quoted cell ++ String d rest) = quoted cell :: splitRegex d rest.
Proof.
  intros Hd Hc Hr. unfold quoted.
  rewrite append_cons, append_assoc, append_cons, append_nil_l.
  assert (Ascii.eqb dquote d = false) as Hne by (apply Ascii.eqb_neq; congruence).
  rewrite splitRegex_String, Hne. cbn [andb].
  rewrite splitRegex_inside_quotes; [|done|].
  2:{ rewrite lookahead_quote.
      change (lookahead (String d rest))
        with (if Ascii.eqb d dquote then negb (lookahead rest) else lookahead rest).
      destruct (Ascii.eqb_spec d dquote); [done|]. by rewrite Hr. }
  rewrite splitRegex_String, Hne. cbn [andb].
  rewrite splitRegex_String, Ascii.eqb_refl, Hr. cbn [andb pushFront].
  done.
Qed.

Lemma splitRegex_quoted_last d cell :
  d ≠ dquote → quoteFree cell → splitRegex d (quoted cell) = [quoted cell].
Proof.
  intros Hd Hc. unfold quoted.
  assert (Ascii.eqb dquote d = false) as Hne by (apply Ascii.eqb_neq; congruence).
  rewrite splitRegex_String, Hne. cbn [andb].
  rewrite splitRegex_inside_quotes; [|done|done].
  rewrite splitRegex_String, Hne. cbn [andb]. done.
Qed.

Lemma splitRegex_join_quoted d cells :
  d ≠ dquote → cells ≠ [] → Forall quoteFree cells →
  splitRegex d (join (sepOf d) (map quoted cells)) = map quoted cells.
Proof.
  intros Hd Hne Hall. induction Hall as [|c cs Hc Hcs IH]; [done|].
  destruct cs as [|c' cs]; [by apply splitRegex_quoted_last|].
  change (map quoted (c :: c' :: cs)) with (quoted c :: quoted c' :: map quoted cs).
  rewrite join_cons. unfold sepOf at 1. rewrite append_cons, append_nil_l.
  rewrite splitRegex_quoted_cell; [|done|done|].
  - f_equal. by apply IH.
  - by apply (lookahead_join_quoted d (c' :: cs)).
Qed.

(** X25: a line written as cells between double quotes, joined by a delimiter
    that is no double quote, is read back cell by cell when no cell holds a
    double quote, also when cells hold the delimiter or white space. *)
Theorem splitRegex_reads_quoted_cells d cells :
  d ≠ dquote → cells ≠ [] → Forall quoteFree cells →
  map clean (splitRegex d (join (sepOf d) (map quoted cells))) = cells
  ∧ ∀ j, (j < length cells)%nat →
         Some (cellValue (splitRegex d (join (sepOf d) (map quoted cells))) j)
         = cells !! j.
Proof.
  intros Hd Hne Hall. rewrite splitRegex_join_quoted by done. split.
  - rewrite map_map. rewrite <- (map_id cells) at 2.
    apply map_ext. apply clean_quoted.
  - intros j Hj. unfold cellValue. rewrite list_lookup_fmap.
    destruct (cells !! j) as [c|] eqn:E.
    + simpl. by rewrite clean_quoted.
    + apply lookup_ge_None in E. lia.
Qed.

Lemma splitRegex_quoted_cells_witness :
  map clean (splitRegex ","%char
               (join (sepOf ","%char) (map quoted ["tt1"; "Drama, Romance"; "1999"])))
  = ["tt1"; "Drama, Romance"; "1999"].
Proof.
  apply (splitRegex_reads_quoted_cells ","%char ["tt1"; "Drama, Romance"; "1999"]).
  - discriminate.
  - discriminate.
  - repeat constructor; discriminate.
Defined.

(** ** The genres the list offers *)

(** X26: the genres offered as check boxes never include the empty genre, are
    none without a Genres column, and with one include every non-empty
    genre the filter reads off a row. *)
Theorem allGenres_offers_the_genres_of_the_rows props :
  (EmptyString ∉ allGenres props)
  ∧ (hasColumn props "Genres" = false → allGenres props = ∅)
  ∧ (∀ movie genre,
       hasColumn props "Genres" = true → movie ∈ movies props →
       genre ∈ genresOf movie → genre ≠ EmptyString → genre ∈ allGenres props).
Proof.
  unfold allGenres. split; [|split].
  - destruct (negb (hasColumn props "Genres")); [apply not_elem_of_empty|].
    rewrite elem_of_list_to_set, list_elem_of_In, in_flat_map.
    intros (movie & _ & Hin). apply list_elem_of_In in Hin.
    unfold listedGenres in Hin. destruct (movie !! "Genres") as [gs|].
    + apply list_elem_of_fmap in Hin as (t & Ht & Hin). symmetry in Ht.
      apply translate_empty in Ht. subst t.
      by apply list_elem_of_In, filter_In in Hin as [_ Hin].
    + by apply elem_of_nil in Hin.
  - by intros ->.
  - intros movie genre -> Hin Hg Hne. cbn [negb].
    apply elem_of_list_to_set, list_elem_of_In, in_flat_map.
    exists movie. split; [by apply list_elem_of_In|].
    by apply list_elem_of_In, genresOf_listed.
Qed.

(** ** Line ends *)

Lemma splitLines_String c rest :
  c ≠ LF → c ≠ CR → splitLines (String c rest) = pushFront c (splitLines rest).
Proof.
  intros H1 H2. simpl.
  apply Ascii.eqb_neq in H1, H2. rewrite H1, H2. cbn [andb]. by destruct rest.
Qed.

Lemma splitLines_cons s : ∃ l ls, splitLines s = l :: ls.
Proof.
  induction s as [|c rest (l & ls & IH)]; [simpl; eauto|].
  simpl. destruct (Ascii.eqb c LF); [eauto|].
  destruct rest as [|c' rest']; [simpl; eauto|].
  destruct (Ascii.eqb c CR && Ascii.eqb c' LF); [eauto|].
  rewrite IH. simpl. eauto.
Qed.

Lemma splitLines_line line rest :
  oneLine line →
  splitLines (line ++ rest)
  = match splitLines rest with l :: ls => (line ++ l) :: ls | [] => [] end.
Proof.
  induction 1 as [|c s H1 H2 Hs IH].
  - rewrite append_nil_l. destruct (splitLines_cons rest) as (l & ls & ->).
    by rewrite append_nil_l.
  - rewrite append_cons, splitLines_String, IH by done.
    destruct (splitLines_cons rest) as (l & ls & ->). by rewrite append_cons.
Qed.

Lemma splitLines_LF rest : splitLines (String LF rest) = EmptyString :: splitLines rest.
Proof. reflexivity. Qed.

Lemma splitLines_CRLF rest :
  splitLines (String CR (String LF rest)) = EmptyString :: splitLines rest.
Proof. reflexivity. Qed.

Lemma splitLines_join sep lines :
  sep = String LF EmptyString ∨ sep = String CR (String LF EmptyString) →
  lines ≠ [] → Forall oneLine lines →
  splitLines (join sep lines) = lines.
Proof.
  intros Hsep Hne Hall. induction Hall as [|l ls Hl Hls IH]; [done|].
  destruct ls as [|l' ls].
  - simpl. rewrite <- (append_nil_r l) at 1. rewrite splitLines_line by done.
    simpl. by rewrite append_nil_r.
  - rewrite join_cons, splitLines_line by done.
    assert (splitLines (sep ++ join sep (l' :: ls)) = EmptyString :: l' :: ls) as ->.
    { destruct Hsep as [-> | ->].
      - rewrite append_cons, append_nil_l, splitLines_LF. f_equal. by apply IH.
      - rewrite !append_cons, append_nil_l, splitLines_CRLF. f_equal. by apply IH. }
    by rewrite append_nil_r.
Qed.

(** X27: lines that hold no line feed and no carriage return are read back
    from the text that joins them with line feeds and from the text that
    joins them with carriage return and line feed alike. *)
Theorem splitLines_reads_both_line_ends lines :
  lines ≠ [] → Forall oneLine lines →
  splitLines (join (String LF EmptyString) lines) = lines
  ∧ splitLines (join (String CR (String LF EmptyString)) lines) = lines.
Proof.
  intros Hne Hall. split; apply splitLines_join; auto.
Qed.

Lemma splitLines_line_ends_witness :
  splitLines (join (String CR (String LF EmptyString)) ["Const,Title"; "tt1,A"; "tt2,B"])
  = ["Const,Title"; "tt1,A"; "tt2,B"].
Proof.
  apply (splitLines_reads_both_line_ends ["Const,Title"; "tt1,A"; "tt2,B"]).
  - discriminate.
  - repeat constructor; discriminate.
Defined.
